(* ===== verification/_CoqProject ===== *)
-Q . S2P
Prelude.v
Date.v
Html.v
Data.v
Ledger.v
Server.v
Api.v
ApiTests.v
Notify.v
Store.v
System.v
Stamps.v
Views.v
Dashboard.v
Pages.v
TransferPage.v
Create.v
Animation.v
Cards.v
AdminPages.v
Scenarios.v
