(* ===== verification/Prelude.v ===== *)
(** * Shadow-bank: a verification development of the ledger front end

    The repository is a Next.js front end for a "shadow ledger": an admin
    creates credits ([src/app/admin/create/page.tsx]), posts or reverses
    them ([src/app/admin/transactions/page.tsx]); a user sees a total and an
    available balance ([src/app/user/[id]/page.tsx]) and sends transfers
    that an admin later posts or reverses
    ([src/app/user/[id]/transfer/page.tsx]). Credits live on a remote
    server reached through [src/lib/api.ts]; transfers and notifications
    live only in the browser, in the hook [useShadowStorage] of
    [src/hooks/use-shadow-storage.ts], which keeps them in React state and
    [localStorage] and reloads balances from the server after every credit
    operation.

    ** Files
    - [Prelude] (this file): the JavaScript idioms ([o ||| d] for
      [o || d], [js_find] for [Array.prototype.find], [map_where] for a
      conditional [map], [sumZ] for [reduce]), the state-and-exception
      monad [ST] with its [do] notation in [shadow_scope], the hint
      databases [shadow] and [shadow_rw], and the list lemmas the
      components share.
    - [Date]: the two ECMAScript built-ins the code applies to
      timestamps, [Date.prototype.toISOString] ([toISOString]) and
      [new Date(s).getTime()] on the Date Time String Format
      ([date_parse]), over the proleptic Gregorian calendar of the
      language specification.
    - [Html]: what a browser does with an [<input type="number">]
      (value sanitization to a valid floating-point number and its
      value), modelled from the HTML standard; shared by the two forms.
    - [Data]: the records [Transaction], [Transfer], [Balance],
      [LedgerEntry], [ShadowData] and [INITIAL_DATA] of the hook and api.ts.
    - [Ledger]: [calculateBalanceFromLedger] as a [foldl], proved equal to a
      sum specification, permutation invariant and additive.
    - [Server]: the interface [LedgerServer] of the five routes the client
      calls and the contract [LedgerServerSpec] it relies on; [Backend], a
      server modelled from the specification (the backend is not in the
      repository), with the proof that it meets the contract and that its
      credits follow the lifecycle [pending -> posted -> reversed].
    - [Api]: every client function of api.ts, in the module [api] the
      hook imports them by, as an [ST (Remote S)] action
      over any [LedgerServer], [markAsProvisional] included (its route,
      which the specification does not describe, is the interface
      [ProvisionalRoute] of [Server]); [getAllBalances] refines the
      balances derived from the server's table.
    - [ApiTests]: the helpers of [src/lib/api-tests.ts] and the complete
      workflow, proved against any server meeting the contract.
    - [Notify]: [toLocaleString], the ten message templates and the
      object-spread updates of [data.notifications].
    - [Store]: the hook. [Env] holds the remote, [localStorage], the clock
      ([now], read by [Date.now()], and [elapsed], the time that passes
      before a later [new Date()] of the same handler), [data] and
      [isLoaded]; each handler ([loadData], [saveLocalData],
      [createTransaction], [postTransaction], [reverseTransaction],
      [createPendingTransfer], [postTransfer], [reverseTransfer],
      [createTransfer]) is an [ST (Env S) JsError] action reading the
      [data] its closure captured, in the order the code runs its calls;
      [first_render] and [mount] are the hook's initial state and the
      mount effect that runs [loadData] once.
    - [System]: the step relation of a mounted hook (a handler, a clock
      tick or a change of [elapsed], the network going down or up, another client's request) and
      the balance invariant of every reachable state, which a page load
      ([Store.mount]) establishes; and progress: no
      credit is stuck, from every state a run of the system settles it.
    - [Stamps]: the form of every stored transfer (id [trf-<n>], timestamp
      the ISO string of a time [m >= n]) in every reachable state.
    - [Views] and [Pages]: what the pages compute from [data] (the sorted
      admin list, the counters, the user's lists, the buttons of a transfer
      card, the [EmptyState] component) and their handlers, with
      [Number.parseInt].
    - [Dashboard]: the user dashboard of [src/app/user/[id]/page.tsx]
      (what it renders, its refresh timers and tabs, the heading and empty
      state of each tab) and the
      [NotificationPanel] of [src/components/notification-panel.tsx] as a
      state machine over clicks and renders.
    - [TransferPage]: the transfer form of
      [src/app/user/[id]/transfer/page.tsx] as the browser submits it:
      the disabled Send button, the validation of [max] against the
      number the amount denotes ([Html]), then [handleTransfer] with
      [parseInt]; the page it renders (Module [TransferPage], after the
      component: [Loading...], then the
      balance box, the recipient options, the amount field and the
      buttons).
    - [Create]: the admin create page of [src/app/admin/create/page.tsx]:
      [handleSubmit] behind the browser's sanitization and constraint
      validation of its [<input type="number" min="1" step="100">]
      (modelled from the HTML standard), and the page it renders (Module
      [CreateTransaction], after the component).
    - [Animation]: the counting loop of [balance-card.tsx] and the
      increment both cards use.
    - [Cards]: [DualBalanceCard] as a state machine over its props, its
      two displayed values and its two intervals ([Tick] of 16 ms,
      [SetProps] for a render with new props); [BalanceCard], which no
      page renders and whose source prints mojibake for the naira sign;
      [TransfersList];
      [Sidebar]; [Navbar].
    - [AdminPages]: what the admin dashboard and the transactions page
      render (stat cards, empty state, the keyed grid of item cards,
      [Loading...]) and the [TransferCard].
    - [Scenarios]: the scenarios of the specification evaluated on
      [Backend], and the concrete
      instances (witnesses) of the theorems with hypotheses.

    ** Theorems
    - Balance: [System.inv_reachable], [available <= total] in every
      reachable state; [Ledger]'s calculator theorems.
    - Handlers: for each handler of the hook, its effect on every balance,
      on the transfers and on the notifications, its error paths
      ([InvalidAmount], [NotFound], [AlreadyReversed], [FetchFailed],
      insufficient balance, unknown transfer ids, each leaving the state
      unchanged) and the round trip pending-then-reverse.
    - Refinement: [Api.getAllBalances_lookup] (the client computes the
      server-derived balances), [Pages.card_action_refines] (a card's
      buttons take lifecycle steps), [ApiTests.testCompleteWorkflow_posts].
    - Defects, stated as theorems: a reload forgets transfer holds
      ([Store.loadData_derived]); transfers are settled without a
      status check ([Store.reverseTransfer_twice_refunds_twice],
      [Store.postTransfer_after_reverse]); a self transfer mints money;
      ids made from [Date.now()] collide
      ([Store.same_ms_transfers_share_id]); an offline load followed by a
      credit wipes the stored transfers; the admin page reports success
      for an unknown transfer; the create form only lets 1, 101, 201, ...
      through, because HTML counts the steps of [step="100"] from
      [min="1"] ([Create.create_form_submits]); the transfer form checks
      the number an amount in exponent notation denotes but sends its
      [parseInt] (["1e3"] is checked as 1000 and sends 1,
      [TransferPage.transfer_page_amount]), while the page itself never
      offers the sender as a recipient ([TransferPage.shown_recipients]);
      the admin dashboard's
      Pending card ignores pending transfers
      ([AdminPages.admin_pending_counts]); after a deposit the dual card
      counts the total again from 0 under an unchanged available amount
      ([Cards.DualBalanceCardFacts.deposit_recount]); the balance card
      prints [â‚¦] for [₦] ([Cards.BalanceCardFacts.balance_card_settles]).
    - Timestamps: [Stamps.stamps_reachable], the form of every stored
      transfer in every reachable state, resting on the round trip of the
      ISO strings the hook writes ([Date.iso_roundtrip]).
    - Liveness: [System.credit_settles], every credit not yet reversed
      can be posted or reversed from every state, the network down
      included.
    - Pages: the order of the admin list (sorted newest first, stable,
      by the parsed timestamps), its counters, the guards of the transfer
      form, the dual balance card (after any renders, 63 ticks bring it
      to rest on its props, [card_settles]; from a fresh mount it never
      shows more available than total, [fresh_card_order]), the
      receiver's dashboard over the life of a deposit
      ([Dashboard.deposit_lifecycle_view]) and the notification panel
      ([Dashboard.panel_shows_latest]).

    ** Modelling choices
    Amounts are integers ([Z]): the transfer page parses them with
    [parseInt], and the model takes credits to be integers too.
    JavaScript numbers are exact on integers below 2^53 and do not wrap
    around, so unbounded integers model them for the balances of a
    ledger. Timestamps are the strings the code stores, printed by
    [toISOString] from the clock reading [now + elapsed] (epoch
    milliseconds; ids use the earlier reading [now]) and read by
    [date_parse], which takes local time as UTC (the browser's time zone
    is not modelled). The round trip is proved for the years 0 to 9999,
    the four-digit form, which is where any clock reading of a browser
    lies. Values
    written to [localStorage] are kept typed (the [JSON] round trip of
    these plain records is the identity). The network is a boolean of the
    remote: a fetch that fails throws [FetchFailed]. The animations run in
    exact rationals; 63 ticks suffice for every amount
    ([Animation.counter_terminates], [Cards.DualBalanceCardFacts.card_settles])
    since [63 * 16 / 1000 >= 1]: after [n] ticks a counter of [e] has
    reached [16 * n * e / 1000]. A [Tick] of the dual card fires both
    intervals; the phase between two intervals started at different
    renders is not modelled. Browser-side number inputs follow the HTML
    standard ([Html]).
    [parseInt] follows the ECMAScript algorithm with ASCII white space.
    [Array.prototype.sort] is stable, as ECMAScript 2019 requires.

    ** Not modelled
    The transaction card component, imported by two pages but absent
    from the sources (a page's grid records the transaction it hands to
    it); the footer and the root layout, static markup that computes
    nothing; icons, colours of the stat cards and framer-motion
    props; the dates of [toLocaleDateString] and [toLocaleTimeString],
    which depend on the browser's locale (a row keeps the timestamp). On the create page, a call of
    [createTransaction] with an amount that is not an integer would leave
    the integer model; it is kept as an outcome of its own and proved
    unreachable through the form. Floating-point rounding (the animation,
    [Number]) is not modelled: values are exact rationals. React's scheduling is reduced to one
    handler at a time, as the specification's UI does. *)

From Stdlib Require Import ZArith Lia Permutation.
From stdpp Require Export base list gmap strings pretty.

Declare Scope shadow_scope.
Delimit Scope shadow_scope with shadow.
Open Scope shadow_scope.

(** ** JavaScript idioms *)

(** [o ||| d] is the JavaScript [o || d] on a value that is either
    [undefined] or an object (objects and arrays are always truthy). *)
Notation "o ||| d" := (default d o) (at level 50, left associativity) : shadow_scope.

(** [Array.prototype.find]: the first element satisfying the predicate. *)
Fixpoint js_find {A} (p : A -> bool) (l : list A) : option A :=
  match l with
  | [] => None
  | x :: l' => if p x then Some x else js_find p l'
  end.

(** [arr.map(t => p t ? f t : t)]: every element satisfying [p] replaced. *)
Definition map_where {A} (p : A -> bool) (f : A -> A) (l : list A) : list A :=
  map (fun x => if p x then f x else x) l.

(** Sum of a [Z]-valued function over a list ([reduce((s, x) => s + f x, 0)]). *)
Fixpoint sumZ {A} (f : A -> Z) (l : list A) : Z :=
  match l with
  | [] => 0%Z
  | x :: l' => (f x + sumZ f l')%Z
  end.

(** ** A state and exception monad

    The hook's handlers read and write React state, [localStorage] and the
    remote server, and may throw. [ST S E A] threads the state [S] and ends
    either with an exception [inl e] or a value [inr a]; a throw keeps the
    writes made before it, as JavaScript does. *)
Definition ST (S E A : Type) : Type := S -> (E + A) * S.

Definition st_ret {S E A} (a : A) : ST S E A := fun s => (inr a, s).
Definition st_bind {S E A B} (m : ST S E A) (k : A -> ST S E B) : ST S E B :=
  fun s => match m s with
           | (inr a, s') => k a s'
           | (inl e, s') => (inl e, s')
           end.
Definition st_throw {S E A} (e : E) : ST S E A := fun s => (inl e, s).
Definition st_get {S E} : ST S E S := fun s => (inr s, s).
Definition st_put {S E} (s : S) : ST S E unit := fun _ => (inr tt, s).
Definition st_modify {S E} (f : S -> S) : ST S E unit := fun s => (inr tt, f s).
(** [try { m } catch (e) { h e }] *)
Definition st_catch {S E A} (m : ST S E A) (h : E -> ST S E A) : ST S E A :=
  fun s => match m s with
           | (inl e, s') => h e s'
           | r => r
           end.

Notation "'do' x <- c ; k" := (st_bind c (fun x => k))
  (at level 60, x name, c at next level, right associativity) : shadow_scope.

(** ** Hint databases *)
Create HintDb shadow discriminated.
Create Rewrite HintDb shadow_rw.

(** ** Monad laws *)
Section MonadLaws.
Context {S E : Type}.

Lemma st_bind_ret_l {A B} (a : A) (k : A -> ST S E B) s :
  st_bind (st_ret a) k s = k a s.
Proof. reflexivity. Qed.

Lemma st_bind_ret_r {A} (m : ST S E A) s : st_bind m st_ret s = m s.
Proof. unfold st_bind, st_ret. by destruct (m s) as [[] ?]. Qed.

Lemma st_bind_assoc {A B C} (m : ST S E A) (k : A -> ST S E B) (k' : B -> ST S E C) s :
  st_bind (st_bind m k) k' s = st_bind m (fun a => st_bind (k a) k') s.
Proof. unfold st_bind. by destruct (m s) as [[] ?]. Qed.

Lemma st_bind_throw {A B} (e : E) (k : A -> ST S E B) s :
  st_bind (st_throw e) k s = (inl e, s).
Proof. reflexivity. Qed.

(** An action run through [st_bind] with a result [inr a] continues with [k a]. *)
Lemma st_bind_inr {A B} (m : ST S E A) (k : A -> ST S E B) s a s' :
  m s = (inr a, s') -> st_bind m k s = k a s'.
Proof. unfold st_bind. by intros ->. Qed.

Lemma st_bind_inl {A B} (m : ST S E A) (k : A -> ST S E B) s e s' :
  m s = (inl e, s') -> st_bind m k s = (inl e, s').
Proof. unfold st_bind. by intros ->. Qed.
End MonadLaws.

#[export] Hint Rewrite @st_bind_ret_l @st_bind_assoc @st_bind_throw : shadow_rw.

(** ** Lists *)
Section Lists.
Local Open Scope Z_scope.
Context {A : Type}.

Lemma sumZ_app (f : A -> Z) l1 l2 : sumZ f (l1 ++ l2) = (sumZ f l1 + sumZ f l2)%Z.
Proof. induction l1; simpl; lia. Qed.

Lemma sumZ_ext (f g : A -> Z) l : (forall x, x ∈ l -> f x = g x) -> sumZ f l = sumZ g l.
Proof.
  induction l as [|x l IH]; intros Hfg; simpl; [done|].
  rewrite Hfg by set_solver. rewrite IH; [done|]. intros; apply Hfg; set_solver.
Qed.

Lemma sumZ_nonneg (f : A -> Z) l : (forall x, x ∈ l -> 0 <= f x)%Z -> (0 <= sumZ f l)%Z.
Proof.
  induction l as [|x l IH]; intros Hf; simpl; [lia|].
  assert (Hx : 0 <= f x) by (apply Hf; set_solver).
  assert (Hl : 0 <= sumZ f l) by (apply IH; intros; apply Hf; set_solver). lia.
Qed.

Lemma sumZ_le (f g : A -> Z) l :
  (forall x, x ∈ l -> f x <= g x)%Z -> (sumZ f l <= sumZ g l)%Z.
Proof.
  induction l as [|x l IH]; intros Hf; simpl; [lia|].
  assert (Hx : f x <= g x) by (apply Hf; set_solver).
  assert (Hl : sumZ f l <= sumZ g l) by (apply IH; intros; apply Hf; set_solver). lia.
Qed.

#[export] Instance sumZ_perm (f : A -> Z) : Proper (Permutation ==> eq) (sumZ f).
Proof. intros l1 l2 Hp. induction Hp; simpl; lia. Qed.

Lemma js_find_Some (p : A -> bool) l x : js_find p l = Some x -> x ∈ l /\ p x = true.
Proof.
  induction l as [|y l IH]; simpl; [done|].
  destruct (p y) eqn:Hp; [intros [= <-]; split; [set_solver|done]|].
  intros H. destruct (IH H). split; [set_solver|done].
Qed.

Lemma js_find_None (p : A -> bool) l : js_find p l = None -> forall x, x ∈ l -> p x = false.
Proof.
  induction l as [|y l IH]; simpl; [set_solver|].
  destruct (p y) eqn:Hp; [done|]. intros H x Hx%elem_of_cons.
  destruct Hx as [->|Hx]; auto.
Qed.

Lemma js_find_app_last (p : A -> bool) l x :
  (forall y, y ∈ l -> p y = false) -> p x = true -> js_find p (l ++ [x]) = Some x.
Proof.
  induction l as [|y l IH]; intros Hl Hx; simpl; [by rewrite Hx|].
  rewrite (Hl y) by set_solver. apply IH; [intros; apply Hl; set_solver|done].
Qed.

Lemma js_find_app_l (p : A -> bool) l1 l2 x :
  js_find p l1 = Some x -> js_find p (l1 ++ l2) = Some x.
Proof. induction l1 as [|y l1 IH]; simpl; [done|]. by destruct (p y). Qed.

(** Updating the matches in place does not move the first match, when the
    update keeps the predicate. *)
Lemma js_find_map_where (p : A -> bool) f l :
  (forall x, p (f x) = p x) -> js_find p (map_where p f l) = f <$> js_find p l.
Proof.
  intros Hf. induction l as [|x l IH]; simpl; [done|].
  destruct (p x) eqn:Hx; simpl; [by rewrite Hf, Hx|by rewrite Hx].
Qed.

(** The first match splits the list. *)
Lemma js_find_split (p : A -> bool) l x :
  js_find p l = Some x ->
  exists l1 l2, l = l1 ++ x :: l2 /\ (forall y, y ∈ l1 -> p y = false) /\ p x = true.
Proof.
  induction l as [|y l IH]; simpl; [done|]. destruct (p y) eqn:Hy.
  - intros [= <-]. exists [], l. split_and!; [done|set_solver|done].
  - intros (l1 & l2 & -> & H1 & Hx)%IH. exists (y :: l1), l2.
    split_and!; [done| |done]. intros z [->|Hz]%elem_of_cons; auto.
Qed.

Lemma map_where_app (p : A -> bool) f l1 l2 :
  map_where p f (l1 ++ l2) = map_where p f l1 ++ map_where p f l2.
Proof. apply map_app. Qed.

Lemma filter_nil_forall (P : A -> Prop) `{!forall x, Decision (P x)} (l : list A) :
  (forall x, x ∈ l -> ~ P x) -> filter P l = [].
Proof.
  induction l as [|x l IH]; intros Hl; [done|]. rewrite filter_cons_False by (apply Hl; set_solver).
  apply IH. intros; apply Hl; set_solver.
Qed.

Lemma filter_nil_iff (P : A -> Prop) `{!forall x, Decision (P x)} (l : list A) :
  filter P l = [] <-> Forall (fun x => ~ P x) l.
Proof.
  induction l as [|x l IH]; [done|]. rewrite filter_cons, Forall_cons, <- IH.
  case_decide; naive_solver.
Qed.

Lemma length_map_where (p : A -> bool) f l : length (map_where p f l) = length l.
Proof. apply length_map. Qed.

Lemma map_where_id (p : A -> bool) f l :
  (forall x, x ∈ l -> p x = false) -> map_where p f l = l.
Proof.
  induction l as [|x l IH]; intros H; simpl; [done|].
  rewrite (H x ltac:(set_solver)), IH; [done|]. intros; apply H; set_solver.
Qed.

(** A property every element has and the update keeps holds after [map_where]. *)
Lemma Forall_map_where (P : A -> Prop) (p : A -> bool) f l :
  (forall x, P x -> P (f x)) -> Forall P l -> Forall P (map_where p f l).
Proof.
  intros Hf Hl. unfold map_where. apply Forall_fmap. apply (Forall_impl _ _ _ Hl).
  intros x Hx. simpl. by destruct (p x); [apply Hf|].
Qed.
End Lists.

#[export] Hint Rewrite @sumZ_app : shadow_rw.
#[export] Hint Resolve sumZ_nonneg sumZ_le : shadow.
