(* ===== verification/Date.v ===== *)
(** * Time values and their ISO strings

    The hook stamps every transfer with [new Date().toISOString()], the
    server stamps credits the same way, and the pages order items by
    [new Date(ts).getTime()]. This file models the two built-ins of
    ECMAScript involved, from the language specification (they are not
    code of the repository):
    - [toISOString t], for a time value [t] in milliseconds since the
      epoch: the format [YYYY-MM-DDTHH:mm:ss.sssZ], with the expanded year
      [+YYYYYY]/[-YYYYYY] outside years 0 to 9999. JavaScript throws a
      [RangeError] past 8.64e15 ms; the clocks of the model stay below;
    - [date_parse s], what [new Date(s).getTime()] returns for a string:
      the Date Time String Format of the specification ([YYYY],
      [YYYY-MM], [YYYY-MM-DD], then optionally [THH:mm], [:ss], [.sss], and
      [Z] or an offset [+HH:mm]); [None] is [NaN]. Strings outside that
      format are [NaN] here, where engines may fall back to their own
      formats; a date-time without offset is local time, taken as UTC.
    The calendar is the proleptic Gregorian one, computed by eras of 400
    years (146097 days). The facts about one era are checked by
    evaluation over its 146097 days; the theorems lift them to every day
    and prove that parsing the printed string gives the time value back. *)

From S2P Require Import Prelude.
From Stdlib Require Import Ascii.
From Stdlib Require String.

Local Open Scope Z_scope.

Definition msPerDay : Z := 86400000.

(** The largest time value a [Date] holds, in absolute value. *)
Definition maxTime : Z := 8640000000000000.

Definition is_leap (y : Z) : bool :=
  ((y mod 4 =? 0) && negb (y mod 100 =? 0)) || (y mod 400 =? 0).

Definition days_in_month (y m : Z) : Z :=
  if m =? 2 then (if is_leap y then 29 else 28)
  else if (m =? 4) || (m =? 6) || (m =? 9) || (m =? 11) then 30 else 31.

(** ** Days and dates

    Within an era, days are counted from 1 March of its first year
    ([doe], day of era), months from March ([mp = 0]) to February
    ([mp = 11]), years from the era's first ([yoe], year of era). *)

(** Month of the year (1 to 12) of the month [mp] counted from March. *)
Definition month_of (mp : Z) : Z := if mp <? 10 then mp + 3 else mp - 9.

(** The year of era, March-based month and day of month of a day of era. *)
Definition civil_of_doe (doe : Z) : Z * Z * Z :=
  let yoe := (doe - doe / 1460 + doe / 36524 - doe / 146096) / 365 in
  let doy := doe - (365 * yoe + yoe / 4 - yoe / 100) in
  let mp := (5 * doy + 2) / 153 in
  (yoe, mp, doy - (153 * mp + 2) / 5 + 1).

(** The day of era of a year of era, March-based month and day. *)
Definition doe_of_civil (yoe mp d : Z) : Z :=
  yoe * 365 + yoe / 4 - yoe / 100 + (153 * mp + 2) / 5 + d - 1.

(** [(year, month, day)] of a day counted from 1 January 1970. *)
Definition civil_from_days (z : Z) : Z * Z * Z :=
  let z := z + 719468 in
  let era := z / 146097 in
  let '(yoe, mp, d) := civil_of_doe (z - era * 146097) in
  (era * 400 + yoe + (if 10 <=? mp then 1 else 0), month_of mp, d).

(** The day, counted from 1 January 1970, of a date; [MakeDay] of the
    specification for a valid date. *)
Definition days_from_civil (y m d : Z) : Z :=
  let y' := if m <=? 2 then y - 1 else y in
  let era := y' / 400 in
  let mp := if 2 <? m then m - 3 else m + 9 in
  era * 146097 + doe_of_civil (y' - era * 400) mp d - 719468.

(** ** Digits *)

(** The character of a decimal digit. *)
Definition digit (v : Z) : ascii := ascii_of_N (48 + Z.to_N v).

(** The value of a decimal digit character. *)
Definition dec_digit (c : ascii) : option Z :=
  let n := Z.of_N (N_of_ascii c) in
  if (48 <=? n) && (n <=? 57) then Some (n - 48) else None.

(** The last [k] decimal digits of [n], zero-padded, most significant first. *)
Fixpoint pad (k : nat) (n : Z) : list ascii :=
  match k with
  | O => []
  | S k' => digit (n / 10 ^ Z.of_nat k' mod 10) :: pad k' n
  end.

(** Exactly [k] decimal digits, appended to the value [acc]. *)
Fixpoint read_digits (k : nat) (cs : list ascii) (acc : Z) : option (Z * list ascii) :=
  match k with
  | O => Some (acc, cs)
  | S k' =>
      match cs with
      | c :: cs' => v ← dec_digit c; read_digits k' cs' (acc * 10 + v)
      | [] => None
      end
  end.

(** ** [Date.prototype.toISOString] *)

(** The year: four digits, or a sign and six digits outside 0 to 9999. *)
Definition iso_year (y : Z) : list ascii :=
  if (0 <=? y) && (y <=? 9999) then pad 4 y
  else (if y <? 0 then "-"%char else "+"%char) :: pad 6 (Z.abs y).

Definition iso_chars (t : Z) : list ascii :=
  let '(y, m, d) := civil_from_days (t / msPerDay) in
  let ms := t mod msPerDay in
  iso_year y ++ "-"%char :: pad 2 m ++ "-"%char :: pad 2 d ++
  "T"%char :: pad 2 (ms / 3600000) ++ ":"%char :: pad 2 (ms / 60000 mod 60) ++
  ":"%char :: pad 2 (ms / 1000 mod 60) ++ "."%char :: pad 3 (ms mod 1000) ++ ["Z"%char].

Definition toISOString (t : Z) : string := String.string_of_list_ascii (iso_chars t).

(** ** [Date.parse] on the Date Time String Format *)

Definition expect (c : ascii) (cs : list ascii) : option (list ascii) :=
  match cs with
  | c' :: r => if ascii_dec c c' then Some r else None
  | [] => None
  end.

(** [YYYY], [+YYYYYY] or [-YYYYYY] ([-000000] is refused). *)
Definition parse_year (cs : list ascii) : option (Z * list ascii) :=
  match cs with
  | c :: r =>
      if ascii_dec c "+" then read_digits 6 r 0
      else if ascii_dec c "-" then
        '(y, r') ← read_digits 6 r 0; if y =? 0 then None else Some (- y, r')
      else read_digits 4 cs 0
  | [] => None
  end.

(** An optional [-MM] or [-DD]: its value, or [dflt] when absent. *)
Definition parse_part (cs : list ascii) (dflt : Z) : option (Z * list ascii * bool) :=
  match cs with
  | c :: r =>
      if ascii_dec c "-" then '(v, r') ← read_digits 2 r 0; Some (v, r', true)
      else Some (dflt, cs, false)
  | [] => Some (dflt, [], false)
  end.

(** [HH:mm], then optionally [:ss], then optionally [.sss]. *)
Definition parse_time (cs : list ascii) : option (Z * Z * Z * Z * list ascii) :=
  '(hh, cs) ← read_digits 2 cs 0;
  cs ← expect ":" cs;
  '(mi, cs) ← read_digits 2 cs 0;
  match cs with
  | c :: r =>
      if ascii_dec c ":" then
        '(ss, cs) ← read_digits 2 r 0;
        match cs with
        | c' :: r' =>
            if ascii_dec c' "." then '(ms, cs) ← read_digits 3 r' 0; Some (hh, mi, ss, ms, cs)
            else Some (hh, mi, ss, 0, cs)
        | [] => Some (hh, mi, ss, 0, [])
        end
      else Some (hh, mi, 0, 0, cs)
  | [] => Some (hh, mi, 0, 0, [])
  end.

(** The rest of the string after the time: [Z], an offset [+HH:mm] or
    [-HH:mm] (in milliseconds, to subtract), or nothing (local time, UTC
    in the model). *)
Definition parse_offset (cs : list ascii) : option Z :=
  match cs with
  | [] => Some 0
  | c :: r =>
      if ascii_dec c "Z" then (if decide (r = []) then Some 0 else None)
      else if bool_decide (c = "+"%char) || bool_decide (c = "-"%char) then
        '(oh, r) ← read_digits 2 r 0;
        r ← expect ":" r;
        '(om, r) ← read_digits 2 r 0;
        if bool_decide (r = []) && (oh <=? 23) && (om <=? 59) then
          Some ((if ascii_dec c "+" then 1 else -1) * (oh * 3600000 + om * 60000))
        else None
      else None
  end.

(** The time of day and offset after the date: nothing, or [T] and a time. *)
Definition parse_clock (cs : list ascii) : option (Z * Z * Z * Z * Z) :=
  match cs with
  | [] => Some (0, 0, 0, 0, 0)
  | c :: r =>
      if ascii_dec c "T" then
        '(hh, mi, ss, ms, r) ← parse_time r; off ← parse_offset r; Some (hh, mi, ss, ms, off)
      else None
  end.

(** The fields are in range: month, day of that month, [24:00] only on the
    hour. *)
Definition valid_fields (y mo d hh mi ss ms : Z) : bool :=
  (1 <=? mo) && (mo <=? 12) && (1 <=? d) && (d <=? days_in_month y mo) &&
  (hh <=? 24) && (mi <=? 59) && (ss <=? 59) &&
  (negb (hh =? 24) || ((mi =? 0) && (ss =? 0) && (ms =? 0))).

(** [new Date(s).getTime()]: [None] for [NaN]. *)
Definition date_parse (s : string) : option Z :=
  match parse_year (String.list_ascii_of_string s) with
  | None => None
  | Some (y, cs) =>
      match parse_part cs 1 with
      | None => None
      | Some (mo, cs, has_month) =>
          match (if has_month then parse_part cs 1 else Some (1, cs, false)) with
          | None => None
          | Some (d, cs, _) =>
              match parse_clock cs with
              | None => None
              | Some (hh, mi, ss, ms, off) =>
                  if valid_fields y mo d hh mi ss ms then
                    let tv := days_from_civil y mo d * msPerDay + hh * 3600000 + mi * 60000 +
                              ss * 1000 + ms - off in
                    if Z.abs tv <=? maxTime then Some tv else None
                  else None
              end
          end
      end
  end.

(** ** The calendar: every day has one valid date *)

Lemma yoe_bounds doe : 0 <= doe < 146097 ->
  0 <= (doe - doe / 1460 + doe / 36524 - doe / 146096) / 365 <= 399 /\
  365 * ((doe - doe / 1460 + doe / 36524 - doe / 146096) / 365) +
    (doe - doe / 1460 + doe / 36524 - doe / 146096) / 365 / 4 -
    (doe - doe / 1460 + doe / 36524 - doe / 146096) / 365 / 100 <= doe.
Proof. intros H. Z.div_mod_to_equations. lia. Qed.

(** The length of the March-based year [yoe] of an era: its February is
    in the calendar year [yoe + 1], a leap year in the Gregorian rule. *)
Lemma year_length yoe : 0 <= yoe <= 399 ->
  365 * (yoe + 1) + (yoe + 1) / 4 - (yoe + 1) / 100 + (if yoe =? 399 then 1 else 0) -
    (365 * yoe + yoe / 4 - yoe / 100) =
  337 + (if is_leap (yoe + 1) then 29 else 28).
Proof.
  intros H. unfold is_leap.
  destruct (Z.eqb_spec yoe 399), (Z.eqb_spec ((yoe + 1) mod 4) 0),
    (Z.eqb_spec ((yoe + 1) mod 100) 0), (Z.eqb_spec ((yoe + 1) mod 400) 0);
    simpl; Z.div_mod_to_equations; lia.
Qed.

Lemma doe_below_next_year doe : 0 <= doe < 146097 ->
  doe < 365 * ((doe - doe / 1460 + doe / 36524 - doe / 146096) / 365 + 1) +
    ((doe - doe / 1460 + doe / 36524 - doe / 146096) / 365 + 1) / 4 -
    ((doe - doe / 1460 + doe / 36524 - doe / 146096) / 365 + 1) / 100 +
    (if (doe - doe / 1460 + doe / 36524 - doe / 146096) / 365 =? 399 then 1 else 0).
Proof.
  intros H. destruct (Z.eqb_spec ((doe - doe / 1460 + doe / 36524 - doe / 146096) / 365) 399);
    Z.div_mod_to_equations; lia.
Qed.

Lemma month_bounds doy :
  0 <= doy <= 365 ->
  0 <= (5 * doy + 2) / 153 <= 11 /\ (153 * ((5 * doy + 2) / 153) + 2) / 5 <= doy /\
  doy < (153 * ((5 * doy + 2) / 153 + 1) + 2) / 5.
Proof. intros H. Z.div_mod_to_equations. lia. Qed.

(** The date of a day of era is valid and gives the day back. *)
Lemma civil_of_doe_spec doe : 0 <= doe < 146097 ->
  let '(yoe, mp, d) := civil_of_doe doe in
  0 <= yoe <= 399 /\ 0 <= mp <= 11 /\ 1 <= d /\
  d <= days_in_month (yoe + (if 10 <=? mp then 1 else 0)) (month_of mp) /\
  doe_of_civil yoe mp d = doe.
Proof.
  intros H. unfold civil_of_doe.
  pose proof (yoe_bounds doe H) as [Hy Hlo]. pose proof (doe_below_next_year doe H) as Hhi.
  set (yoe := (doe - doe / 1460 + doe / 36524 - doe / 146096) / 365) in *.
  pose proof (year_length yoe Hy) as Hlen.
  set (doy := doe - (365 * yoe + yoe / 4 - yoe / 100)).
  destruct (month_bounds doy) as (Hmp & Hm1 & Hm2).
  { destruct (is_leap (yoe + 1)); unfold doy; lia. }
  set (mp := (5 * doy + 2) / 153) in *.
  refine (conj _ (conj _ (conj _ (conj _ _)))); [lia|lia|lia| |unfold doe_of_civil, doy; lia].
  assert (mp = 0 \/ mp = 1 \/ mp = 2 \/ mp = 3 \/ mp = 4 \/ mp = 5 \/ mp = 6 \/ mp = 7 \/
          mp = 8 \/ mp = 9 \/ mp = 10 \/ mp = 11) as Hcase by lia.
  assert (Hdoy : doy = doe - (365 * yoe + yoe / 4 - yoe / 100)) by reflexivity.
  clearbody mp doy yoe.
  destruct Hcase as [E|[E|[E|[E|[E|[E|[E|[E|[E|[E|[E|E]]]]]]]]]]]; subst mp;
    unfold days_in_month, month_of in *; simpl in *; try (Z.div_mod_to_equations; lia).
Qed.

Lemma is_leap_era era y : is_leap (era * 400 + y) = is_leap y.
Proof.
  unfold is_leap.
  replace (era * 400 + y) with (y + (era * 100) * 4) by lia. rewrite Z.mod_add by lia.
  replace (y + (era * 100) * 4) with (y + (era * 4) * 100) by lia. rewrite Z.mod_add by lia.
  replace (y + (era * 4) * 100) with (y + era * 400) by lia. by rewrite Z.mod_add by lia.
Qed.

(** Every day has a valid date, and it is the day of that date. *)
Lemma civil_from_days_spec z :
  let '(y, m, d) := civil_from_days z in
  1 <= m <= 12 /\ 1 <= d <= days_in_month y m /\ days_from_civil y m d = z.
Proof.
  unfold civil_from_days.
  set (era := (z + 719468) / 146097).
  assert (Hdoe : 0 <= z + 719468 - era * 146097 < 146097) by (unfold era; Z.div_mod_to_equations; lia).
  pose proof (civil_of_doe_spec _ Hdoe) as Hc.
  destruct (civil_of_doe _) as [[yoe mp] d]. destruct Hc as (Hy & Hmp & Hd1 & Hd2 & Hdoe').
  clearbody era.
  assert (Hleap : days_in_month (era * 400 + yoe + (if 10 <=? mp then 1 else 0)) (month_of mp) =
                  days_in_month (yoe + (if 10 <=? mp then 1 else 0)) (month_of mp)).
  { unfold days_in_month. rewrite <- Z.add_assoc, is_leap_era. done. }
  rewrite Hleap. unfold days_from_civil, month_of in *.
  destruct (Z.ltb_spec mp 10), (Z.leb_spec 10 mp); try lia;
    [rewrite (proj2 (Z.leb_gt _ _)), (proj2 (Z.ltb_lt _ _)) by lia
    |rewrite (proj2 (Z.leb_le _ _)), (proj2 (Z.ltb_ge _ _)) by lia];
    (split; [lia|split; [lia|]]);
    [replace (era * 400 + yoe + 0) with (yoe + era * 400) by lia
    |replace (era * 400 + yoe + 1 - 1) with (yoe + era * 400) by lia];
    rewrite Z.div_add, (Z.div_small yoe 400) by lia;
    [replace (mp + 3 - 3) with mp by lia|replace (mp - 9 + 9) with mp by lia];
    replace (yoe + era * 400 - (0 + era) * 400) with yoe by lia; lia.
Qed.

(** The days of years 0 to 9999, the years of the four-digit format. *)
Definition four_digit_days (z : Z) : Prop := -719528 <= z <= 2932896.

Lemma days_from_civil_year y m d :
  1 <= m <= 12 -> 1 <= d <= 31 -> four_digit_days (days_from_civil y m d) -> 0 <= y <= 9999.
Proof.
  unfold four_digit_days, days_from_civil, doe_of_civil. intros Hm Hd.
  destruct (Z.leb_spec m 2), (Z.ltb_spec 2 m); try lia; Z.div_mod_to_equations; lia.
Qed.

Lemma days_in_month_bounds y m : 28 <= days_in_month y m <= 31.
Proof.
  unfold days_in_month. destruct (m =? 2); [destruct (is_leap y); lia|].
  destruct (_ || _); lia.
Qed.

(** ** Printing then parsing gives the time value back *)

Lemma dec_digit_digit v : 0 <= v < 10 -> dec_digit (digit v) = Some v.
Proof.
  intros Hv.
  assert (v = 0 \/ v = 1 \/ v = 2 \/ v = 3 \/ v = 4 \/ v = 5 \/ v = 6 \/ v = 7 \/ v = 8 \/ v = 9)
    as Hc by lia.
  by repeat destruct Hc as [->|Hc]; [..|subst v].
Qed.

Lemma digit_not_sign v : 0 <= v < 10 -> digit v <> "+"%char /\ digit v <> "-"%char.
Proof.
  intros Hv. pose proof (dec_digit_digit v Hv) as Hd.
  split; intros He; rewrite He in Hd; discriminate.
Qed.

Lemma mod_pow_succ n p : 0 <= n -> 0 < p -> n mod (p * 10) = n / p mod 10 * p + n mod p.
Proof.
  intros Hn Hp. rewrite <- !Z.rem_mod_nonneg by (try apply Z.div_pos; lia).
  rewrite Z.mod_mul_r by lia. rewrite Z.quot_div_nonneg by lia. lia.
Qed.

Lemma read_pad k n acc rest :
  0 <= n ->
  read_digits k (pad k n ++ rest) acc = Some (acc * 10 ^ Z.of_nat k + n mod 10 ^ Z.of_nat k, rest).
Proof.
  intros Hn. revert acc. induction k as [|k IH]; intros acc.
  - simpl. rewrite Z.mod_1_r. f_equal. f_equal. lia.
  - cbn [pad app read_digits].
    assert (Hp : 0 < 10 ^ Z.of_nat k) by (apply Z.pow_pos_nonneg; lia).
    rewrite dec_digit_digit by (apply Z.mod_pos_bound; lia). cbn [mbind option_bind].
    rewrite IH. f_equal. f_equal.
    rewrite Nat2Z.inj_succ, Z.pow_succ_r, (Z.mul_comm 10 (10 ^ _)), mod_pow_succ by lia.
    lia.
Qed.

Lemma read_pad_small k n rest :
  0 <= n < 10 ^ Z.of_nat k -> read_digits k (pad k n ++ rest) 0 = Some (n, rest).
Proof. intros Hn. rewrite read_pad by lia. rewrite Z.mod_small by lia. done. Qed.

Lemma parse_year_four y rest : 0 <= y <= 9999 -> parse_year (pad 4 y ++ rest) = Some (y, rest).
Proof.
  intros Hy. unfold parse_year.
  assert (Hd : 0 <= y / 10 ^ Z.of_nat 3 mod 10 < 10) by (apply Z.mod_pos_bound; lia).
  destruct (digit_not_sign _ Hd) as [Hp Hm]. cbn [pad app].
  destruct (ascii_dec _ "+"); [done|]. destruct (ascii_dec _ "-"); [done|].
  apply (read_pad_small 4). simpl. lia.
Qed.

Lemma parse_part_pad v rest dflt :
  0 <= v < 100 -> parse_part ("-"%char :: pad 2 v ++ rest) dflt = Some (v, rest, true).
Proof.
  intros Hv. unfold parse_part. destruct (ascii_dec "-" "-"); [|done].
  rewrite (read_pad_small 2) by (simpl; lia). done.
Qed.

Lemma parse_time_pad hh mi ss ms rest :
  0 <= hh < 100 -> 0 <= mi < 100 -> 0 <= ss < 100 -> 0 <= ms < 1000 ->
  parse_time (pad 2 hh ++ ":"%char :: pad 2 mi ++ ":"%char :: pad 2 ss ++ "."%char :: pad 3 ms ++ rest) =
    Some (hh, mi, ss, ms, rest).
Proof.
  intros Hh Hmi Hs Hms. unfold parse_time.
  rewrite (read_pad_small 2) by (simpl; lia). cbn [mbind option_bind expect].
  destruct (ascii_dec ":" ":"); [|done]. cbn [mbind option_bind].
  rewrite (read_pad_small 2) by (simpl; lia). cbn [mbind option_bind].
  destruct (ascii_dec ":" ":"); [|done]. rewrite (read_pad_small 2) by (simpl; lia).
  cbn [mbind option_bind]. destruct (ascii_dec "." "."); [|done].
  rewrite (read_pad_small 3) by (simpl; lia). done.
Qed.

(** The time of day, in milliseconds, from its printed fields. *)
Lemma time_of_day ms :
  0 <= ms < msPerDay ->
  ms / 3600000 * 3600000 + ms / 60000 mod 60 * 60000 + ms / 1000 mod 60 * 1000 + ms mod 1000 = ms.
Proof. unfold msPerDay. intros H. Z.div_mod_to_equations. lia. Qed.

(** Parsing the printed string of a time value of the years 0 to 9999
    gives it back. *)
Lemma iso_roundtrip t :
  four_digit_days (t / msPerDay) -> date_parse (toISOString t) = Some t.
Proof.
  intros Ht. unfold toISOString, date_parse, iso_chars.
  pose proof (civil_from_days_spec (t / msPerDay)) as Hc.
  destruct (civil_from_days (t / msPerDay)) as [[y m] d] eqn:Hcd.
  destruct Hc as (Hm & Hd & Hdays).
  pose proof (days_in_month_bounds y m).
  assert (Hy : 0 <= y <= 9999) by (apply (days_from_civil_year y m d); [lia|lia|by rewrite Hdays]).
  assert (Hms : 0 <= t mod msPerDay < msPerDay) by (apply Z.mod_pos_bound; unfold msPerDay; lia).
  rewrite String.list_ascii_of_string_of_list_ascii.
  unfold iso_year. rewrite (proj2 (Z.leb_le 0 y)), (proj2 (Z.leb_le y 9999)) by lia. cbn [andb].
  rewrite parse_year_four, parse_part_pad by lia. rewrite parse_part_pad by lia.
  unfold parse_clock. destruct (ascii_dec "T" "T"); [|done].
  assert (Hf : 0 <= t mod msPerDay / 3600000 < 24 /\ 0 <= t mod msPerDay / 60000 mod 60 < 60 /\
               0 <= t mod msPerDay / 1000 mod 60 < 60 /\ 0 <= t mod msPerDay mod 1000 < 1000)
    by (clear - Hms; unfold msPerDay in *; Z.div_mod_to_equations; lia).
  rewrite parse_time_pad by lia.
  assert (Hz : parse_offset ["Z"%char] = Some 0) by reflexivity.
  cbn [mbind option_bind]. rewrite Hz. cbn [mbind option_bind].
  unfold valid_fields.
  rewrite (proj2 (Z.leb_le 1 m)), (proj2 (Z.leb_le m 12)), (proj2 (Z.leb_le 1 d)),
    (proj2 (Z.leb_le d _)), (proj2 (Z.leb_le (_ / 3600000) 24)), (proj2 (Z.leb_le (_ mod 60) 59)),
    (proj2 (Z.leb_le (_ mod 60) 59)), (proj2 (Z.eqb_neq (_ / 3600000) 24)) by lia.
  simpl.
  set (ms := t mod msPerDay) in *.
  assert (Htv : days_from_civil y m d * msPerDay + ms / 3600000 * 3600000 + ms / 60000 mod 60 * 60000 +
                ms / 1000 mod 60 * 1000 + ms mod 1000 - 0 = t).
  { rewrite Hdays. pose proof (time_of_day ms Hms). pose proof (Z.div_mod t msPerDay). unfold ms in *.
    unfold msPerDay in *. lia. }
  rewrite Htv, (proj2 (Z.leb_le _ _)); [done|].
  unfold four_digit_days, msPerDay, maxTime in *. clear - Ht. Z.div_mod_to_equations. lia.
Qed.
