(* ===== verification/Html.v ===== *)
(** * Number inputs of HTML

    The pages' amount fields are [<input type="number">] elements. What
    the browser does with them is taken from the HTML standard (it is not
    code of the repository):
    - value sanitization keeps as the [value] only the empty string or a
      valid floating-point number: an optional [-], digits, an optional
      [.] followed by digits (at least one digit in all), an optional
      exponent [e]/[E] with an optional sign and digits;
    - the number of such a value is the one it denotes ([valid_float]),
      here an exact rational: the rounding to a double is not modelled;
    - constraint validation compares that number with the [min], [max]
      and [step] attributes; [integral] decides the step condition. *)

From Stdlib Require Import Ascii QArith.
From S2P Require Import Prelude Date.

Local Open Scope Z_scope.

(** The longest run of decimal digits: its value, its length, the rest. *)
Fixpoint read_run (cs : list ascii) (acc : Z) (n : nat) : Z * nat * list ascii :=
  match cs with
  | c :: cs' =>
      match dec_digit c with
      | Some v => read_run cs' (acc * 10 + v) (S n)
      | None => (acc, n, cs)
      end
  | [] => (acc, n, [])
  end.

(** [10 ^ k] as a rational, for any integer [k]. *)
Definition pow10 (k : Z) : Q :=
  if 0 <=? k then inject_Z (10 ^ k) else 1 # Z.to_pos (10 ^ (- k)).

(** The exponent part: [e] or [E], an optional sign, one or more digits,
    and nothing after them. *)
Definition read_exponent (cs : list ascii) : option Z :=
  match cs with
  | [] => Some 0
  | c :: r =>
      if bool_decide (c = "e"%char) || bool_decide (c = "E"%char) then
        let '(sign, r) :=
          match r with
          | "-"%char :: r' => (-1, r')
          | "+"%char :: r' => (1, r')
          | _ => (1, r)
          end in
        match read_run r 0 0 with
        | (x, S _, []) => Some (sign * x)
        | _ => None
        end
      else None
  end.

(** A valid floating-point number of the HTML standard and its value: an
    optional [-], digits, an optional [.] followed by digits (at least
    one digit in all), an optional exponent. *)
Definition valid_float (s : string) : option Q :=
  let cs := String.list_ascii_of_string s in
  let '(neg, cs) := match cs with "-"%char :: r => (true, r) | _ => (false, cs) end in
  match read_run cs 0 0 with
  | (ip, ni, cs) =>
      let frac :=
        match cs with
        | "."%char :: r =>
            match read_run r 0 0 with
            | (_, O, _) => None
            | (f, nf, r') => Some (f, nf, r')
            end
        | _ => Some (0, O, cs)
        end in
      match frac with
      | None => None
      | Some (f, nf, rest) =>
          if ((ni =? 0) && (nf =? 0))%nat then None else
          match read_exponent rest with
          | None => None
          | Some ex =>
              let m := ip * 10 ^ Z.of_nat nf + f in
              Some (inject_Z (if neg then - m else m) * pow10 (ex - Z.of_nat nf))%Q
          end
      end
  end.

(** The rational is an integer. *)
Definition integral (q : Q) : bool := Qnum q mod Zpos (Qden q) =? 0.

(** ** Lemmas *)

Lemma integral_spec q : integral q = true <-> exists k, (q == inject_Z k)%Q.
Proof.
  unfold integral, Qeq. rewrite Z.eqb_eq. simpl. split.
  - intros Hm. exists (Qnum q / Zpos (Qden q)).
    pose proof (Z.div_mod (Qnum q) (Zpos (Qden q)) ltac:(lia)). lia.
  - intros [k Hk]. rewrite Z.mul_1_r in Hk. rewrite Hk. apply Z.mod_mul. lia.
Qed.

Lemma integral_quot q n : (q == inject_Z n)%Q -> Qnum q / Zpos (Qden q) = n.
Proof.
  unfold Qeq. simpl. rewrite Z.mul_1_r. intros ->. apply Z.div_mul. lia.
Qed.


Lemma Qle_bool_inject_Z a b : Qle_bool (inject_Z a) (inject_Z b) = (a <=? b).
Proof. unfold Qle_bool. simpl. by rewrite !Z.mul_1_r. Qed.

Lemma pow10_nonneg k : 0 <= k -> pow10 k = inject_Z (10 ^ k).
Proof. intros Hk. unfold pow10. by rewrite (proj2 (Z.leb_le 0 k) Hk). Qed.
