(* ===== verification/Data.v ===== *)
(** * The data model shared by the hook and the API client

    [src/hooks/use-shadow-storage.ts] (lines 6 to 49) and [src/lib/api.ts]
    (lines 4 to 34) declare the same interfaces [Transaction], [Transfer]
    and [Balance]; [api.ts] adds [LedgerEntry], the row the server returns
    for an account's ledger. Each interface is a record with one field per
    property, in the source's order and under the source's names (in a
    module of its own where two interfaces share a property name).
    - A status, the string union ["pending" | "posted" | "reversed"], is
      an inductive type with one constructor per string.
    - An amount, a JavaScript [number], is an integer [Z]: the transfer
      page parses amounts with [parseInt] and the create page only
      submits integers (see [Create.v]), and JavaScript numbers are exact
      on the integers of a ledger.
    - A timestamp is the string the code stores, written by
      [toISOString] (see [Date.v]).
    - A [Record<string, T>] is a finite map [gmap string T]; a missing key
      is [None], which [o || d] replaces by the default [d]. *)

From S2P Require Import Prelude.

(** [status: "pending" | "posted" | "reversed"] *)
Inductive Status := pending | posted | reversed.

#[export] Instance Status_eq_dec : EqDecision Status.
Proof. solve_decision. Defined.

(** The string of a status, as the server's ledger rows carry it. *)
Definition status_to_string (s : Status) : string :=
  match s with
  | pending => "pending"
  | posted => "posted"
  | reversed => "reversed"
  end.

Module Transaction.
(** [interface Transaction { id: string; accountId: string; amount: number;
    status: "pending" | "posted" | "reversed"; timestamp: string }] *)
Record t := mk {
  id : string;
  accountId : string;
  amount : Z;
  status : Status;
  timestamp : string
}.

(** The same transaction with another status, the answer of the server's
    settlement routes. *)
Definition with_status (s : Status) (x : t) : t :=
  mk (id x) (accountId x) (amount x) s (timestamp x).
End Transaction.

Module Transfer.
(** [type: "TRANSFER"]: a literal type with one inhabitant. *)
Inductive kind := TRANSFER.

(** [interface Transfer { id: string; from: string; to: string;
    amount: number; type: "TRANSFER"; status: "pending" | "posted" |
    "reversed"; timestamp: string }] *)
Record t := mk {
  id : string;
  from : string;
  to : string;
  amount : Z;
  type : kind;
  status : Status;
  timestamp : string
}.

(** [{ ...t, status: s }] *)
Definition with_status (s : Status) (x : t) : t :=
  mk (id x) (from x) (to x) (amount x) (type x) s (timestamp x).
End Transfer.

(** [interface Balance { total: number; available: number }] *)
Record Balance := mkBalance { total : Z; available : Z }.

(** [{ total: 0, available: 0 }], the default of every balance lookup. *)
Definition zero_balance : Balance := mkBalance 0 0.

Module LedgerEntry.
(** [interface LedgerEntry { id: string; accountId: string; amount: number;
    type: string; status: string; timestamp: string }]: [type] and
    [status] are plain strings there, and the balance calculator compares
    them as strings. *)
Record t := mk {
  id : string;
  accountId : string;
  amount : Z;
  type : string;
  status : string;
  timestamp : string
}.
End LedgerEntry.

(** [interface ShadowData { transactions: Transaction[];
    balances: Record<string, Balance>; transfers: Transfer[];
    notifications: Record<string, string[]> }]: the hook's React state. *)
Record ShadowData := mkData {
  transactions : list Transaction.t;
  balances : gmap string Balance;
  transfers : list Transfer.t;
  notifications : gmap string (list string)
}.

(** [const INITIAL_DATA: ShadowData = { transactions: [], balances: {},
    transfers: [], notifications: { "acc-demo-1": [], "acc-demo-2": [] } }] *)
Definition INITIAL_DATA : ShadowData :=
  mkData [] empty [] (<["acc-demo-1" := []]> (<["acc-demo-2" := []]> empty)).

(** [data.balances[acc] || { total: 0, available: 0 }] *)
Definition balance_of (d : ShadowData) (acc : string) : Balance :=
  balances d !! acc ||| zero_balance.

(** [data.notifications[acc] || []] *)
Definition notes_of (d : ShadowData) (acc : string) : list string :=
  notifications d !! acc ||| [].

#[global] Arguments balance_of : simpl never.
#[global] Arguments notes_of : simpl never.
