(* ===== verification/Ledger.v ===== *)
(** * Balance Calculator: [calculateBalanceFromLedger] of [src/lib/api.ts]

    The function folds over an account's ledger rows: a ["posted"] row adds
    its amount to [total] and [available], a ["pending"] row to [total]
    only, any other status (["reversed"]) adds nothing. The file proves it
    equal to a declarative specification by sums, order independent
    (a [Proper] instance for [Permutation]), compositional over
    concatenation (replay of a log split in two), and that
    [available <= total] for non-negative amounts. *)

From S2P Require Import Prelude Data.

Local Open Scope Z_scope.

(** The body of [ledger.forEach((entry) => { ... })]. *)
Definition add_entry (b : Balance) (e : LedgerEntry.t) : Balance :=
  if String.eqb (LedgerEntry.status e) "posted" then
    mkBalance (total b + LedgerEntry.amount e) (available b + LedgerEntry.amount e)
  else if String.eqb (LedgerEntry.status e) "pending" then
    mkBalance (total b + LedgerEntry.amount e) (available b)
  else b.

(** [calculateBalanceFromLedger(ledger)]: [let total = 0; let available = 0]
    then the loop, then [{ total, available }]. *)
Definition calculateBalanceFromLedger (ledger : list LedgerEntry.t) : Balance :=
  foldl add_entry zero_balance ledger.

(** ** Declarative specification *)

(** What one row contributes to [total] and to [available]. *)
Definition entry_total (e : LedgerEntry.t) : Z :=
  if String.eqb (LedgerEntry.status e) "posted" || String.eqb (LedgerEntry.status e) "pending"
  then LedgerEntry.amount e else 0.

Definition entry_available (e : LedgerEntry.t) : Z :=
  if String.eqb (LedgerEntry.status e) "posted" then LedgerEntry.amount e else 0.

Definition entry_pending (e : LedgerEntry.t) : Z :=
  if String.eqb (LedgerEntry.status e) "pending" then LedgerEntry.amount e else 0.

Definition ledger_spec (l : list LedgerEntry.t) : Balance :=
  mkBalance (sumZ entry_total l) (sumZ entry_available l).

(** Pointwise sum of two balances. *)
Definition balance_add (a b : Balance) : Balance :=
  mkBalance (total a + total b) (available a + available b).

(** All amounts of a ledger are non-negative. *)
Definition amounts_nonneg (l : list LedgerEntry.t) : Prop :=
  forall e, e ∈ l -> 0 <= LedgerEntry.amount e.

(** ** Lemmas *)

Lemma add_entry_spec b e :
  add_entry b e = mkBalance (total b + entry_total e) (available b + entry_available e).
Proof.
  destruct b as [t a]. unfold add_entry, entry_total, entry_available; simpl.
  destruct (String.eqb _ "posted"), (String.eqb _ "pending"); simpl; f_equal; lia.
Qed.

Lemma foldl_add_entry b l :
  foldl add_entry b l = balance_add b (ledger_spec l).
Proof.
  revert b. induction l as [|e l IH]; intros [t a]; simpl.
  - unfold balance_add; simpl. f_equal; lia.
  - rewrite IH, add_entry_spec. unfold balance_add; simpl. f_equal; lia.
Qed.

Lemma entry_total_split e : entry_total e = entry_available e + entry_pending e.
Proof.
  unfold entry_total, entry_available, entry_pending.
  destruct (String.eqb _ "posted") eqn:Hpo, (String.eqb _ "pending") eqn:Hpe; simpl; try lia.
  apply String.eqb_eq in Hpo, Hpe. congruence.
Qed.

Lemma entry_available_le_total e :
  0 <= LedgerEntry.amount e -> entry_available e <= entry_total e.
Proof.
  unfold entry_total, entry_available.
  destruct (String.eqb _ "posted"), (String.eqb _ "pending"); simpl; lia.
Qed.

Lemma entry_available_nonneg e : 0 <= LedgerEntry.amount e -> 0 <= entry_available e.
Proof. unfold entry_available. destruct (String.eqb _ "posted"); lia. Qed.

#[export] Hint Resolve entry_available_le_total entry_available_nonneg : shadow.

(** The calculator as the declarative balance, for rewriting. *)
Lemma calc_ledger_spec l : calculateBalanceFromLedger l = ledger_spec l.
Proof.
  unfold calculateBalanceFromLedger. rewrite foldl_add_entry.
  destruct (ledger_spec l). unfold balance_add; simpl. f_equal; lia.
Qed.

(** ** Properties of the calculator *)

(** C3. The loop of [calculateBalanceFromLedger] computes the declarative
    balance: [total] is the sum of the posted and pending amounts,
    [available] the sum of the posted amounts. *)
Theorem calculateBalanceFromLedger_spec l :
  calculateBalanceFromLedger l = ledger_spec l.
Proof.
  unfold calculateBalanceFromLedger. rewrite foldl_add_entry.
  destruct (ledger_spec l). unfold balance_add; simpl. f_equal; lia.
Qed.

(** Replaying a ledger split in two gives the sum of the two replays. *)
Lemma calculateBalanceFromLedger_app l1 l2 :
  calculateBalanceFromLedger (l1 ++ l2) =
  balance_add (calculateBalanceFromLedger l1) (calculateBalanceFromLedger l2).
Proof.
  rewrite !calc_ledger_spec. unfold ledger_spec, balance_add; simpl.
  by rewrite !sumZ_app.
Qed.

(** The balance does not depend on the order the server returns rows in. *)
#[export] Instance calculateBalanceFromLedger_Proper :
  Proper (Permutation ==> eq) calculateBalanceFromLedger.
Proof.
  intros l1 l2 Hp. rewrite !calc_ledger_spec.
  unfold ledger_spec. by rewrite Hp.
Qed.

(** The part of [total] that is not [available] is the sum of the
    pending amounts: what the balance cards show as "pending confirmation". *)
Theorem calculateBalanceFromLedger_pending l :
  total (calculateBalanceFromLedger l) - available (calculateBalanceFromLedger l) =
  sumZ entry_pending l.
Proof.
  rewrite calc_ledger_spec. unfold ledger_spec; simpl.
  induction l as [|e l IH]; simpl; [done|]. rewrite entry_total_split. lia.
Qed.

(** Every ledger of non-negative amounts has [0 <= available <= total]. *)
Lemma calculateBalanceFromLedger_bounds l :
  amounts_nonneg l ->
  0 <= available (calculateBalanceFromLedger l) <= total (calculateBalanceFromLedger l).
Proof.
  intros Hl. rewrite calc_ledger_spec. unfold ledger_spec; simpl.
  split; auto with shadow.
Qed.
