(* ===== verification/Server.v ===== *)
(** * The ledger server behind [src/lib/api.ts]

    The client of [api.ts] talks to a remote backend through five routes:
    [POST /nip/credit], [POST /post/{id}], [POST /reverse/{id}],
    [GET /transactions] and [GET /ledger/{accountId}]. The backend is not
    part of this repository; its behaviour is taken from the specification
    (sections 4.2 and 6). This file holds
    - [LedgerServer], the interface of the five routes, and
      [LedgerServerSpec], the contract the client relies on;
    - [Backend], a model of the server from the specification, and the
      proof that it meets the contract;
    - the lifecycle of a credit ([pending -> posted -> reversed]) as a step
      relation on [Status], and the theorem that every route moves each
      stored transaction along it. *)

From S2P Require Import Prelude Date Data Ledger.

Local Open Scope Z_scope.

(** The error taxonomy of the specification (section 7). *)
Inductive ApiError := InvalidAmount | NotFound | AlreadyReversed.

#[export] Instance ApiError_eq_dec : EqDecision ApiError.
Proof. solve_decision. Defined.

(** The five routes. Each mutating route returns the response body
    ([inr]) or an error status ([inl]), and the new server state. *)
Class LedgerServer (S : Type) := {
  nip_credit : S -> string -> Z -> (ApiError + Transaction.t) * S;
  post_route : S -> string -> (ApiError + Transaction.t) * S;
  reverse_route : S -> string -> (ApiError + Transaction.t) * S;
  get_transactions : S -> list Transaction.t;
  get_ledger : S -> string -> list LedgerEntry.t
}.

(** [POST /provisional/{id}], which [markAsProvisional] of [api.ts] calls
    and nothing in the application uses. The specification does not
    describe this route: it is an interface of its own, with no contract
    and no model in [Backend]. *)
Class ProvisionalRoute (S : Type) := {
  provisional_route : S -> string -> (ApiError + Transaction.t) * S
}.

(** [t.id === id] *)
Definition has_id (id : string) (t : Transaction.t) : bool :=
  String.eqb (Transaction.id t) id.

(** The ledger row the server reports for a stored credit. *)
Definition to_entry (t : Transaction.t) : LedgerEntry.t :=
  LedgerEntry.mk (Transaction.id t) (Transaction.accountId t) (Transaction.amount t)
    "CREDIT" (status_to_string (Transaction.status t)) (Transaction.timestamp t).

(** The rows of one account, in storage order. *)
Definition ledger_rows (acc : string) (l : list Transaction.t) : list LedgerEntry.t :=
  map to_entry (filter (fun t => Transaction.accountId t = acc) l).

(** What [POST /post/{id}] and [POST /reverse/{id}] do to the stored list:
    unknown id is [NotFound], a reversed entry is [AlreadyReversed], any
    other entry takes the [target] status. *)
Definition transition_result (target : Status) (l : list Transaction.t) (id : string)
    : ApiError + (Transaction.t * list Transaction.t) :=
  match js_find (has_id id) l with
  | None => inl NotFound
  | Some t =>
      if decide (Transaction.status t = reversed) then inl AlreadyReversed
      else inr (Transaction.with_status target t,
                map_where (has_id id) (Transaction.with_status target) l)
  end.

(** The contract of the server (section 4.2 of the specification). *)
Class LedgerServerSpec (S : Type) `{LedgerServer S} : Prop := {
  ledger_view s acc : get_ledger s acc = ledger_rows acc (get_transactions s);
  credit_invalid s acc a : a <= 0 -> nip_credit s acc a = (inl InvalidAmount, s);
  credit_valid s acc a : 0 < a ->
    forall r s', nip_credit s acc a = (r, s') ->
    exists tx, r = inr tx /\ Transaction.accountId tx = acc /\ Transaction.amount tx = a /\
      Transaction.status tx = pending /\ get_transactions s' = get_transactions s ++ [tx];
  post_spec s id r s' : post_route s id = (r, s') ->
    match transition_result posted (get_transactions s) id with
    | inl e => r = inl e /\ s' = s
    | inr (t, l) => r = inr t /\ get_transactions s' = l
    end;
  reverse_spec s id r s' : reverse_route s id = (r, s') ->
    match transition_result reversed (get_transactions s) id with
    | inl e => r = inl e /\ s' = s
    | inr (t, l) => r = inr t /\ get_transactions s' = l
    end
}.

(** ** The credit lifecycle *)

(** One status change the specification allows (section 3): [post] from
    [pending] or (idempotently) from [posted]; [reverse] from either. *)
Inductive status_step : Status -> Status -> Prop :=
  | step_post_pending : status_step pending posted
  | step_post_posted : status_step posted posted
  | step_reverse_pending : status_step pending reversed
  | step_reverse_posted : status_step posted reversed.

#[export] Hint Constructors status_step : shadow.

(** A stored credit [t] became [t']: same record, status moved along the
    lifecycle by zero or more steps. *)
Definition tx_evolves (t t' : Transaction.t) : Prop :=
  t' = Transaction.with_status (Transaction.status t') t /\
  rtc status_step (Transaction.status t) (Transaction.status t').

(** A stored list [l] became [l']: it only grew, and every old entry
    evolved in place. *)
Definition txs_evolve (l l' : list Transaction.t) : Prop :=
  (length l <= length l')%nat /\
  forall i t, l !! i = Some t -> exists t', l' !! i = Some t' /\ tx_evolves t t'.

(** Stored ids are unique. *)
Definition ids_unique (l : list Transaction.t) : Prop := NoDup (map Transaction.id l).

Module Backend.
(** The server's store: the credit table, the next id and its clock. *)
Record state := mkState { txs : list Transaction.t; next_id : N; clock : Z }.

Definition init : state := mkState [] 1 0.

(** [POST /nip/credit] *)
Definition create_credit (s : state) (acc : string) (amount : Z)
    : (ApiError + Transaction.t) * state :=
  if amount <=? 0 then (inl InvalidAmount, s)
  else
    let tx := Transaction.mk ("txn-" +:+ pretty (next_id s)) acc amount pending
                             (toISOString (clock s)) in
    (inr tx, mkState (txs s ++ [tx]) (next_id s + 1)%N (clock s)).

(** [POST /post/{id}] and [POST /reverse/{id}] *)
Definition transition (target : Status) (s : state) (id : string)
    : (ApiError + Transaction.t) * state :=
  match transition_result target (txs s) id with
  | inl e => (inl e, s)
  | inr (t, l) => (inr t, mkState l (next_id s) (clock s))
  end.

#[export] Instance backend_server : LedgerServer state := {
  nip_credit := create_credit;
  post_route := transition posted;
  reverse_route := transition reversed;
  get_transactions := txs;
  get_ledger s acc := ledger_rows acc (txs s)
}.

(** The ids the backend hands out. *)
Definition issued_id (n : N) : string := "txn-" +:+ pretty n.

(** Ids are unique and were issued before [next_id]; amounts are positive. *)
Definition wf (s : state) : Prop :=
  ids_unique (txs s) /\
  forall t, t ∈ txs s ->
    0 < Transaction.amount t /\
    exists k, (k < next_id s)%N /\ Transaction.id t = issued_id k.

(** One request the backend serves. *)
Inductive op : state -> state -> Prop :=
  | op_credit s acc a r s' : create_credit s acc a = (r, s') -> op s s'
  | op_post s id r s' : transition posted s id = (r, s') -> op s s'
  | op_reverse s id r s' : transition reversed s id = (r, s') -> op s s'.
End Backend.

(** ** Lemmas on [transition_result] *)

Lemma transition_result_inr target l id t l' :
  transition_result target l id = inr (t, l') ->
  exists t0, js_find (has_id id) l = Some t0 /\ Transaction.status t0 <> reversed /\
    t = Transaction.with_status target t0 /\
    l' = map_where (has_id id) (Transaction.with_status target) l.
Proof.
  unfold transition_result. destruct (js_find _ _) as [t0|]; [|done].
  case_decide; [done|]. intros [= <- <-]. eauto.
Qed.

Lemma with_status_status t : Transaction.with_status (Transaction.status t) t = t.
Proof. by destruct t. Qed.

Lemma with_status_twice s1 s2 t :
  Transaction.with_status s1 (Transaction.with_status s2 t) = Transaction.with_status s1 t.
Proof. by destruct t. Qed.

Lemma tx_evolves_refl t : tx_evolves t t.
Proof. split; [by rewrite with_status_status|done]. Qed.

Lemma tx_evolves_trans t1 t2 t3 : tx_evolves t1 t2 -> tx_evolves t2 t3 -> tx_evolves t1 t3.
Proof.
  intros [H12 R12] [H23 R23]. split; [|by etrans].
  rewrite H23, H12, with_status_twice. by destruct t3.
Qed.

#[export] Hint Resolve tx_evolves_refl : shadow.

Lemma txs_evolve_refl l : txs_evolve l l.
Proof. split; [done|]. intros i t Ht. exists t. split; [done|apply tx_evolves_refl]. Qed.

Lemma txs_evolve_trans l1 l2 l3 : txs_evolve l1 l2 -> txs_evolve l2 l3 -> txs_evolve l1 l3.
Proof.
  intros [Hl12 H12] [Hl23 H23]. split; [lia|]. intros i t1 H1.
  destruct (H12 i t1 H1) as (t2 & H2 & E12). destruct (H23 i t2 H2) as (t3 & H3 & E23).
  exists t3. split; [done|]. by eapply tx_evolves_trans.
Qed.

Lemma txs_evolve_app l new : txs_evolve l (l ++ new).
Proof.
  split; [rewrite length_app; lia|]. intros i t Ht. exists t.
  split; [by apply lookup_app_l_Some|apply tx_evolves_refl].
Qed.

#[export] Hint Resolve txs_evolve_refl txs_evolve_app : shadow.

(** With unique ids, the entry [js_find] returns is the only one with its id. *)
Lemma js_find_has_id_unique l id t0 x :
  ids_unique l -> js_find (has_id id) l = Some t0 -> x ∈ l -> has_id id x = true -> x = t0.
Proof.
  unfold ids_unique, has_id. intros Hnd Hf Hx Hxid.
  destruct (js_find_Some _ _ _ Hf) as [Ht0 Ht0id].
  apply String.eqb_eq in Hxid, Ht0id.
  apply list_elem_of_lookup in Hx as [i Hi], Ht0 as [j Hj].
  assert (i = j) as ->.
  { eapply NoDup_lookup; [exact Hnd| |]; rewrite list_lookup_fmap; [rewrite Hi|rewrite Hj]; simpl;
      [rewrite Hxid|rewrite Ht0id]; reflexivity. }
  congruence.
Qed.

(** A transition to a status the lifecycle reaches from every non-reversed
    status moves the list along the lifecycle. *)
Lemma transition_evolves target l id t l' :
  (forall st, st <> reversed -> status_step st target) -> ids_unique l ->
  transition_result target l id = inr (t, l') -> txs_evolve l l'.
Proof.
  intros Hstep Hu (t0 & Hf & Hr & _ & ->)%transition_result_inr.
  split; [by rewrite length_map_where|]. intros i x Hx. unfold map_where.
  rewrite list_lookup_fmap, Hx. eexists; split; [done|]. simpl.
  destruct (has_id id x) eqn:Hid; [|apply tx_evolves_refl].
  rewrite (js_find_has_id_unique l id t0 x) by (done || by eapply list_elem_of_lookup_2).
  split; [by destruct t0|]. destruct t0; simpl in *. apply rtc_once, Hstep, Hr.
Qed.

(** Once reversed, a status stays reversed. *)
Lemma rtc_status_step_reversed st : rtc status_step reversed st -> st = reversed.
Proof.
  intros H. remember reversed as r eqn:Er. induction H as [|x y z Hxy _ IH]; [done|].
  subst. inversion Hxy.
Qed.

Lemma map_id_map_where p st l :
  map Transaction.id (map_where p (Transaction.with_status st) l) = map Transaction.id l.
Proof. unfold map_where. rewrite map_map. apply map_ext. intros x. by destruct (p x), x. Qed.

(** ** The backend's invariant and its lifecycle *)

Module BackendFacts.
Import Backend.

Lemma issued_id_inj n m : issued_id n = issued_id m -> n = m.
Proof. unfold issued_id. intros H. apply (inj (String.app "txn-")) in H. by apply (inj pretty) in H. Qed.

Lemma create_credit_wf s acc a r s' : wf s -> create_credit s acc a = (r, s') -> wf s'.
Proof.
  intros [Hu Ht]. unfold create_credit. destruct (Z.leb_spec a 0); [by intros [= _ <-]|].
  intros [= _ <-]. split; simpl.
  - unfold ids_unique. rewrite map_app. apply NoDup_app. split_and!; [done| |apply NoDup_singleton].
    intros x Hx Hx'%list_elem_of_singleton. apply list_elem_of_fmap in Hx as (t & -> & Hin).
    destruct (Ht t Hin) as [_ (k & Hk & Hid)]. simpl in Hx'.
    rewrite Hid in Hx'. apply issued_id_inj in Hx'. lia.
  - intros t [Hin|Hin%list_elem_of_singleton]%elem_of_app; [|subst t].
    + destruct (Ht t Hin) as [? (k & ? & ?)]. split; [done|]. exists k. split; [lia|done].
    + simpl. split; [lia|]. exists (next_id s). split; [lia|done].
Qed.

Lemma transition_wf target s id r s' : wf s -> transition target s id = (r, s') -> wf s'.
Proof.
  intros [Hu Ht]. unfold transition.
  destruct (transition_result target (txs s) id) as [e|[t l]] eqn:Hr; [by intros [= _ <-]|].
  intros [= _ <-]. apply transition_result_inr in Hr as (t0 & _ & _ & _ & ->).
  split; simpl; [unfold ids_unique; by rewrite map_id_map_where|].
  intros x (y & -> & Hy)%list_elem_of_fmap. destruct (Ht y Hy) as [? (k & ? & ?)].
  destruct (has_id id y), y; simpl in *; eauto.
Qed.

Lemma op_wf s s' : wf s -> op s s' -> wf s'.
Proof.
  intros Hwf Hop. revert Hwf. destruct Hop as [s0 acc a r s1 H|s0 id r s1 H|s0 id r s1 H];
    intros Hwf; [eapply create_credit_wf|eapply transition_wf|eapply transition_wf]; eassumption.
Qed.

Lemma op_evolves s s' : wf s -> op s s' -> txs_evolve (txs s) (txs s').
Proof.
  intros Hwf Hop. revert Hwf. destruct Hop as [s acc a r s' H|s id r s' H|s id r s' H].
  all: intros [Hu _].
  - revert H. unfold create_credit. destruct (a <=? 0); intros [= _ <-]; simpl; auto with shadow.
  - revert H. unfold transition.
    destruct (transition_result _ _ _) as [|[t l]] eqn:Hr; intros [= _ <-]; [auto with shadow|].
    eapply transition_evolves; [|done|exact Hr]. intros []; auto with shadow; done.
  - revert H. unfold transition.
    destruct (transition_result _ _ _) as [|[t l]] eqn:Hr; intros [= _ <-]; [auto with shadow|].
    eapply transition_evolves; [|done|exact Hr]. intros []; auto with shadow; done.
Qed.

Lemma init_wf : wf init.
Proof. split; [constructor|]. intros t Ht. by apply elem_of_nil in Ht. Qed.

Lemma rtc_op_wf s1 s2 : wf s1 -> rtc op s1 s2 -> wf s2 /\ txs_evolve (txs s1) (txs s2).
Proof.
  intros Hwf H. revert Hwf. induction H as [s|x y z Hxy _ IH]; intros Hwf; [auto with shadow|].
  destruct (IH (op_wf _ _ Hwf Hxy)) as [Hz Hyz]. split; [done|].
  eapply txs_evolve_trans; [eapply op_evolves|]; eauto.
Qed.

(** Every state the backend reaches from its initial state has unique
    ids and positive amounts, and along any later run of requests every
    stored credit keeps its place and its record and only moves along the
    lifecycle [pending -> posted -> reversed]. *)
Theorem backend_lifecycle s1 s2 :
  rtc op init s1 -> rtc op s1 s2 -> wf s2 /\ txs_evolve (txs s1) (txs s2).
Proof.
  intros H01 H12. apply rtc_op_wf; [|done]. by destruct (rtc_op_wf init s1 init_wf H01).
Qed.

(** On the server a reversed credit is final: no later request changes it. *)
Theorem backend_reversed_final s1 s2 i t :
  rtc op init s1 -> rtc op s1 s2 ->
  txs s1 !! i = Some t -> Transaction.status t = reversed -> txs s2 !! i = Some t.
Proof.
  intros H01 H12 Hi Hr.
  destruct (rtc_op_wf s1 s2 (proj1 (rtc_op_wf init s1 init_wf H01)) H12) as [_ [_ Hev]].
  destruct (Hev i t Hi) as (t' & Ht' & Heq & Hrtc). rewrite Hr in Hrtc.
  apply rtc_status_step_reversed in Hrtc. rewrite Ht', Heq, Hrtc, <- Hr.
  by rewrite with_status_status.
Qed.

(** The backend meets the contract the client relies on. *)
#[export] Instance backend_spec : LedgerServerSpec state.
Proof.
  split.
  - done.
  - intros s acc a Ha. unfold nip_credit; simpl. unfold create_credit.
    by destruct (Z.leb_spec a 0); [|lia].
  - intros s acc a Ha r s'. unfold nip_credit; simpl. unfold create_credit.
    destruct (Z.leb_spec a 0); [lia|]. intros [= <- <-]. by eexists.
  - intros s id r s'. unfold post_route; simpl. unfold transition.
    destruct (transition_result _ _ _) as [e|[t l]]; by intros [= <- <-].
  - intros s id r s'. unfold reverse_route; simpl. unfold transition.
    destruct (transition_result _ _ _) as [e|[t l]]; by intros [= <- <-].
Qed.
End BackendFacts.

(** ** Replaying the ledger of one account *)

Lemma ledger_rows_app acc l1 l2 :
  ledger_rows acc (l1 ++ l2) = ledger_rows acc l1 ++ ledger_rows acc l2.
Proof. unfold ledger_rows. by rewrite filter_app, map_app. Qed.

(** With unique ids, [POST /post] and [POST /reverse] change exactly the
    entry [js_find] returns. *)
Lemma map_where_unique_split l id t f :
  ids_unique l -> js_find (has_id id) l = Some t ->
  exists l1 l2, l = l1 ++ t :: l2 /\ map_where (has_id id) f l = l1 ++ f t :: l2.
Proof.
  intros Hu Hf. destruct (js_find_split _ _ _ Hf) as (l1 & l2 & -> & H1 & Ht).
  exists l1, l2. split; [done|]. rewrite map_where_app. simpl. rewrite Ht.
  rewrite (map_where_id _ _ l1) by done. f_equal. f_equal. apply map_where_id.
  intros y Hy. destruct (has_id id y) eqn:Hyid; [|done].
  assert (y = t) as ->.
  { eapply js_find_has_id_unique; [exact Hu|exact Hf|set_solver|done]. }
  exfalso. unfold ids_unique in Hu. rewrite map_app in Hu. simpl in Hu.
  apply NoDup_app in Hu as (_ & _ & Hu). apply NoDup_cons in Hu as [Hu _].
  apply Hu, list_elem_of_fmap. eauto.
Qed.

(** The balance of an account after one of its credits changes status:
    the old contribution is replaced by the new one. *)
Lemma calc_rows_replace acc l1 l2 t t' :
  calculateBalanceFromLedger (ledger_rows acc (l1 ++ t' :: l2)) =
  balance_add (calculateBalanceFromLedger (ledger_rows acc (l1 ++ t :: l2)))
    (balance_add (calculateBalanceFromLedger (ledger_rows acc [t']))
       (mkBalance (- total (calculateBalanceFromLedger (ledger_rows acc [t])))
                  (- available (calculateBalanceFromLedger (ledger_rows acc [t]))))).
Proof.
  rewrite !(ledger_rows_app acc l1 (_ :: l2)).
  change (t' :: l2) with ([t'] ++ l2). change (t :: l2) with ([t] ++ l2).
  rewrite !ledger_rows_app, !calculateBalanceFromLedger_app.
  unfold balance_add; simpl. f_equal; lia.
Qed.

(** The contribution of one credit to its own account, by status. *)
Lemma calc_rows_single acc t :
  Transaction.accountId t = acc ->
  calculateBalanceFromLedger (ledger_rows acc [t]) =
  match Transaction.status t with
  | pending => mkBalance (Transaction.amount t) 0
  | posted => mkBalance (Transaction.amount t) (Transaction.amount t)
  | reversed => zero_balance
  end.
Proof.
  intros Hacc. unfold ledger_rows. rewrite filter_cons_True by done. simpl.
  unfold calculateBalanceFromLedger, add_entry. simpl.
  destruct (Transaction.status t); simpl; f_equal; lia.
Qed.

(** With unique ids, a status change of the credit [t] changes the replay
    of [t]'s account by the difference of [t]'s two contributions, and the
    replay of every other account not at all. *)
Lemma transition_balance target l id t acc :
  ids_unique l -> js_find (has_id id) l = Some t ->
  calculateBalanceFromLedger
    (ledger_rows acc (map_where (has_id id) (Transaction.with_status target) l)) =
  if decide (Transaction.accountId t = acc) then
    balance_add (calculateBalanceFromLedger (ledger_rows acc l))
      (balance_add (calculateBalanceFromLedger (ledger_rows acc [Transaction.with_status target t]))
         (mkBalance (- total (calculateBalanceFromLedger (ledger_rows acc [t])))
                    (- available (calculateBalanceFromLedger (ledger_rows acc [t])))))
  else calculateBalanceFromLedger (ledger_rows acc l).
Proof.
  intros Hu Hf. destruct (map_where_unique_split l id t (Transaction.with_status target) Hu Hf)
    as (l1 & l2 & -> & ->).
  case_decide as Hacc; [apply calc_rows_replace|].
  change (t :: l2) with ([t] ++ l2).
  change (Transaction.with_status target t :: l2) with ([Transaction.with_status target t] ++ l2).
  rewrite !ledger_rows_app. unfold ledger_rows at 2 5.
  rewrite !filter_cons_False by (destruct t; simpl in *; congruence). done.
Qed.
