(* ===== verification/Api.v ===== *)
(** * The API client [src/lib/api.ts]

    Each exported function does one [fetch] to the server and throws
    [new Error(`Failed to ...: ${response.statusText}`)] when the response
    is not [ok]. [Remote] is what a fetch can touch: the server's state
    and whether the network is up (a rejected [fetch] is [FetchFailed]).
    [getAllBalances] lists the transactions, takes the distinct account
    ids in first-seen order ([[...new Set(...)]]) and fills a map with
    [calculateBalanceFromLedger] of each account's ledger; the file proves
    that it returns the balances derived from the server's table, and
    that every read leaves the server unchanged. The client functions are
    in the module [api], the name the hook imports them by; the file
    exports it. *)

From S2P Require Import Prelude Data Ledger Server.

Local Open Scope Z_scope.

(** What the client can throw. *)
Inductive JsError :=
  | FetchFailed
  | HttpError (what : string) (e : ApiError).

Record Remote (S : Type) := mkRemote { server : S; online : bool }.
Arguments mkRemote {S} _ _.
Arguments server {S} _.
Arguments online {S} _.

(** The client's functions, under the name the hook imports them by
    ([import * as api from "@/lib/api"]). *)
Module api.

Section Client.
Context {S : Type} `{LedgerServer S}.

Local Abbreviation M := (ST (Remote S) JsError).

(** A [POST] route: the server answers, and a non-ok answer is thrown. *)
Definition fetch_post {A} (what : string) (route : S -> (ApiError + A) * S) : M A :=
  fun r =>
    if online r then
      match route (server r) with
      | (inl e, s') => (inl (HttpError what e), mkRemote s' true)
      | (inr a, s') => (inr a, mkRemote s' true)
      end
    else (inl FetchFailed, r).

(** A [GET] route: the server answers without changing. *)
Definition fetch_get {A} (read : S -> A) : M A :=
  fun r => if online r then (inr (read (server r)), r) else (inl FetchFailed, r).

(** [createCredit(accountId, amount)]: [POST /nip/credit]. *)
Definition createCredit (accountId : string) (amount : Z) : M Transaction.t :=
  fetch_post "Failed to create credit" (fun s => nip_credit s accountId amount).

(** [markAsProvisional(txtId)]: [POST /provisional/{txtId}], over any
    server that has the route. *)
Definition markAsProvisional `{ProvisionalRoute S} (txtId : string) : M Transaction.t :=
  fetch_post "Failed to mark as provisional" (fun s => provisional_route s txtId).

(** [postTransaction(txtId)]: [POST /post/{txtId}]. *)
Definition postTransaction (txtId : string) : M Transaction.t :=
  fetch_post "Failed to post transaction" (fun s => post_route s txtId).

(** [reverseTransaction(txtId)]: [POST /reverse/{txtId}]. *)
Definition reverseTransaction (txtId : string) : M Transaction.t :=
  fetch_post "Failed to reverse transaction" (fun s => reverse_route s txtId).

(** [getAllTransactions()]: [GET /transactions]. *)
Definition getAllTransactions : M (list Transaction.t) := fetch_get get_transactions.

(** [getAccountLedger(accountId)]: [GET /ledger/{accountId}]. *)
Definition getAccountLedger (accountId : string) : M (list LedgerEntry.t) :=
  fetch_get (fun s => get_ledger s accountId).

(** The [for (const accountId of accountIds)] loop of [getAllBalances]. *)
Fixpoint fill_balances (ids : list string) (balances : gmap string Balance)
    : M (gmap string Balance) :=
  match ids with
  | [] => st_ret balances
  | accountId :: ids' =>
      do ledger <- getAccountLedger accountId;
      fill_balances ids' (<[accountId := calculateBalanceFromLedger ledger]> balances)
  end.
End Client.

(** [[...new Set(xs)]]: the distinct elements in first-seen order. *)
Definition js_unique (xs : list string) : list string :=
  foldl (fun seen x => if decide (x ∈ seen) then seen else seen ++ [x]) [] xs.

Section Client2.
Context {S : Type} `{LedgerServer S}.

(** [getAllBalances()] *)
Definition getAllBalances : ST (Remote S) JsError (gmap string Balance) :=
  do transactions <- getAllTransactions;
  let accountIds := js_unique (map Transaction.accountId transactions) in
  fill_balances accountIds ∅.
End Client2.

End api.
Export api.

(** The balances the server's table determines: one per account that has a
    credit, computed from that account's rows. *)
Definition derived_balances (l : list Transaction.t) : gmap string Balance :=
  list_to_map ((fun acc => (acc, calculateBalanceFromLedger (ledger_rows acc l)))
                 <$> js_unique (map Transaction.accountId l)).

(** ** Lemmas *)

(** A [POST] through the client: thrown without a change when the network
    is down; otherwise the server's answer, an error status thrown as
    [HttpError what], with the server's new state. *)
Lemma fetch_post_run {S A} what (route : S -> (ApiError + A) * S) (r : Remote S) :
  fetch_post what route r =
    if online r then
      ((match fst (route (server r)) with
        | inl e => inl (HttpError what e)
        | inr a => inr a
        end), mkRemote (snd (route (server r))) true)
    else (inl FetchFailed, r).
Proof. unfold fetch_post. destruct (online r); [|done]. by destruct (route (server r)) as [[] ?]. Qed.

Lemma foldl_insert_lookup (f : string -> Balance) ids (m : gmap string Balance) x :
  foldl (fun m k => <[k := f k]> m) m ids !! x =
  if decide (x ∈ ids) then Some (f x) else m !! x.
Proof.
  revert m. induction ids as [|k ids IH]; intros m; cbn [foldl].
  - case_decide as Hx; [by apply elem_of_nil in Hx|done].
  - rewrite IH, lookup_insert.
    destruct (decide (k = x)) as [->|Hne]; repeat case_decide; try done; set_solver.
Qed.

Lemma list_to_map_fmap_lookup (f : string -> Balance) ids x :
  (list_to_map ((fun k => (k, f k)) <$> ids) : gmap string Balance) !! x =
  if decide (x ∈ ids) then Some (f x) else None.
Proof.
  induction ids as [|k ids IH]; cbn [fmap list_fmap list_to_map foldr].
  - case_decide as Hx; [by apply elem_of_nil in Hx|apply lookup_empty].
  - rewrite lookup_insert, IH.
    destruct (decide (k = x)) as [->|Hne]; repeat case_decide; try done; set_solver.
Qed.

Lemma js_unique_elem_of xs x : x ∈ js_unique xs <-> x ∈ xs.
Proof.
  unfold js_unique. cut (forall seen, x ∈ foldl (fun seen x => if decide (x ∈ seen) then seen
                                                    else seen ++ [x]) seen xs <-> x ∈ seen \/ x ∈ xs).
  { intros ->. set_solver. }
  induction xs as [|y xs IH]; intros seen; simpl; [set_solver|].
  rewrite IH. case_decide; set_solver.
Qed.

#[global] Arguments derived_balances : simpl never.

(** Lookup in the derived balances. *)
Lemma derived_balances_lookup l acc :
  derived_balances l !! acc =
  if decide (acc ∈ map Transaction.accountId l)
  then Some (calculateBalanceFromLedger (ledger_rows acc l)) else None.
Proof.
  unfold derived_balances. rewrite list_to_map_fmap_lookup.
  destruct (decide (acc ∈ js_unique _)) as [H1|H1], (decide (acc ∈ map _ _)) as [H2|H2];
    rewrite ?js_unique_elem_of in H1; done.
Qed.

Section ClientFacts.
Context {S : Type} `{LedgerServer S}.

Lemma fill_balances_online ids m (r : Remote S) :
  online r = true ->
  fill_balances ids m r =
    (inr (foldl (fun m k => <[k := calculateBalanceFromLedger (get_ledger (server r) k)]> m) m ids), r).
Proof.
  intros Hon. revert m. induction ids as [|k ids IH]; intros m; simpl; [done|].
  unfold st_bind, getAccountLedger, fetch_get. rewrite Hon. apply IH.
Qed.

Lemma fill_balances_offline ids m (r : Remote S) :
  online r = false -> ids <> [] -> fill_balances ids m r = (inl FetchFailed, r).
Proof.
  intros Hoff Hne. destruct ids as [|k ids]; [done|]. simpl.
  unfold st_bind, getAccountLedger, fetch_get. by rewrite Hoff.
Qed.

Lemma getAllBalances_run `{!LedgerServerSpec S} (r : Remote S) :
  online r = true ->
  getAllBalances r = (inr (derived_balances (get_transactions (server r))), r).
Proof.
  intros Hon. unfold getAllBalances, st_bind, getAllTransactions, fetch_get. rewrite Hon.
  rewrite fill_balances_online by done. do 2 f_equal. apply map_eq. intros x.
  rewrite foldl_insert_lookup, derived_balances_lookup, lookup_empty, ledger_view.
  destruct (decide (x ∈ js_unique _)) as [H1|H1], (decide (x ∈ map _ _)) as [H2|H2];
    rewrite ?js_unique_elem_of in H1; done.
Qed.

(** C13. With the network up, [getAllBalances] leaves the server unchanged
    and returns one balance per account that has a credit on the server,
    equal to [calculateBalanceFromLedger] of the ledger the server reports
    for that account; other accounts are absent from the map. *)
Theorem getAllBalances_lookup `{!LedgerServerSpec S} (r : Remote S) :
  online r = true ->
  exists m, getAllBalances r = (inr m, r) /\
    forall acc, m !! acc =
      if decide (acc ∈ map Transaction.accountId (get_transactions (server r)))
      then Some (calculateBalanceFromLedger (get_ledger (server r) acc)) else None.
Proof.
  intros Hon. rewrite getAllBalances_run by done. eexists. split; [reflexivity|].
  intros acc. rewrite derived_balances_lookup. by rewrite ledger_view.
Qed.

Lemma getAllBalances_offline (r : Remote S) :
  online r = false -> getAllBalances r = (inl FetchFailed, r).
Proof. intros Hoff. unfold getAllBalances, st_bind, getAllTransactions, fetch_get. by rewrite Hoff. Qed.

(** [createCredit] of a positive amount with the network up: the server
    appends one pending credit of that amount and returns it. *)
Lemma createCredit_valid `{!LedgerServerSpec S} acc amount (r : Remote S) :
  online r = true -> 0 < amount ->
  exists tx s', createCredit acc amount r = (inr tx, mkRemote s' true) /\
    Transaction.accountId tx = acc /\ Transaction.amount tx = amount /\
    Transaction.status tx = pending /\
    get_transactions s' = get_transactions (server r) ++ [tx].
Proof.
  intros Hon Ha. unfold createCredit, fetch_post. rewrite Hon.
  destruct (nip_credit (server r) acc amount) as [res s'] eqn:Hc.
  destruct (credit_valid _ _ _ Ha _ _ Hc) as (tx & -> & ?). eauto.
Qed.
End ClientFacts.

