(* ===== verification/ApiTests.v ===== *)
(** * The API test helpers

    [src/lib/api-tests.ts] wraps each client call of [src/lib/api.ts] in a
    [try]/[catch] that logs the result and returns it, or logs the error
    and returns [undefined] ([None] here). [testCompleteWorkflow] chains a
    credit, a listing, a post and a ledger read. The two-second waits
    between the steps are not modelled: only the calls change the server.
    The theorem shows that against any server meeting the contract of
    [Server.LedgerServerSpec], with the network up and a fresh id for the
    new credit, the workflow finds the credit, posts it, and reads a
    ledger whose balance has grown by 5000 in [total] and [available]. *)

From S2P Require Import Prelude Data Ledger Server Api.

Local Open Scope Z_scope.

Section Tests.
Context {S : Type} `{LedgerServer S}.
Local Abbreviation M := (ST (Remote S) JsError).

(** [try { const x = await call; console.log(x); return x } catch { console.error }] *)
Definition try_log {A} (m : M A) : M (option A) :=
  st_catch (do x <- m; st_ret (Some x)) (fun _ => st_ret None).

Definition testCreateCredit : M (option Transaction.t) :=
  try_log (createCredit "acc-demo-1" 5000).

Definition testGetAllTransactions : M (option (list Transaction.t)) :=
  try_log getAllTransactions.

Definition testPostTransaction (txId : string) : M (option Transaction.t) :=
  try_log (postTransaction txId).

Definition testReverseTransaction (txId : string) : M (option Transaction.t) :=
  try_log (reverseTransaction txId).

(** The ledger and the balance [calculateBalanceFromLedger] computes from it. *)
Definition testGetAccountLedger (accountId : string)
    : M (option (list LedgerEntry.t * Balance)) :=
  try_log (do ledger <- getAccountLedger accountId;
           st_ret (ledger, calculateBalanceFromLedger ledger)).

Definition testGetAllBalances : M (option (gmap string Balance)) :=
  try_log getAllBalances.

(** What [testCompleteWorkflow] logs: nothing when the credit failed,
    otherwise whether the credit was found in the listing and the result
    of the final ledger read. *)
Definition testCompleteWorkflow : M (option (bool * option (list LedgerEntry.t * Balance))) :=
  do newTransaction <- testCreateCredit;
  match newTransaction with
  | None => st_ret None
  | Some t =>
      do allTransactions <- testGetAllTransactions;
      let exists_ :=
        match allTransactions with
        | Some l => existsb (fun x => String.eqb (Transaction.id x) (Transaction.id t)) l
        | None => false
        end in
      do _ <- testPostTransaction (Transaction.id t);
      do checked <- testGetAccountLedger (Transaction.accountId t);
      st_ret (Some (exists_, checked))
  end.
End Tests.

(** ** Lemmas *)

Lemma existsb_id_last (l : list Transaction.t) t :
  existsb (fun x => String.eqb (Transaction.id x) (Transaction.id t)) (l ++ [t]) = true.
Proof. apply existsb_exists. exists t. rewrite in_app_iff, String.eqb_refl. simpl. auto. Qed.

(** Posting the last, freshly added, pending credit of a list. *)
Lemma transition_result_fresh target l t :
  Transaction.status t <> reversed ->
  (forall y, y ∈ l -> Transaction.id y <> Transaction.id t) ->
  transition_result target (l ++ [t]) (Transaction.id t) =
    inr (Transaction.with_status target t, l ++ [Transaction.with_status target t]).
Proof.
  intros Hst Hfresh.
  assert (Hl : forall y, y ∈ l -> has_id (Transaction.id t) y = false).
  { intros y Hy. apply String.eqb_neq. by apply Hfresh. }
  assert (Ht : has_id (Transaction.id t) t = true) by apply String.eqb_refl.
  unfold transition_result. rewrite (js_find_app_last _ _ _ Hl Ht).
  rewrite decide_False by done. f_equal. f_equal.
  rewrite map_where_app, map_where_id by done. simpl. by rewrite Ht.
Qed.

Section TestFacts.
Context {S : Type} `{LedgerServer S} `{!LedgerServerSpec S}.

(** C30. Against a server that meets the contract, with the network up and
    a credit id the server has not used before, [testCompleteWorkflow]
    finds the new credit in the listing, posts it, and reads a ledger of
    [acc-demo-1] whose balance is the old one plus 5000 in both [total]
    and [available]; the server's table ends with the credit posted. *)
Theorem testCompleteWorkflow_posts (r : Remote S) :
  online r = true ->
  (forall tx s', nip_credit (server r) "acc-demo-1" 5000 = (inr tx, s') ->
     forall y, y ∈ get_transactions (server r) -> Transaction.id y <> Transaction.id tx) ->
  exists tx r', testCompleteWorkflow r =
      (inr (Some (true, Some (get_ledger (server r') "acc-demo-1",
         balance_add (calculateBalanceFromLedger (get_ledger (server r) "acc-demo-1"))
                     (mkBalance 5000 5000)))), r') /\
    Transaction.accountId tx = "acc-demo-1" /\ Transaction.amount tx = 5000 /\
    get_transactions (server r') =
      get_transactions (server r) ++ [Transaction.with_status posted tx].
Proof.
  intros Hon Hfresh.
  destruct (nip_credit (server r) "acc-demo-1" 5000) as [res s1] eqn:Hc.
  destruct (credit_valid _ _ 5000 ltac:(lia) _ _ Hc) as (tx & -> & Hacc & Hamt & Hst & Htx).
  pose proof (Hfresh tx s1 eq_refl) as Hf.
  destruct (post_route s1 (Transaction.id tx)) as [pres s2] eqn:Hp.
  pose proof (post_spec _ _ _ _ Hp) as Hps.
  rewrite Htx, transition_result_fresh in Hps by (try rewrite Hst; done).
  destruct Hps as [-> Htx2].
  exists tx, (mkRemote s2 true).
  unfold testCompleteWorkflow, testCreateCredit, testGetAllTransactions, testPostTransaction,
    testGetAccountLedger, try_log, createCredit, getAllTransactions, postTransaction,
    getAccountLedger, fetch_post, fetch_get, st_catch, st_bind, st_ret.
  rewrite Hon, Hc. simpl. rewrite Hp, Htx, existsb_id_last. simpl.
  split_and!; [|done|done|done]. rewrite Hacc, !ledger_view, Htx2, ledger_rows_app,
    calculateBalanceFromLedger_app, calc_rows_single by (by destruct tx).
  simpl. by rewrite Hamt.
Qed.
End TestFacts.
