(* ===== verification/Notify.v ===== *)
(** * Notification Emitter: the messages of [src/hooks/use-shadow-storage.ts]

    Every handler of the hook appends human-readable messages to
    [data.notifications[acc]] with the pattern
    [{ ...data.notifications, [acc]: [...(data.notifications[acc] || []), msg] }].
    Amounts are printed with [amount.toLocaleString()], modelled here for
    integers in the en-US/en-NG format (a minus sign, then the digits
    grouped by three with commas; numbers too large for this format and
    fractions do not occur, amounts being integers). *)

From S2P Require Import Prelude Data.
From Stdlib Require Import Ascii.
From Stdlib Require String.

Local Open Scope Z_scope.

(** Commas inserted every three digits of a reversed digit list. *)
Fixpoint group3 (ds : list ascii) : list ascii :=
  match ds with
  | a :: b :: c :: ((_ :: _) as rest) => a :: b :: c :: "," :: group3 rest
  | _ => ds
  end%char.

(** The decimal digits of [n], grouped by three from the right. *)
Definition grouped (n : N) : string :=
  String.string_of_list_ascii (rev (group3 (rev (String.list_ascii_of_string (pretty n))))).

(** [n.toLocaleString()] for an integer [n]. *)
Definition toLocaleString (n : Z) : string :=
  (if n <? 0 then "-" else "") +:+ grouped (Z.to_N (Z.abs n)).

(** The naira sign the messages put before an amount. *)
Definition naira : string := "₦".

(** The messages, one per template literal of the hook. *)
Definition msg_deposit_confirming (amount : Z) : string :=
  naira +:+ toLocaleString amount +:+ " deposit is being confirmed.".
Definition msg_deposit_available (amount : Z) : string :=
  naira +:+ toLocaleString amount +:+ " deposit is now available.".
Definition msg_deposit_reversed (amount : Z) : string :=
  naira +:+ toLocaleString amount +:+ " deposit was reversed.".
Definition msg_sent_pending (amount : Z) (to : string) : string :=
  "You sent " +:+ naira +:+ toLocaleString amount +:+ " to " +:+ to +:+ " (awaiting confirmation).".
Definition msg_incoming_processing (amount : Z) (from : string) : string :=
  naira +:+ toLocaleString amount +:+ " from " +:+ from +:+ " is being processed.".
Definition msg_incoming_available (amount : Z) (from : string) : string :=
  naira +:+ toLocaleString amount +:+ " from " +:+ from +:+ " is now available.".
Definition msg_transfer_reversed (amount : Z) (to : string) : string :=
  naira +:+ toLocaleString amount +:+ " transfer to " +:+ to +:+ " was reversed.".
Definition msg_incoming_reversed (amount : Z) (from : string) : string :=
  naira +:+ toLocaleString amount +:+ " from " +:+ from +:+ " failed or was reversed.".
Definition msg_sent (amount : Z) (to : string) : string :=
  "You sent " +:+ naira +:+ toLocaleString amount +:+ " to " +:+ to +:+ ".".
Definition msg_received (amount : Z) (from : string) : string :=
  "You received " +:+ naira +:+ toLocaleString amount +:+ " from " +:+ from +:+ ".".

(** [[acc]: [...(ns[acc] || []), msg]]: the entry an object spread writes. *)
Definition appended (ns : gmap string (list string)) (acc msg : string) : list string :=
  (ns !! acc ||| []) ++ [msg].

(** [{ ...ns, [acc]: [...(ns[acc] || []), msg] }] *)
Definition notify (ns : gmap string (list string)) (acc msg : string) : gmap string (list string) :=
  <[acc := appended ns acc msg]> ns.

(** [{ ...ns, [a]: [...(ns[a] || []), ma], [b]: [...(ns[b] || []), mb] }]:
    both entries are computed from the old [ns]; the later key wins. *)
Definition notify2 (ns : gmap string (list string)) (a ma b mb : string)
    : gmap string (list string) :=
  <[b := appended ns b mb]> (<[a := appended ns a ma]> ns).

Example toLocaleString_1000 : toLocaleString 1000 = "1,000".
Proof. reflexivity. Qed.
Example toLocaleString_neg : toLocaleString (-1234567) = "-1,234,567".
Proof. reflexivity. Qed.
Example toLocaleString_small : toLocaleString 400 = "400".
Proof. reflexivity. Qed.
