(* ===== verification/Store.v ===== *)
(** * The hook [useShadowStorage] of [src/hooks/use-shadow-storage.ts]

    One mounted instance of the hook sees
    - the React state [data : ShadowData] and [isLoaded];
    - the browser's [localStorage], holding the transfers and the
      notifications under [shadow_transfers] and [shadow_notifications]
      (stored values are kept typed: the [JSON.stringify]/[JSON.parse]
      round trip of these plain records is taken as the identity);
    - the remote server, through the client of [api.ts];
    - the clock: [now] is what [Date.now()] returns, and [now + elapsed]
      what a later [new Date()] of the same handler returns (time may pass
      between the two calls; the environment chooses [elapsed]).
    [Env] gathers them; every handler is an [ST Env JsError] action.
    A handler reads [data] once, at its start: that is the value its
    closure captured at the last render, and it keeps using it after an
    [await]. [setData] is modelled as an immediate write. *)

From S2P Require Import Prelude Date Data Ledger Server Api Notify.

Local Open Scope Z_scope.

(** The two [localStorage] keys the hook writes; [None] is a missing key. *)
Record LocalStorage := mkLS {
  ls_transfers : option (list Transfer.t);
  ls_notifications : option (gmap string (list string))
}.

Record Env (S : Type) := mkEnv {
  remote : Remote S;
  storage : LocalStorage;
  now : Z;
  elapsed : Z;
  data : ShadowData;
  isLoaded : bool
}.
Arguments mkEnv {S} _ _ _ _ _ _.
Arguments remote {S} _.
Arguments storage {S} _.
Arguments now {S} _.
Arguments elapsed {S} _.
Arguments data {S} _.
Arguments isLoaded {S} _.

(** What [createPendingTransfer] returns:
    [{ success: true, transfer }] or [{ success: false, error }]. *)
Inductive PendingResult :=
  | PendingOk (transfer : Transfer.t)
  | PendingFailed (error : string).

(** What [createTransfer] returns: [{ success: true }] or [{ success: false, error }]. *)
Inductive TransferResult :=
  | TransferOk
  | TransferFailed (error : string).

(** [t.id === id] on transfers. *)
Definition has_trf_id (id : string) (t : Transfer.t) : bool :=
  String.eqb (Transfer.id t) id.

(** [{ total: b.total + a, available: b.available + a }] *)
Definition credit (b : Balance) (a : Z) : Balance :=
  mkBalance (total b + a) (available b + a).

(** [{ total: b.total - a, available: b.available - a }] *)
Definition debit (b : Balance) (a : Z) : Balance :=
  mkBalance (total b - a) (available b - a).

Section Hook.
Context {S : Type} `{LedgerServer S}.

Local Abbreviation M := (ST (Env S) JsError).

Definition set_remote (r : Remote S) (e : Env S) : Env S :=
  mkEnv r (storage e) (now e) (elapsed e) (data e) (isLoaded e).
Definition set_view (d : ShadowData) (loaded : bool) (e : Env S) : Env S :=
  mkEnv (remote e) (storage e) (now e) (elapsed e) d loaded.

(** An [await api.f(...)] inside a handler. *)
Definition lift {A} (m : ST (Remote S) JsError A) : M A :=
  fun e => let (r, rem') := m (remote e) in (r, set_remote rem' e).

(** The [data] the handler's closure captured. *)
Definition get_data : M ShadowData := fun e => (inr (data e), e).

(** [loadData]: fetch the transactions and balances, read transfers and
    notifications from [localStorage]; on any error fall back to
    [INITIAL_DATA]. Either way [isLoaded] becomes true. *)
Definition loadData : M unit :=
  st_catch
    (do transactions <- lift getAllTransactions;
     do balances <- lift getAllBalances;
     fun e =>
       let transfers := ls_transfers (storage e) ||| [] in
       let notifications := ls_notifications (storage e) ||| Data.notifications INITIAL_DATA in
       (inr tt, set_view (mkData transactions balances transfers notifications) true e))
    (fun _ => st_modify (set_view INITIAL_DATA true)).

(** The hook's first render: [useState<ShadowData>(INITIAL_DATA)] and
    [useState(false)], over the server, storage and clock of the page. *)
Definition first_render (r : Remote S) (ls : LocalStorage) (clock lag : Z) : Env S :=
  mkEnv r ls clock lag INITIAL_DATA false.

(** The mount effect [useEffect(() => { loadData() }, [loadData])]: it
    runs once, since [loadData] is a [useCallback] without dependencies. *)
Definition mount (r : Remote S) (ls : LocalStorage) (clock lag : Z) : Env S :=
  snd (loadData (first_render r ls clock lag)).

(** [saveLocalData(newData)] *)
Definition saveLocalData (newData : ShadowData) : M unit :=
  st_modify (fun e =>
    mkEnv (remote e) (mkLS (Some (transfers newData)) (Some (notifications newData)))
          (now e) (elapsed e) newData (isLoaded e)).

(** [createTransaction(accountId, amount)] *)
Definition createTransaction (accountId : string) (amount : Z) : M Transaction.t :=
  do d <- get_data;
  do transaction <- lift (createCredit accountId amount);
  do _ <- saveLocalData
    (mkData (transactions d ++ [transaction]) (balances d) (transfers d)
            (notify (notifications d) accountId (msg_deposit_confirming amount)));
  do _ <- loadData;
  st_ret transaction.

(** The common body of [postTransaction] and [reverseTransaction]: call
    the API, find the transaction in the captured [data] (return if it is
    absent), replace it by the server's answer, notify, reload. *)
Definition settleTransaction (call : string -> ST (Remote S) JsError Transaction.t)
    (msg : Z -> string) (transactionId : string) : M unit :=
  do d <- get_data;
  do updatedTransaction <- lift (call transactionId);
  match js_find (has_id transactionId) (transactions d) with
  | None => st_ret tt
  | Some transaction =>
      do _ <- saveLocalData
        (mkData (map (fun t => if has_id transactionId t then updatedTransaction else t)
                     (transactions d))
                (balances d) (transfers d)
                (notify (notifications d) (Transaction.accountId transaction)
                        (msg (Transaction.amount transaction))));
      loadData
  end.

(** [postTransaction(transactionId)] *)
Definition postTransaction : string -> M unit :=
  settleTransaction api.postTransaction msg_deposit_available.

(** [reverseTransaction(transactionId)] *)
Definition reverseTransaction : string -> M unit :=
  settleTransaction api.reverseTransaction msg_deposit_reversed.
End Hook.

(** ** The transfer handlers

    They do not call the server: they read the captured [data] and write
    [data] and [localStorage] through [saveLocalData]. The state they
    change is [ShadowData]; [Date.now()] is the [now] of the environment
    and a later [new Date()] is [now + elapsed]. *)
Section Transfers.
Context {S : Type} `{LedgerServer S}.

Local Abbreviation M := (ST (Env S) JsError).

(** [createPendingTransfer(from, to, amount)], as a function of the captured
    data and the two clock readings, [Date.now()] for the id ([clock]) and
    [new Date()] for the timestamp ([stamp]): the result and the data to
    save, if any. *)
Definition pendingTransfer (d : ShadowData) (clock stamp : Z) (from to : string) (amount : Z)
    : PendingResult * option ShadowData :=
  let fromBalance := balance_of d from in
  if available fromBalance <? amount then
    (PendingFailed "Insufficient available balance", None)
  else
    let transfer := Transfer.mk ("trf-" +:+ pretty clock) from to amount
                                Transfer.TRANSFER pending (toISOString stamp) in
    let toBalance := balance_of d to in
    (PendingOk transfer,
     Some (mkData (transactions d)
             (<[to := toBalance]> (<[from := debit fromBalance amount]> (balances d)))
             (transfers d ++ [transfer])
             (notify2 (notifications d) from (msg_sent_pending amount to)
                                        to (msg_incoming_processing amount from)))).

Definition createPendingTransfer (from to : string) (amount : Z) : M PendingResult :=
  fun e =>
    match pendingTransfer (data e) (now e) (now e + elapsed e) from to amount with
    | (r, None) => (inr r, e)
    | (r, Some d') => (inr r, snd (saveLocalData d' e))
    end.

(** [postTransfer(transferId)] on the captured data: [None] when the id is
    unknown (the early [return]). *)
Definition postTransferData (d : ShadowData) (transferId : string) : option ShadowData :=
  match js_find (has_trf_id transferId) (transfers d) with
  | None => None
  | Some transfer =>
      let to := Transfer.to transfer in
      Some (mkData (transactions d)
              (<[to := credit (balance_of d to) (Transfer.amount transfer)]> (balances d))
              (map_where (has_trf_id transferId) (Transfer.with_status posted) (transfers d))
              (notify (notifications d) to
                 (msg_incoming_available (Transfer.amount transfer) (Transfer.from transfer))))
  end.

(** [reverseTransfer(transferId)] on the captured data. *)
Definition reverseTransferData (d : ShadowData) (transferId : string) : option ShadowData :=
  match js_find (has_trf_id transferId) (transfers d) with
  | None => None
  | Some transfer =>
      let from := Transfer.from transfer in
      let to := Transfer.to transfer in
      let amount := Transfer.amount transfer in
      Some (mkData (transactions d)
              (<[from := credit (balance_of d from) amount]> (balances d))
              (map_where (has_trf_id transferId) (Transfer.with_status reversed) (transfers d))
              (notify2 (notifications d) from (msg_transfer_reversed amount to)
                                        to (msg_incoming_reversed amount from)))
  end.

(** Run a data update computed from the captured data, saving it if any. *)
Definition save_opt (f : ShadowData -> option ShadowData) : M unit :=
  fun e =>
    match f (data e) with
    | None => (inr tt, e)
    | Some d' => saveLocalData d' e
    end.

Definition postTransfer (transferId : string) : M unit :=
  save_opt (fun d => postTransferData d transferId).

Definition reverseTransfer (transferId : string) : M unit :=
  save_opt (fun d => reverseTransferData d transferId).

(** [createTransfer(from, to, amount)]: a transfer created already posted,
    debiting [from] and crediting [to] at once. *)
Definition immediateTransfer (d : ShadowData) (clock stamp : Z) (from to : string) (amount : Z)
    : TransferResult * option ShadowData :=
  let fromBalance := balance_of d from in
  if available fromBalance <? amount then
    (TransferFailed "You can't send shadow funds until they're confirmed.", None)
  else
    let transfer := Transfer.mk ("trf-" +:+ pretty clock) from to amount
                                Transfer.TRANSFER posted (toISOString stamp) in
    let toBalance := balance_of d to in
    (TransferOk,
     Some (mkData (transactions d)
             (<[to := credit toBalance amount]> (<[from := debit fromBalance amount]> (balances d)))
             (transfers d ++ [transfer])
             (notify2 (notifications d) from (msg_sent amount to)
                                        to (msg_received amount from)))).

Definition createTransfer (from to : string) (amount : Z) : M TransferResult :=
  fun e =>
    match immediateTransfer (data e) (now e) (now e + elapsed e) from to amount with
    | (r, None) => (inr r, e)
    | (r, Some d') => (inr r, snd (saveLocalData d' e))
    end.
End Transfers.

(** ** Views used by the statements *)

(** The transfer [createPendingTransfer] creates when [Date.now()] reads
    [clock] and [new Date()] reads [stamp]. *)
Definition created_transfer (clock stamp : Z) (from to : string) (amount : Z) : Transfer.t :=
  Transfer.mk ("trf-" +:+ pretty clock) from to amount Transfer.TRANSFER pending (toISOString stamp).

(** Its id is fresh among the stored transfers. *)
Definition fresh_transfer_id (d : ShadowData) (clock : Z) : Prop :=
  forall x, x ∈ transfers d -> Transfer.id x <> "trf-" +:+ pretty clock.

Section Views.
Context {S : Type} `{LedgerServer S}.

(** The data [loadData] installs when the network is up. *)
Definition loaded_view (e : Env S) : ShadowData :=
  let txs := get_transactions (server (remote e)) in
  mkData txs (derived_balances txs)
    (ls_transfers (storage e) ||| [])
    (ls_notifications (storage e) ||| notifications INITIAL_DATA).

(** The balance the server's table gives an account. *)
Definition server_balance (e : Env S) (acc : string) : Balance :=
  calculateBalanceFromLedger (ledger_rows acc (get_transactions (server (remote e)))).

End Views.

(** ** Lemmas on the handlers *)

Lemma balance_of_mkData_insert_eq ts m tr ns k v :
  balance_of (mkData ts (<[k := v]> m) tr ns) k = v.
Proof. unfold balance_of; simpl. by rewrite lookup_insert_eq. Qed.

Lemma balance_of_mkData_insert_ne ts m tr ns k k' v :
  k <> k' -> balance_of (mkData ts (<[k := v]> m) tr ns) k' = balance_of (mkData ts m tr ns) k'.
Proof. intros Hne. unfold balance_of; simpl. by rewrite lookup_insert_ne. Qed.

Lemma balance_of_mkData ts m tr ns k : balance_of (mkData ts m tr ns) k = m !! k ||| zero_balance.
Proof. done. Qed.

#[export] Hint Rewrite balance_of_mkData_insert_eq : shadow_rw.

(** Rewrites the balance lookups of a [mkData] built by nested inserts. *)
Ltac simpl_balances :=
  repeat first
    [ progress cbn [data snd fst]
    | rewrite balance_of_mkData_insert_eq
    | rewrite balance_of_mkData_insert_ne by congruence
    | rewrite lookup_insert_eq
    | rewrite lookup_insert_ne by congruence ].

Lemma has_trf_id_with_status id st t :
  has_trf_id id (Transfer.with_status st t) = has_trf_id id t.
Proof. by destruct t. Qed.

Lemma credit_debit b a : credit (debit b a) a = b.
Proof. destruct b. unfold credit, debit; simpl. f_equal; lia. Qed.

Lemma Transfer_with_status_fields st t :
  Transfer.from (Transfer.with_status st t) = Transfer.from t /\
  Transfer.to (Transfer.with_status st t) = Transfer.to t /\
  Transfer.amount (Transfer.with_status st t) = Transfer.amount t /\
  Transfer.status (Transfer.with_status st t) = st.
Proof. by destruct t. Qed.

Section HookFacts.
Context {S : Type} `{LedgerServer S}.

Lemma saveLocalData_run d (e : Env S) :
  saveLocalData d e =
    (inr tt, mkEnv (remote e) (mkLS (Some (transfers d)) (Some (notifications d))) (now e) (elapsed e) d (isLoaded e)).
Proof. done. Qed.

(** The successful branch of [createPendingTransfer], as one equation. *)
Lemma createPendingTransfer_ok from to amount (e : Env S) :
  amount <= available (balance_of (data e) from) ->
  createPendingTransfer from to amount e =
    (inr (PendingOk (created_transfer (now e) (now e + elapsed e) from to amount)),
     snd (saveLocalData
       (mkData (transactions (data e))
          (<[to := balance_of (data e) to]>
             (<[from := debit (balance_of (data e) from) amount]> (balances (data e))))
          (transfers (data e) ++ [created_transfer (now e) (now e + elapsed e) from to amount])
          (notify2 (notifications (data e)) from (msg_sent_pending amount to)
                                            to (msg_incoming_processing amount from))) e)).
Proof.
  intros Hle. unfold createPendingTransfer, pendingTransfer.
  by destruct (Z.ltb_spec (available (balance_of (data e) from)) amount); [lia|].
Qed.

(** The branch of [postTransfer] that finds the transfer. *)
Lemma postTransfer_ok id t (e : Env S) :
  js_find (has_trf_id id) (transfers (data e)) = Some t ->
  postTransfer id e =
    saveLocalData
      (mkData (transactions (data e))
         (<[Transfer.to t := credit (balance_of (data e) (Transfer.to t)) (Transfer.amount t)]>
            (balances (data e)))
         (map_where (has_trf_id id) (Transfer.with_status posted) (transfers (data e)))
         (notify (notifications (data e)) (Transfer.to t)
            (msg_incoming_available (Transfer.amount t) (Transfer.from t)))) e.
Proof. intros Hf. unfold postTransfer, save_opt, postTransferData. by rewrite Hf. Qed.

(** The branch of [reverseTransfer] that finds the transfer. *)
Lemma reverseTransfer_ok id t (e : Env S) :
  js_find (has_trf_id id) (transfers (data e)) = Some t ->
  reverseTransfer id e =
    saveLocalData
      (mkData (transactions (data e))
         (<[Transfer.from t := credit (balance_of (data e) (Transfer.from t)) (Transfer.amount t)]>
            (balances (data e)))
         (map_where (has_trf_id id) (Transfer.with_status reversed) (transfers (data e)))
         (notify2 (notifications (data e))
            (Transfer.from t) (msg_transfer_reversed (Transfer.amount t) (Transfer.to t))
            (Transfer.to t) (msg_incoming_reversed (Transfer.amount t) (Transfer.from t)))) e.
Proof. intros Hf. unfold reverseTransfer, save_opt, reverseTransferData. by rewrite Hf. Qed.

(** After a settlement, the same id finds the same transfer, updated. *)
Lemma find_after_settle id t st (l : list Transfer.t) :
  js_find (has_trf_id id) l = Some t ->
  js_find (has_trf_id id) (map_where (has_trf_id id) (Transfer.with_status st) l) =
    Some (Transfer.with_status st t).
Proof. intros Hf. rewrite js_find_map_where, Hf; [done|]. apply has_trf_id_with_status. Qed.

Lemma find_created from to amount (e : Env S) :
  fresh_transfer_id (data e) (now e) ->
  js_find (has_trf_id ("trf-" +:+ pretty (now e)))
    (transfers (data e) ++ [created_transfer (now e) (now e + elapsed e) from to amount]) =
    Some (created_transfer (now e) (now e + elapsed e) from to amount).
Proof.
  intros Hfresh. apply js_find_app_last; [|apply String.eqb_refl].
  intros y Hy. apply String.eqb_neq, Hfresh, Hy.
Qed.

(** A successful [createPendingTransfer] appends the transfer of the two
    clock readings and leaves the clock as it was. *)
Lemma createPendingTransfer_PendingOk from to amount (e e' : Env S) t :
  createPendingTransfer from to amount e = (inr (PendingOk t), e') ->
  t = created_transfer (now e) (now e + elapsed e) from to amount /\
  now e' = now e /\ elapsed e' = elapsed e /\ transfers (data e') = transfers (data e) ++ [t].
Proof. unfold createPendingTransfer, pendingTransfer. by destruct (_ <? _); intros [= <- <-]. Qed.

(** C17. Ids made from [Date.now()] collide: two transfers created while
    the clock reads the same millisecond get the same id [trf-<now>], and
    posting that id marks both [posted] while only the first one's
    receiver is credited, by the first one's amount. *)
Theorem same_ms_transfers_share_id from1 to1 a1 from2 to2 a2 (e e1 e2 : Env S) t1 t2 :
  fresh_transfer_id (data e) (now e) ->
  createPendingTransfer from1 to1 a1 e = (inr (PendingOk t1), e1) ->
  createPendingTransfer from2 to2 a2 e1 = (inr (PendingOk t2), e2) ->
  Transfer.id t1 = Transfer.id t2 /\
  let d3 := data (snd (postTransfer (Transfer.id t1) e2)) in
  transfers d3 = transfers (data e) ++ [Transfer.with_status posted t1; Transfer.with_status posted t2] /\
  balances d3 = <[to1 := credit (balance_of (data e2) to1) a1]> (balances (data e2)).
Proof.
  intros Hfresh (-> & Hn1 & Hl1 & Ht1)%createPendingTransfer_PendingOk
    (-> & Hn2 & Hl2 & Ht2)%createPendingTransfer_PendingOk.
  rewrite Hn1, Hl1. split; [done|]. simpl Transfer.id.
  rewrite (postTransfer_ok _ (created_transfer (now e) (now e + elapsed e) from1 to1 a1)).
  - simpl. rewrite Ht2, Ht1, <- app_assoc, map_where_app, map_where_id.
    + unfold map_where, has_trf_id. simpl. rewrite Hn1, Hl1, !String.eqb_refl. done.
    + intros y Hy. apply String.eqb_neq, Hfresh, Hy.
  - rewrite Ht2, Ht1. apply js_find_app_l, find_created, Hfresh.
Qed.

(** C9. [createPendingTransfer] with an amount above the sender's available
    balance returns [{ success: false }] and changes nothing. *)
Theorem createPendingTransfer_insufficient from to amount (e : Env S) :
  available (balance_of (data e) from) < amount ->
  createPendingTransfer from to amount e =
    (inr (PendingFailed "Insufficient available balance"), e).
Proof.
  intros Hlt. unfold createPendingTransfer, pendingTransfer.
  by destruct (Z.ltb_spec (available (balance_of (data e) from)) amount); [|lia].
Qed.

(** C2. A pending transfer between two accounts, within the sender's
    available balance: the sender's [total] and [available] both drop by
    the amount at once, the receiver's balance is untouched, no other
    account changes, and a [pending] transfer is appended and saved. *)
Theorem createPendingTransfer_holds from to amount (e : Env S) :
  from <> to -> amount <= available (balance_of (data e) from) ->
  exists t e', createPendingTransfer from to amount e = (inr (PendingOk t), e') /\
    balance_of (data e') from = debit (balance_of (data e) from) amount /\
    balance_of (data e') to = balance_of (data e) to /\
    (forall acc, acc <> from -> acc <> to -> balances (data e') !! acc = balances (data e) !! acc) /\
    transfers (data e') = transfers (data e) ++ [t] /\
    Transfer.status t = pending /\ Transfer.amount t = amount /\
    ls_transfers (storage e') = Some (transfers (data e')).
Proof.
  intros Hne Hle. rewrite createPendingTransfer_ok by done.
  eexists _, _. split; [reflexivity|]. simpl. split_and!; try done; intros; by simpl_balances.
Qed.

(** [postTransfer] and [reverseTransfer] on an unknown id return without
    changing anything (the silent no-op of the specification). *)
Theorem transfer_settle_not_found id (e : Env S) :
  js_find (has_trf_id id) (transfers (data e)) = None ->
  postTransfer id e = (inr tt, e) /\ reverseTransfer id e = (inr tt, e).
Proof.
  intros Hf. unfold postTransfer, reverseTransfer, save_opt, postTransferData, reverseTransferData.
  by rewrite Hf.
Qed.

(** C7. Posting a transfer credits its receiver's [total] and [available]
    by the amount, leaves every other account (the sender included, when
    it is another account) unchanged, and marks the transfer [posted]. *)
Theorem postTransfer_credits id t (e : Env S) :
  js_find (has_trf_id id) (transfers (data e)) = Some t ->
  exists e', postTransfer id e = (inr tt, e') /\
    balance_of (data e') (Transfer.to t) =
      credit (balance_of (data e) (Transfer.to t)) (Transfer.amount t) /\
    (forall acc, acc <> Transfer.to t -> balances (data e') !! acc = balances (data e) !! acc) /\
    transfers (data e') = map_where (has_trf_id id) (Transfer.with_status posted) (transfers (data e)).
Proof.
  intros Hf. rewrite (postTransfer_ok id t) by done.
  eexists. split; [reflexivity|]. simpl. split_and!; try done; intros; by simpl_balances.
Qed.

(** C8. Reversing a transfer, pending or posted, credits its sender back
    by the amount and touches no other balance: in particular the
    receiver of an already posted transfer keeps the credit (no
    claw-back, section 4.3 of the specification). *)
Theorem reverseTransfer_refunds id t (e : Env S) :
  js_find (has_trf_id id) (transfers (data e)) = Some t ->
  exists e', reverseTransfer id e = (inr tt, e') /\
    balance_of (data e') (Transfer.from t) =
      credit (balance_of (data e) (Transfer.from t)) (Transfer.amount t) /\
    (forall acc, acc <> Transfer.from t -> balances (data e') !! acc = balances (data e) !! acc) /\
    transfers (data e') = map_where (has_trf_id id) (Transfer.with_status reversed) (transfers (data e)).
Proof.
  intros Hf. rewrite (reverseTransfer_ok id t) by done.
  eexists. split; [reflexivity|]. simpl. split_and!; try done; intros; by simpl_balances.
Qed.

(** C11. The scenario of section 8 with a reversal: a pending transfer
    between two accounts, reversed, leaves both balances as they were. *)
Theorem pending_then_reverse_restores from to amount (e : Env S) :
  from <> to -> amount <= available (balance_of (data e) from) ->
  fresh_transfer_id (data e) (now e) ->
  exists t e1 e2,
    createPendingTransfer from to amount e = (inr (PendingOk t), e1) /\
    reverseTransfer (Transfer.id t) e1 = (inr tt, e2) /\
    balance_of (data e2) from = balance_of (data e) from /\
    balance_of (data e2) to = balance_of (data e) to.
Proof.
  intros Hne Hle Hfresh. rewrite createPendingTransfer_ok by done.
  eexists _, _, _. split; [reflexivity|].
  rewrite (reverseTransfer_ok _ (created_transfer (now e) (now e + elapsed e) from to amount)) by apply find_created, Hfresh.
  split; [reflexivity|]. simpl. simpl_balances. by rewrite credit_debit.
Qed.

(** C10. The scenario of section 8 with a post: a pending transfer between
    two accounts, posted, leaves the sender debited and the receiver
    credited by the amount. *)
Theorem pending_then_post_moves from to amount (e : Env S) :
  from <> to -> amount <= available (balance_of (data e) from) ->
  fresh_transfer_id (data e) (now e) ->
  exists t e1 e2,
    createPendingTransfer from to amount e = (inr (PendingOk t), e1) /\
    postTransfer (Transfer.id t) e1 = (inr tt, e2) /\
    balance_of (data e2) from = debit (balance_of (data e) from) amount /\
    balance_of (data e2) to = credit (balance_of (data e) to) amount.
Proof.
  intros Hne Hle Hfresh. rewrite createPendingTransfer_ok by done.
  eexists _, _, _. split; [reflexivity|].
  rewrite (postTransfer_ok _ (created_transfer (now e) (now e + elapsed e) from to amount)) by apply find_created, Hfresh.
  split; [reflexivity|]. simpl. by simpl_balances.
Qed.

(** C14. [reverseTransfer] does not check the status: reversing the same
    transfer twice refunds the sender twice, although after the first
    call the transfer is already [reversed]. *)
Theorem reverseTransfer_twice_refunds_twice id t (e : Env S) :
  js_find (has_trf_id id) (transfers (data e)) = Some t ->
  exists e1 e2, reverseTransfer id e = (inr tt, e1) /\ reverseTransfer id e1 = (inr tt, e2) /\
    js_find (has_trf_id id) (transfers (data e1)) = Some (Transfer.with_status reversed t) /\
    balance_of (data e2) (Transfer.from t) =
      credit (credit (balance_of (data e) (Transfer.from t)) (Transfer.amount t)) (Transfer.amount t).
Proof.
  intros Hf. rewrite (reverseTransfer_ok id t) by done.
  eexists _, _. split; [reflexivity|].
  rewrite (reverseTransfer_ok id (Transfer.with_status reversed t)) by (simpl; by apply find_after_settle).
  split; [reflexivity|]. simpl. split; [by apply find_after_settle|].
  by simpl_balances.
Qed.

(** C15. [postTransfer] does not check the status either: a reversed
    transfer can be posted afterwards. It becomes [posted] again and its
    receiver is credited, while its sender keeps the refund. *)
Theorem postTransfer_after_reverse id t (e : Env S) :
  js_find (has_trf_id id) (transfers (data e)) = Some t ->
  Transfer.from t <> Transfer.to t ->
  exists e1 e2, reverseTransfer id e = (inr tt, e1) /\ postTransfer id e1 = (inr tt, e2) /\
    js_find (has_trf_id id) (transfers (data e2)) = Some (Transfer.with_status posted t) /\
    balance_of (data e2) (Transfer.from t) =
      credit (balance_of (data e) (Transfer.from t)) (Transfer.amount t) /\
    balance_of (data e2) (Transfer.to t) =
      credit (balance_of (data e) (Transfer.to t)) (Transfer.amount t).
Proof.
  intros Hf Hne. rewrite (reverseTransfer_ok id t) by done.
  eexists _, _. split; [reflexivity|].
  rewrite (postTransfer_ok id (Transfer.with_status reversed t)) by (simpl; by apply find_after_settle).
  split; [reflexivity|]. simpl.
  split_and!; [|by simpl_balances|by simpl_balances].
  erewrite find_after_settle; [|by apply find_after_settle]. by destruct t.
Qed.

(** C16. [createPendingTransfer] does not reject a transfer to the sender
    itself: the transfer is recorded [pending] but the later write of the
    receiver's untouched balance undoes the sender's debit, so reversing it
    afterwards credits the account with money that never left it. *)
Theorem self_transfer_then_reverse_mints acc amount (e : Env S) :
  amount <= available (balance_of (data e) acc) ->
  fresh_transfer_id (data e) (now e) ->
  exists t e1 e2,
    createPendingTransfer acc acc amount e = (inr (PendingOk t), e1) /\
    Transfer.status t = pending /\
    balance_of (data e1) acc = balance_of (data e) acc /\
    reverseTransfer (Transfer.id t) e1 = (inr tt, e2) /\
    balance_of (data e2) acc = credit (balance_of (data e) acc) amount.
Proof.
  intros Hle Hfresh. rewrite createPendingTransfer_ok by done.
  eexists _, _, _. split; [reflexivity|].
  rewrite (reverseTransfer_ok _ (created_transfer (now e) (now e + elapsed e) acc acc amount)) by apply find_created, Hfresh.
  unfold saveLocalData, st_modify; simpl.
  split_and!; [done|by simpl_balances|reflexivity|by simpl_balances].
Qed.
End HookFacts.

(** ** Reloading from the server *)

Lemma ledger_rows_notin acc l :
  acc ∉ map Transaction.accountId l -> ledger_rows acc l = [].
Proof.
  induction l as [|t l IH]; intros Hn; [done|]. unfold ledger_rows in *. simpl in *.
  rewrite filter_cons. case_decide; [set_solver|]. apply IH. set_solver.
Qed.

(** The hook's view of an account after a reload is the replay of that
    account's rows, also for an account with no credit at all. *)
Lemma derived_balance_of ts tr ns l acc :
  balance_of (mkData ts (derived_balances l) tr ns) acc =
  calculateBalanceFromLedger (ledger_rows acc l).
Proof.
  unfold balance_of; simpl. rewrite derived_balances_lookup.
  case_decide as Hin; [done|]. by rewrite ledger_rows_notin.
Qed.

Lemma calc_rows_pending_credit acc t :
  Transaction.accountId t = acc -> Transaction.status t = pending ->
  calculateBalanceFromLedger (ledger_rows acc [t]) = mkBalance (Transaction.amount t) 0.
Proof.
  intros Hacc Hst. unfold ledger_rows. rewrite filter_cons_True by done. simpl.
  unfold calculateBalanceFromLedger, add_entry. simpl. rewrite Hst. simpl. f_equal; lia.
Qed.

Lemma calc_rows_other acc t :
  Transaction.accountId t <> acc -> ledger_rows acc [t] = [].
Proof. intros Hne. unfold ledger_rows. by rewrite filter_cons_False. Qed.

Section LoadFacts.
Context {S : Type} `{LedgerServer S} `{!LedgerServerSpec S}.

(** [loadData] as one equation: the loaded view when the network is up,
    [INITIAL_DATA] otherwise; nothing is thrown and [isLoaded] is set. *)
Lemma loadData_run (e : Env S) :
  loadData e =
    (inr tt, set_view (if online (remote e) then loaded_view e else INITIAL_DATA) true e).
Proof.
  unfold loadData, st_catch, st_bind, lift, getAllTransactions, fetch_get, st_modify.
  destruct (online (remote e)) eqn:Hon.
  - simpl. rewrite (getAllBalances_run (remote e) Hon). done.
  - done.
Qed.

(** C12. With the network up, [loadData] replaces every balance the hook
    shows by the replay of the server's ledger for that account, and
    reloads the transfers from [localStorage]: the holds that transfers
    wrote into [data.balances] are not part of the result, whatever the
    state before. The server and the storage are left as they were. *)
Theorem loadData_derived (e : Env S) :
  online (remote e) = true ->
  exists e', loadData e = (inr tt, e') /\ isLoaded e' = true /\
    (forall acc, balance_of (data e') acc = server_balance e acc) /\
    transfers (data e') = ls_transfers (storage e) ||| [] /\
    remote e' = remote e /\ storage e' = storage e.
Proof.
  intros Hon. rewrite loadData_run, Hon. eexists. split; [reflexivity|].
  split_and!; try done. intros acc. apply derived_balance_of.
Qed.
(** Before the mount effect the hook shows [INITIAL_DATA], not loaded;
    after it, the loaded view when the network is up and [INITIAL_DATA]
    otherwise, loaded either way, with the server, storage and clock of
    the page untouched. *)
Lemma mount_view (r : Remote S) ls clock lag :
  isLoaded (first_render r ls clock lag) = false /\
  mount r ls clock lag =
    mkEnv r ls clock lag (if online r then loaded_view (first_render r ls clock lag) else INITIAL_DATA) true.
Proof. split; [done|]. unfold mount. by rewrite loadData_run. Qed.
End LoadFacts.

Section TransactionFacts.
Context {S : Type} `{LedgerServer S} `{!LedgerServerSpec S}.

(** C4. [createTransaction] with a positive amount and the network up:
    the server stores a [pending] credit, and after the reload the
    account's [total] has grown by the amount while its [available] has
    not; every other account shows its server balance; the transfers are
    kept and the deposit message is appended to the account's
    notifications. *)
Theorem createTransaction_pending acc amount (e : Env S) :
  online (remote e) = true -> 0 < amount ->
  exists tx e', createTransaction acc amount e = (inr tx, e') /\
    Transaction.status tx = pending /\
    balance_of (data e') acc =
      mkBalance (total (server_balance e acc) + amount) (available (server_balance e acc)) /\
    (forall acc', acc' <> acc -> balance_of (data e') acc' = server_balance e acc') /\
    transfers (data e') = transfers (data e) /\
    notifications (data e') =
      notify (notifications (data e)) acc (msg_deposit_confirming amount).
Proof.
  intros Hon Ha. destruct (createCredit_valid acc amount (remote e) Hon Ha)
    as (tx & s' & Hc & Hacc & Hamt & Hst & Htx).
  unfold createTransaction, st_bind, get_data, lift. rewrite Hc.
  unfold saveLocalData, st_modify. rewrite loadData_run. simpl.
  eexists _, _. split; [reflexivity|]. unfold server_balance.
  split_and!; [done| | |done|done]; unfold loaded_view; simpl; [|intros acc' Hne];
    rewrite derived_balance_of, Htx, ledger_rows_app, calculateBalanceFromLedger_app.
  - rewrite calc_rows_pending_credit by done. unfold balance_add; simpl. rewrite Hamt. f_equal; lia.
  - rewrite calc_rows_other by congruence.
    destruct (calculateBalanceFromLedger _); unfold balance_add; simpl. f_equal; lia.
Qed.

(** C18. A non-positive amount is refused by the server: [createTransaction]
    throws and nothing changes, neither the server nor the hook's state. *)
Theorem createTransaction_invalid acc amount (e : Env S) :
  online (remote e) = true -> amount <= 0 ->
  createTransaction acc amount e = (inl (HttpError "Failed to create credit" InvalidAmount), e).
Proof.
  intros Hon Ha. unfold createTransaction, st_bind, get_data, lift, createCredit, fetch_post.
  rewrite Hon, credit_invalid by done. by destruct e as [[] ? ? ? ?]; simpl in *; subst.
Qed.

(** C29. A [loadData] that fails because the network is down leaves the
    hook on [INITIAL_DATA], whose transfer list is empty; the next
    successful [createTransaction] saves that view to [localStorage], so
    every stored transfer, pending holds included, is lost for good. *)
Theorem createTransaction_after_offline_load_wipes acc amount (e : Env S) :
  online (remote e) = false -> 0 < amount ->
  exists tx e', createTransaction acc amount
      (set_remote (mkRemote (server (remote e)) true) (snd (loadData e))) = (inr tx, e') /\
    ls_transfers (storage e') = Some [] /\ transfers (data e') = [].
Proof.
  intros Hoff Ha. rewrite loadData_run, Hoff.
  set (e1 := set_remote _ _).
  destruct (createCredit_valid acc amount (remote e1) eq_refl Ha) as (tx & s' & Hc & _).
  unfold createTransaction, st_bind, get_data, lift. rewrite Hc.
  unfold saveLocalData, st_modify. rewrite loadData_run. simpl. eauto.
Qed.
End TransactionFacts.

Section SettleFacts.
Context {S : Type} `{LedgerServer S} `{!LedgerServerSpec S}.

Lemma postTransaction_route id t (r : Remote S) :
  online r = true -> js_find (has_id id) (get_transactions (server r)) = Some t ->
  Transaction.status t <> reversed ->
  exists s', api.postTransaction id r = (inr (Transaction.with_status posted t), mkRemote s' true) /\
    get_transactions s' =
      map_where (has_id id) (Transaction.with_status posted) (get_transactions (server r)).
Proof.
  intros Hon Hf Hr. unfold api.postTransaction, fetch_post. rewrite Hon.
  destruct (post_route (server r) id) as [res s'] eqn:Hp. apply post_spec in Hp.
  unfold transition_result in Hp. rewrite Hf in Hp. case_decide; [done|].
  destruct Hp as [-> ?]. eauto.
Qed.

Lemma reverseTransaction_route id t (r : Remote S) :
  online r = true -> js_find (has_id id) (get_transactions (server r)) = Some t ->
  Transaction.status t <> reversed ->
  exists s', api.reverseTransaction id r = (inr (Transaction.with_status reversed t), mkRemote s' true) /\
    get_transactions s' =
      map_where (has_id id) (Transaction.with_status reversed) (get_transactions (server r)).
Proof.
  intros Hon Hf Hr. unfold api.reverseTransaction, fetch_post. rewrite Hon.
  destruct (reverse_route (server r) id) as [res s'] eqn:Hp. apply reverse_spec in Hp.
  unfold transition_result in Hp. rewrite Hf in Hp. case_decide; [done|].
  destruct Hp as [-> ?]. eauto.
Qed.

(** C5. Posting a pending credit known to the hook, with the network up
    and unique ids on the server: after the reload the account's
    [available] has grown by the amount and its [total] is unchanged;
    every other account shows its server balance. *)
Theorem postTransaction_available id t tl (e : Env S) :
  online (remote e) = true -> ids_unique (get_transactions (server (remote e))) ->
  js_find (has_id id) (get_transactions (server (remote e))) = Some t ->
  Transaction.status t = pending ->
  js_find (has_id id) (transactions (data e)) = Some tl ->
  exists e', postTransaction id e = (inr tt, e') /\
    balance_of (data e') (Transaction.accountId t) =
      mkBalance (total (server_balance e (Transaction.accountId t)))
                (available (server_balance e (Transaction.accountId t)) + Transaction.amount t) /\
    (forall acc, acc <> Transaction.accountId t -> balance_of (data e') acc = server_balance e acc).
Proof.
  intros Hon Hu Hf Hst Hl.
  destruct (postTransaction_route id t (remote e) Hon Hf) as (s' & Hp & Htx); [congruence|].
  unfold postTransaction, settleTransaction, st_bind, get_data, lift. rewrite Hp, Hl.
  unfold saveLocalData, st_modify. rewrite loadData_run. simpl.
  eexists. split; [reflexivity|]. unfold loaded_view, server_balance; simpl.
  split; [|intros acc Hne]; rewrite derived_balance_of, Htx, (transition_balance _ _ _ t) by done;
    case_decide; try congruence.
  rewrite !calc_rows_single by (by destruct t). destruct t; simpl in *; subst.
  destruct (calculateBalanceFromLedger _). unfold balance_add; simpl. f_equal; lia.
Qed.

(** C6. Reversing a credit that is not yet reversed, with the network up
    and unique ids on the server: after the reload the account no longer
    counts it, in [total] nor (if it was posted) in [available]; every
    other account shows its server balance. *)
Theorem reverseTransaction_removes id t tl (e : Env S) :
  online (remote e) = true -> ids_unique (get_transactions (server (remote e))) ->
  js_find (has_id id) (get_transactions (server (remote e))) = Some t ->
  Transaction.status t <> reversed ->
  js_find (has_id id) (transactions (data e)) = Some tl ->
  exists e', reverseTransaction id e = (inr tt, e') /\
    balance_of (data e') (Transaction.accountId t) =
      mkBalance (total (server_balance e (Transaction.accountId t)) - Transaction.amount t)
                (available (server_balance e (Transaction.accountId t)) -
                 (if decide (Transaction.status t = posted) then Transaction.amount t else 0)) /\
    (forall acc, acc <> Transaction.accountId t -> balance_of (data e') acc = server_balance e acc).
Proof.
  intros Hon Hu Hf Hst Hl.
  destruct (reverseTransaction_route id t (remote e) Hon Hf Hst) as (s' & Hp & Htx).
  unfold reverseTransaction, settleTransaction, st_bind, get_data, lift. rewrite Hp, Hl.
  unfold saveLocalData, st_modify. rewrite loadData_run. simpl.
  eexists. split; [reflexivity|]. unfold loaded_view, server_balance; simpl.
  split; [|intros acc Hne]; rewrite derived_balance_of, Htx, (transition_balance _ _ _ t) by done;
    case_decide; try congruence.
  rewrite !calc_rows_single by (by destruct t). destruct t as [? ? ? [] ?]; simpl in *; try done;
    destruct (calculateBalanceFromLedger _); unfold balance_add; simpl; f_equal; lia.
Qed.
(** A route the server refuses leaves the remote as it was. *)
Lemma route_rejected target what (route : S -> (ApiError + Transaction.t) * S) id err (r : Remote S) :
  online r = true ->
  (forall s r' s', route s = (r', s') ->
     match transition_result target (get_transactions s) id with
     | inl e => r' = inl e /\ s' = s
     | inr (t, l) => r' = inr t /\ get_transactions s' = l
     end) ->
  transition_result target (get_transactions (server r)) id = inl err ->
  fetch_post what route r = (inl (HttpError what err), r).
Proof.
  intros Hon Hspec Hres. unfold fetch_post. rewrite Hon.
  destruct (route (server r)) as [res s'] eqn:Hp. apply Hspec in Hp. rewrite Hres in Hp.
  destruct Hp as [-> ->]. destruct r; simpl in *; by subst.
Qed.

(** A call that throws without touching the remote: [settleTransaction]
    rethrows and changes nothing. *)
Lemma settle_rejected call msg id err (e : Env S) :
  call id (remote e) = (inl err, remote e) -> settleTransaction call msg id e = (inl err, e).
Proof.
  intros Hc. unfold settleTransaction, st_bind, get_data, lift. rewrite Hc. by destruct e.
Qed.

(** C31. Posting or reversing a credit the server has already reversed
    throws the server's [AlreadyReversed] error, and nothing changes: the
    server, the hook's data and [localStorage] are as before. *)
Theorem settle_already_reversed id t (e : Env S) :
  online (remote e) = true ->
  js_find (has_id id) (get_transactions (server (remote e))) = Some t ->
  Transaction.status t = reversed ->
  reverseTransaction id e = (inl (HttpError "Failed to reverse transaction" AlreadyReversed), e) /\
  postTransaction id e = (inl (HttpError "Failed to post transaction" AlreadyReversed), e).
Proof.
  intros Hon Hf Hst.
  assert (Hres : forall target, transition_result target (get_transactions (server (remote e))) id =
                                inl AlreadyReversed).
  { intros target. unfold transition_result. rewrite Hf. by rewrite decide_True. }
  split; apply settle_rejected; unfold api.reverseTransaction, api.postTransaction;
    [eapply (route_rejected reversed)|eapply (route_rejected posted)];
    solve [done | intros ???; apply reverse_spec | intros ???; apply post_spec | apply Hres].
Qed.

(** C32. Posting or reversing an id the server does not know throws
    [NotFound], and with the network down both throw [FetchFailed]; in
    either case nothing changes. *)
Theorem settle_not_found id (e : Env S) :
  (online (remote e) = true ->
   js_find (has_id id) (get_transactions (server (remote e))) = None ->
   postTransaction id e = (inl (HttpError "Failed to post transaction" NotFound), e) /\
   reverseTransaction id e = (inl (HttpError "Failed to reverse transaction" NotFound), e)) /\
  (online (remote e) = false ->
   postTransaction id e = (inl FetchFailed, e) /\ reverseTransaction id e = (inl FetchFailed, e)).
Proof.
  split.
  - intros Hon Hf.
    assert (Hres : forall target, transition_result target (get_transactions (server (remote e))) id =
                                  inl NotFound).
    { intros target. unfold transition_result. by rewrite Hf. }
    split; apply settle_rejected; unfold api.reverseTransaction, api.postTransaction;
      [eapply (route_rejected posted)|eapply (route_rejected reversed)];
      solve [done | intros ???; apply reverse_spec | intros ???; apply post_spec | apply Hres].
  - intros Hoff. split; apply settle_rejected; unfold api.postTransaction, api.reverseTransaction,
      fetch_post; by rewrite Hoff.
Qed.
End SettleFacts.
