(* ===== verification/System.v ===== *)
(** * The running system: one mounted hook, the browser and the server

    [step] is every event that can happen to a mounted [useShadowStorage]:
    one of its handlers runs to completion (the UI serialises them, one
    operation in flight at a time, section 5 of the specification), the
    clock advances (or the time that will pass between a handler's two
    clock readings changes), the network goes down or up, or another client's
    request changes the server. The invariant [inv] is the balance
    invariant of the specification, [available <= total] for every
    balance the hook holds, together with the positivity of the server's
    amounts it rests on; [inv_reachable] proves it of every reachable
    state. [credit_settles] shows that no credit is stuck: from every
    state, whatever the network, the hook settles it once the network is
    back. *)

From S2P Require Import Prelude Data Ledger Server Api Notify Store.

Local Open Scope Z_scope.

Definition set_now {S} (t : Z) (e : Env S) : Env S :=
  mkEnv (remote e) (storage e) t (elapsed e) (data e) (isLoaded e).

(** The gap a handler will see between its [Date.now()] and its later
    [new Date()]. *)
Definition set_elapsed {S} (l : Z) (e : Env S) : Env S :=
  mkEnv (remote e) (storage e) (now e) l (data e) (isLoaded e).

Definition set_online {S} (b : bool) (e : Env S) : Env S :=
  mkEnv (mkRemote (server (remote e)) b) (storage e) (now e) (elapsed e) (data e) (isLoaded e).

Definition set_server {S} (s : S) (e : Env S) : Env S :=
  mkEnv (mkRemote s (online (remote e))) (storage e) (now e) (elapsed e) (data e) (isLoaded e).

Section System.
Context {S : Type} `{LedgerServer S}.

Inductive step : Env S -> Env S -> Prop :=
  | step_loadData e r e' :
      loadData e = (r, e') -> step e e'
  | step_createTransaction acc a e r e' :
      createTransaction acc a e = (r, e') -> step e e'
  | step_postTransaction id e r e' :
      postTransaction id e = (r, e') -> step e e'
  | step_reverseTransaction id e r e' :
      reverseTransaction id e = (r, e') -> step e e'
  | step_createPendingTransfer from to a e r e' :
      createPendingTransfer from to a e = (r, e') -> step e e'
  | step_postTransfer id e r e' :
      postTransfer id e = (r, e') -> step e e'
  | step_reverseTransfer id e r e' :
      reverseTransfer id e = (r, e') -> step e e'
  | step_createTransfer from to a e r e' :
      createTransfer from to a e = (r, e') -> step e e'
  | step_tick e t :
      now e <= t -> step e (set_now t e)
  | step_elapsed e l :
      0 <= l -> step e (set_elapsed l e)
  | step_network e b :
      step e (set_online b e)
  | step_other_credit e acc a r s' :
      nip_credit (server (remote e)) acc a = (r, s') -> step e (set_server s' e)
  | step_other_post e id r s' :
      post_route (server (remote e)) id = (r, s') -> step e (set_server s' e)
  | step_other_reverse e id r s' :
      reverse_route (server (remote e)) id = (r, s') -> step e (set_server s' e).

(** Every amount the server stores is positive. *)
Definition server_ok (s : S) : Prop :=
  forall t, t ∈ get_transactions s -> 0 < Transaction.amount t.

(** Every balance the hook holds has [available <= total]. *)
Definition balances_ok (m : gmap string Balance) : Prop :=
  forall acc b, m !! acc = Some b -> available b <= total b.

Definition inv (e : Env S) : Prop :=
  server_ok (server (remote e)) /\ balances_ok (balances (data e)).
End System.

(** ** Preservation of the invariant *)

Lemma balances_ok_insert m k v :
  balances_ok m -> available v <= total v -> balances_ok (<[k := v]> m).
Proof.
  intros Hm Hv acc b. rewrite lookup_insert. case_decide; [by intros [= <-]|apply Hm].
Qed.

Lemma balance_of_ok d k :
  balances_ok (balances d) -> available (balance_of d k) <= total (balance_of d k).
Proof.
  unfold balance_of. intros Hm. destruct (balances d !! k) as [b|] eqn:Hb; simpl; [|lia].
  by apply (Hm k).
Qed.

Lemma credit_ok b a : available b <= total b -> available (credit b a) <= total (credit b a).
Proof. unfold credit; simpl; lia. Qed.

Lemma debit_ok b a : available b <= total b -> available (debit b a) <= total (debit b a).
Proof. unfold debit; simpl; lia. Qed.

#[export] Hint Resolve balances_ok_insert balance_of_ok credit_ok debit_ok : shadow.

Lemma derived_balances_ok l :
  (forall t, t ∈ l -> 0 < Transaction.amount t) -> balances_ok (derived_balances l).
Proof.
  intros Hl acc b. rewrite derived_balances_lookup. case_decide; [|done]. intros [= <-].
  apply calculateBalanceFromLedger_bounds. intros x Hx.
  unfold ledger_rows in Hx. apply list_elem_of_fmap in Hx as (t & -> & Ht).
  apply list_elem_of_filter in Ht as [_ Ht]. simpl. specialize (Hl t Ht). lia.
Qed.

Lemma empty_balances_ok : balances_ok ∅.
Proof. intros acc b. by rewrite lookup_empty. Qed.

Lemma amounts_map_where (l : list Transaction.t) id st :
  (forall t, t ∈ l -> 0 < Transaction.amount t) ->
  forall t, t ∈ map_where (has_id id) (Transaction.with_status st) l -> 0 < Transaction.amount t.
Proof.
  intros Hl t (x & -> & Hx)%list_elem_of_fmap. specialize (Hl x Hx).
  by destruct (has_id id x), x.
Qed.

Section Preservation.
Context {S : Type} `{LedgerServer S} `{!LedgerServerSpec S}.

Lemma nip_credit_ok s acc a r s' : server_ok s -> nip_credit s acc a = (r, s') -> server_ok s'.
Proof.
  intros Hs Hc. destruct (Z.le_gt_cases a 0) as [Ha|Ha].
  - rewrite credit_invalid in Hc by done. by injection Hc as _ <-.
  - destruct (credit_valid _ _ _ Ha _ _ Hc) as (tx & _ & _ & Hamt & _ & Htx).
    intros t. rewrite Htx. intros [Ht|Ht%list_elem_of_singleton]%elem_of_app; [by apply Hs|subst; lia].
Qed.

Lemma transition_ok target s id r s' :
  server_ok s ->
  match transition_result target (get_transactions s) id with
  | inl e => r = inl e /\ s' = s
  | inr (t, l) => r = inr t /\ get_transactions s' = l
  end -> server_ok s'.
Proof.
  intros Hs. destruct (transition_result _ _ _) as [err|[t l]] eqn:Htr; [by intros [_ ->]|].
  intros [_ Hl]. apply transition_result_inr in Htr as (t0 & _ & _ & _ & ->).
  intros x. rewrite Hl. by apply amounts_map_where.
Qed.

Lemma post_route_ok s id r s' : server_ok s -> post_route s id = (r, s') -> server_ok s'.
Proof. intros Hs Hp. eapply transition_ok; [exact Hs|by apply post_spec]. Qed.

Lemma reverse_route_ok s id r s' : server_ok s -> reverse_route s id = (r, s') -> server_ok s'.
Proof. intros Hs Hp. eapply transition_ok; [exact Hs|by apply reverse_spec]. Qed.

Lemma fetch_post_ok {A} what (route : S -> (ApiError + A) * S) (rem : Remote S) res rem' :
  (forall s r s', server_ok s -> route s = (r, s') -> server_ok s') ->
  server_ok (server rem) -> fetch_post what route rem = (res, rem') -> server_ok (server rem').
Proof.
  intros Hroute Hs. unfold fetch_post. destruct (online rem); [|by intros [= _ <-]].
  destruct (route (server rem)) as [[] s'] eqn:Hr; intros [= _ <-]; simpl; eauto.
Qed.

Lemma loadData_inv (e : Env S) r e' : inv e -> loadData e = (r, e') -> inv e'.
Proof.
  intros [Hs Hb]. rewrite loadData_run. intros [= _ <-]. split; [done|]. simpl.
  destruct (online (remote e)); [apply derived_balances_ok, Hs|apply empty_balances_ok].
Qed.
(** A page load starts inside the invariant when the server's credits are
    positive: the first render holds no balance, and the [loadData] of
    the mount effect keeps the invariant. *)
Lemma mount_inv (r : Remote S) ls t l :
  server_ok (server r) -> inv (first_render r ls t l) /\ inv (mount r ls t l).
Proof.
  intros Hs. assert (Hi : inv (first_render r ls t l)) by (split; [done|apply empty_balances_ok]).
  split; [done|]. unfold mount. destruct (loadData (first_render r ls t l)) eqn:E.
  by eapply loadData_inv.
Qed.
End Preservation.

(** [server_ok] after a [POST] through the client. *)
Ltac fetch_ok :=
  eapply fetch_post_ok;
  [ intros ???; first [eapply nip_credit_ok | eapply post_route_ok | eapply reverse_route_ok]
  | eassumption | eassumption ].

Section Handlers.
Context {S : Type} `{LedgerServer S} `{!LedgerServerSpec S}.

Lemma saveLocalData_inv d (e : Env S) :
  server_ok (server (remote e)) -> balances_ok (balances d) -> inv (snd (saveLocalData d e)).
Proof. by split. Qed.

Lemma createTransaction_inv acc a (e : Env S) r e' :
  inv e -> createTransaction acc a e = (r, e') -> inv e'.
Proof.
  intros [Hs Hb]. unfold createTransaction, st_bind, get_data, lift.
  destruct (createCredit acc a (remote e)) as [[err|tx] rem] eqn:Hc.
  - intros [= _ <-]. split; [fetch_ok|done].
  - unfold saveLocalData, st_modify. simpl.
    destruct (loadData _) as [[|[]] e3] eqn:Hl; intros [= _ <-];
      (eapply loadData_inv; [|exact Hl]); split; simpl; [fetch_ok|exact Hb|fetch_ok|exact Hb].
Qed.

Lemma settleTransaction_inv route what msg id (e : Env S) r e' :
  (forall s r s', server_ok s -> route s id = (r, s') -> server_ok s') ->
  inv e -> settleTransaction (fun id => fetch_post what (fun s => route s id)) msg id e = (r, e') ->
  inv e'.
Proof.
  intros Hroute [Hs Hb]. unfold settleTransaction, st_bind, get_data, lift.
  destruct (fetch_post what (fun s => route s id) (remote e)) as [[err|u] rem] eqn:Hc.
  - intros [= _ <-]. split; [|done]. eapply fetch_post_ok; [|exact Hs|exact Hc]. eauto.
  - assert (Hrem : server_ok (server rem)) by (eapply fetch_post_ok; [|exact Hs|exact Hc]; eauto).
    destruct (js_find _ _) as [t|].
    + unfold saveLocalData, st_modify. simpl. intros Hl. eapply loadData_inv; [|exact Hl]. by split.
    + intros [= _ <-]. by split.
Qed.

Lemma postTransaction_inv id (e : Env S) r e' :
  inv e -> postTransaction id e = (r, e') -> inv e'.
Proof. apply settleTransaction_inv. intros. by eapply post_route_ok. Qed.

Lemma reverseTransaction_inv id (e : Env S) r e' :
  inv e -> reverseTransaction id e = (r, e') -> inv e'.
Proof. apply settleTransaction_inv. intros. by eapply reverse_route_ok. Qed.

Lemma createPendingTransfer_inv from to a (e : Env S) r e' :
  inv e -> createPendingTransfer from to a e = (r, e') -> inv e'.
Proof.
  intros [Hs Hb]. unfold createPendingTransfer, pendingTransfer.
  destruct (_ <? _); intros [= _ <-]; [by split|]. split; simpl; eauto 6 with shadow.
Qed.

Lemma createTransfer_inv from to a (e : Env S) r e' :
  inv e -> createTransfer from to a e = (r, e') -> inv e'.
Proof.
  intros [Hs Hb]. unfold createTransfer, immediateTransfer.
  destruct (_ <? _); intros [= _ <-]; [by split|]. split; simpl; [done|].
  apply balances_ok_insert; [apply balances_ok_insert|]; auto with shadow.
Qed.

Lemma postTransfer_inv id (e : Env S) r e' :
  inv e -> postTransfer id e = (r, e') -> inv e'.
Proof.
  intros [Hs Hb]. unfold postTransfer, save_opt, postTransferData.
  destruct (js_find _ _); intros [= _ <-]; [|by split]. split; simpl; eauto with shadow.
Qed.

Lemma reverseTransfer_inv id (e : Env S) r e' :
  inv e -> reverseTransfer id e = (r, e') -> inv e'.
Proof.
  intros [Hs Hb]. unfold reverseTransfer, save_opt, reverseTransferData.
  destruct (js_find _ _); intros [= _ <-]; [|by split]. split; simpl; eauto with shadow.
Qed.

Lemma step_inv (e e' : Env S) : inv e -> step e e' -> inv e'.
Proof.
  intros Hinv Hstep. destruct Hstep.
  - by eapply loadData_inv.
  - by eapply createTransaction_inv.
  - by eapply postTransaction_inv.
  - by eapply reverseTransaction_inv.
  - by eapply createPendingTransfer_inv.
  - by eapply postTransfer_inv.
  - by eapply reverseTransfer_inv.
  - by eapply createTransfer_inv.
  - done.
  - done.
  - done.
  - destruct Hinv. split; [by eapply nip_credit_ok|done].
  - destruct Hinv. split; [by eapply post_route_ok|done].
  - destruct Hinv. split; [by eapply reverse_route_ok|done].
Qed.

(** C1. The balance invariant of the specification: in every state the
    system reaches from a state where it holds (for instance a fresh
    mount over a server with positive amounts), every balance the hook
    holds has [available <= total], whatever sequence of handlers, clock
    and network changes and requests of other clients led there. *)
Theorem inv_reachable (e0 e : Env S) :
  inv e0 -> rtc step e0 e ->
  forall acc b, balances (data e) !! acc = Some b -> available b <= total b.
Proof.
  intros H0 Hr. cut (inv e); [by intros [_ Hb]|].
  induction Hr as [|x y z Hxy _ IH]; [done|]. apply IH. by eapply step_inv.
Qed.
End Handlers.

(** ** Progress of the credits

    A credit the server holds is settled by the [POST] routes of the
    server, which the hook calls through [postTransaction] and
    [reverseTransaction]. When the network is down the calls throw and
    nothing changes; but the network can come back ([step_network]), so
    no credit is stuck: from every state, the network coming back and one
    handler settle any credit that is not yet reversed. *)

Lemma has_id_with_status id st t : has_id id (Transaction.with_status st t) = has_id id t.
Proof. by destruct t. Qed.

(** After a settlement on the server, the same id finds the same credit, updated. *)
Lemma find_credit_after id t st (l : list Transaction.t) :
  js_find (has_id id) l = Some t ->
  js_find (has_id id) (map_where (has_id id) (Transaction.with_status st) l) =
    Some (Transaction.with_status st t).
Proof. intros Hf. rewrite js_find_map_where; [by rewrite Hf|apply has_id_with_status]. Qed.

Section Progress.
Context {S : Type} `{LedgerServer S} `{!LedgerServerSpec S}.

(** When the call succeeds, [settleTransaction] returns normally and ends
    with the remote the call left, whether or not the hook's data knows
    the credit. *)
Lemma settleTransaction_remote call msg id (e : Env S) u rem :
  call id (remote e) = (inr u, rem) ->
  exists e', settleTransaction call msg id e = (inr tt, e') /\ remote e' = rem.
Proof.
  intros Hc. unfold settleTransaction, st_bind, get_data, lift. rewrite Hc.
  destruct (js_find _ _); [|by eexists]. unfold saveLocalData, st_modify. simpl.
  rewrite loadData_run. by eexists.
Qed.

(** The network comes back, then a settling handler whose call succeeds runs. *)
Lemma settle_after_network call msg id (e : Env S) u s' :
  (forall e1 r e2, settleTransaction call msg id e1 = (r, e2) -> step e1 e2) ->
  call id (remote (set_online true e)) = (inr u, mkRemote s' true) ->
  exists e', settleTransaction call msg id (set_online true e) = (inr tt, e') /\
    rtc step e e' /\ remote e' = mkRemote s' true.
Proof.
  intros Hstep Hc. destruct (settleTransaction_remote _ msg _ _ _ _ Hc) as (e' & He' & Hrem).
  exists e'. split_and!; [done| |done].
  eapply rtc_l; [apply step_network|]. eapply rtc_l; [by eapply Hstep|]. apply rtc_refl.
Qed.

(** C34. No credit is stuck: from every state, whatever the network, a
    credit the server holds that is not reversed is settled by the hook
    once the network is back: [postTransaction] (or [reverseTransaction])
    of its id returns normally, the run is one of the system, and the
    server then finds the credit under its id, posted (or reversed). *)
Theorem credit_settles (e : Env S) id t :
  js_find (has_id id) (get_transactions (server (remote e))) = Some t ->
  Transaction.status t <> reversed ->
  (exists e', postTransaction id (set_online true e) = (inr tt, e') /\ rtc step e e' /\
     js_find (has_id id) (get_transactions (server (remote e'))) =
       Some (Transaction.with_status posted t)) /\
  (exists e', reverseTransaction id (set_online true e) = (inr tt, e') /\ rtc step e e' /\
     js_find (has_id id) (get_transactions (server (remote e'))) =
       Some (Transaction.with_status reversed t)).
Proof.
  intros Hf Hr. split.
  - destruct (postTransaction_route id t (remote (set_online true e)) eq_refl Hf Hr)
      as (s' & Hp & Hl).
    destruct (settle_after_network _ _ id e _ _ (fun e1 r e2 => step_postTransaction id e1 r e2) Hp)
      as (e' & Hrun & Hsteps & Hrem).
    exists e'. rewrite Hrem. split_and!; [done|done|]. simpl. rewrite Hl. by apply find_credit_after.
  - destruct (reverseTransaction_route id t (remote (set_online true e)) eq_refl Hf Hr)
      as (s' & Hp & Hl).
    destruct (settle_after_network _ _ id e _ _ (fun e1 r e2 => step_reverseTransaction id e1 r e2) Hp)
      as (e' & Hrun & Hsteps & Hrem).
    exists e'. rewrite Hrem. split_and!; [done|done|]. simpl. rewrite Hl. by apply find_credit_after.
Qed.
End Progress.
