(* ===== verification/Stamps.v ===== *)
(** * The form of the stored transfers

    [createPendingTransfer] and [createTransfer] of
    [src/hooks/use-shadow-storage.ts] build a transfer with the id
    [`trf-${Date.now()}`] and the timestamp [new Date().toISOString()],
    two readings of the clock, the second one later: [now] and
    [now + elapsed] of the environment. Every other handler either keeps
    the transfers, replaces one by a copy with another status, or reloads
    them from [localStorage], where [saveLocalData] wrote them. So every
    transfer the hook holds, in [data] or in storage, has an id
    [trf-<n>], [n] a reading of the clock that is not in the future, and
    a timestamp that [new Date(s).getTime()] maps to a time [m >= n]:
    the two need not agree, since the clock may pass a millisecond
    between the two calls. [stamps_reachable] proves it of every state
    the system reaches while the time a handler would stamp stays in the
    years 0 to 9999 ([clock_ok]), where [toISOString] prints the
    four-digit form that parses back. *)

From S2P Require Import Prelude Date Data Ledger Server Api Notify Store System.

Local Open Scope Z_scope.

(** A transfer whose id was taken at a clock reading [n <= clock] and
    whose timestamp was taken at a reading [m >= n]. *)
Definition stamped_at (clock : Z) (t : Transfer.t) : Prop :=
  exists n m, n <= clock /\ n <= m /\ Transfer.id t = "trf-" +:+ pretty n /\
              date_parse (Transfer.timestamp t) = Some m.

Section Stamps.
Context {S : Type} `{LedgerServer S}.

(** The transfers of [data] and of the [localStorage] key. *)
Definition stamps_ok (e : Env S) : Prop :=
  Forall (stamped_at (now e)) (transfers (data e)) /\
  Forall (stamped_at (now e)) (ls_transfers (storage e) ||| []).

(** The clock does not go back between a handler's two readings, and the
    later one is a time of the years 0 to 9999. *)
Definition clock_ok (e : Env S) : Prop :=
  0 <= elapsed e /\ four_digit_days ((now e + elapsed e) / msPerDay).

(** A step taken from a state whose clock is in range. *)
Definition step_in_range (e e' : Env S) : Prop := clock_ok e /\ step e e'.
End Stamps.

(** ** Lemmas *)

Lemma stamped_at_mono c c' t : c <= c' -> stamped_at c t -> stamped_at c' t.
Proof. intros Hc (n & m & Hn & Hm & Hid & Hts). exists n, m. split_and!; [lia|done..]. Qed.

Lemma Forall_stamped_mono c c' l :
  c <= c' -> Forall (stamped_at c) l -> Forall (stamped_at c') l.
Proof. intros Hc Hl. apply (Forall_impl _ _ _ Hl). intros t. by apply stamped_at_mono. Qed.

Lemma stamped_at_with_status c st t : stamped_at c t -> stamped_at c (Transfer.with_status st t).
Proof. by destruct t. Qed.

(** A transfer with the id of the clock and the timestamp of a later
    reading in the four-digit years. *)
Lemma stamped_at_now c l from to a k st :
  0 <= l -> four_digit_days ((c + l) / msPerDay) ->
  stamped_at c (Transfer.mk ("trf-" +:+ pretty c) from to a k st (toISOString (c + l))).
Proof. intros Hl Hc. exists c, (c + l). split_and!; [lia|lia|done|by apply iso_roundtrip]. Qed.

Lemma Forall_stamped_map_where c id st l :
  Forall (stamped_at c) l ->
  Forall (stamped_at c) (map_where (has_trf_id id) (Transfer.with_status st) l).
Proof. apply Forall_map_where, stamped_at_with_status. Qed.

#[export] Hint Resolve stamped_at_now Forall_stamped_map_where : shadow.

Section Handlers.
Context {S : Type} `{LedgerServer S} `{!LedgerServerSpec S}.

(** Each handler keeps the clock, and the stamps (the two creating
    handlers while the clock is in range). *)
Lemma loadData_stamps (e : Env S) r e' :
  loadData e = (r, e') -> now e' = now e /\ (stamps_ok e -> stamps_ok e').
Proof.
  rewrite loadData_run. intros [= _ <-]. split; [done|]. intros [Hd Hs].
  split; [|done]. simpl. by destruct (online (remote e)).
Qed.

Lemma createTransaction_stamps acc a (e : Env S) r e' :
  createTransaction acc a e = (r, e') -> now e' = now e /\ (stamps_ok e -> stamps_ok e').
Proof.
  unfold createTransaction, st_bind, get_data, lift.
  destruct (createCredit acc a (remote e)) as [[err|tx] rem]; [by intros [= _ <-]|].
  unfold saveLocalData, st_modify. simpl.
  destruct (loadData _) as [[|[]] e3] eqn:Hl; intros [= _ <-];
    (apply loadData_stamps in Hl as [? Hk]; split; [done|intros [??]; by apply Hk]).
Qed.

Lemma settleTransaction_stamps call msg id (e : Env S) r e' :
  settleTransaction call msg id e = (r, e') -> now e' = now e /\ (stamps_ok e -> stamps_ok e').
Proof.
  unfold settleTransaction, st_bind, get_data, lift.
  destruct (call id (remote e)) as [[err|u] rem]; [by intros [= _ <-]|].
  destruct (js_find _ _); [|by intros [= _ <-]].
  unfold saveLocalData, st_modify. simpl.
  intros Hl. apply loadData_stamps in Hl as [? Hk]. split; [done|intros [??]; by apply Hk].
Qed.

(** A transfer handler saves the captured transfers with one more stamped
    transfer, or with one status changed. *)
Lemma save_opt_stamps f (e : Env S) r e' :
  (forall d', Forall (stamped_at (now e)) (transfers (data e)) -> f (data e) = Some d' ->
     Forall (stamped_at (now e)) (transfers d')) ->
  save_opt f e = (r, e') -> now e' = now e /\ (stamps_ok e -> stamps_ok e').
Proof.
  intros Hf. unfold save_opt. destruct (f (data e)) eqn:Hd; intros [= _ <-]; [|done].
  split; [done|]. intros [Hs _]. split; simpl; by apply Hf.
Qed.

Lemma createPendingTransfer_stamps from to a (e : Env S) r e' :
  createPendingTransfer from to a e = (r, e') ->
  now e' = now e /\ (clock_ok e -> stamps_ok e -> stamps_ok e').
Proof.
  unfold createPendingTransfer, pendingTransfer.
  destruct (_ <? _); intros [= _ <-]; split; try done. intros [Hl Hc] [Hd _].
  assert (Forall (stamped_at (now e))
            (transfers (data e) ++ [created_transfer (now e) (now e + elapsed e) from to a]))
    by (apply Forall_app; split; [done|]; eauto with shadow). unfold stamps_ok. by split.
Qed.

Lemma createTransfer_stamps from to a (e : Env S) r e' :
  createTransfer from to a e = (r, e') ->
  now e' = now e /\ (clock_ok e -> stamps_ok e -> stamps_ok e').
Proof.
  unfold createTransfer, immediateTransfer.
  destruct (_ <? _); intros [= _ <-]; split; try done. intros [Hl Hc] [Hd _].
  assert (Forall (stamped_at (now e)) (transfers (data e) ++
    [Transfer.mk ("trf-" +:+ pretty (now e)) from to a Transfer.TRANSFER posted
       (toISOString (now e + elapsed e))]))
    by (apply Forall_app; split; [done|]; eauto with shadow). unfold stamps_ok. by split.
Qed.

Lemma postTransfer_stamps id (e : Env S) r e' :
  postTransfer id e = (r, e') -> now e' = now e /\ (stamps_ok e -> stamps_ok e').
Proof.
  apply save_opt_stamps. unfold postTransferData. intros d' Hs.
  destruct (js_find _ _); intros [= <-]; simpl. eauto with shadow.
Qed.

Lemma reverseTransfer_stamps id (e : Env S) r e' :
  reverseTransfer id e = (r, e') -> now e' = now e /\ (stamps_ok e -> stamps_ok e').
Proof.
  apply save_opt_stamps. unfold reverseTransferData. intros d' Hs.
  destruct (js_find _ _); intros [= <-]; simpl. eauto with shadow.
Qed.

(** One step never turns the clock back, and keeps the stamps while the
    clock is in range. *)
Lemma step_stamps (e e' : Env S) :
  step e e' -> now e <= now e' /\ (clock_ok e -> stamps_ok e -> stamps_ok e').
Proof.
  intros Hstep. destruct Hstep as [e r e' Hr|acc a e r e' Hr|id e r e' Hr|id e r e' Hr
    |from to a e r e' Hr|id e r e' Hr|id e r e' Hr|from to a e r e' Hr|e t Ht|e l Hl|e b|e ? ? r s' _
    |e ? r s' _|e ? r s' _];
    try (first [ apply loadData_stamps in Hr | apply createTransaction_stamps in Hr
               | apply settleTransaction_stamps in Hr | apply postTransfer_stamps in Hr
               | apply reverseTransfer_stamps in Hr | apply createPendingTransfer_stamps in Hr
               | apply createTransfer_stamps in Hr ];
         destruct Hr as [-> Hk]; split; [lia|]; intros; by apply Hk);
    try done.
  split; [done|]. intros _ [Hd Hs]. split; simpl; by eapply Forall_stamped_mono.
Qed.
(** Along a run whose clock stays in range the clock never goes back, and
    the stamps hold at its end when they held at its start. *)
Lemma rtc_stamps (e0 e : Env S) :
  rtc step_in_range e0 e -> now e0 <= now e /\ (stamps_ok e0 -> stamps_ok e).
Proof.
  induction 1 as [x|x y z [Hc Hxy] _ [Hle IH]]; [done|].
  destruct (step_stamps _ _ Hxy) as [Hle' Hk]. split; [lia|]. intros Hs. by apply IH, Hk.
Qed.

(** C33. Every transfer the hook holds, in [data.transfers] or in the
    [shadow-transfers] key of [localStorage], has the id [trf-<n>], [n] a
    clock reading no later than the current one, and a timestamp that
    [new Date(s).getTime()] parses to a time [m >= n]: in every state the
    system reaches from one where this holds (a fresh mount with empty
    storage, for instance), whatever handlers, clock and network changes
    and requests of other clients led there, while the time a handler
    would stamp stays in the years 0 to 9999. *)
Theorem stamps_reachable (e0 e : Env S) :
  stamps_ok e0 -> rtc step_in_range e0 e ->
  forall t, t ∈ transfers (data e) ++ (ls_transfers (storage e) ||| []) ->
  exists n m, n <= now e /\ n <= m /\ Transfer.id t = "trf-" +:+ pretty n /\
              date_parse (Transfer.timestamp t) = Some m.
Proof.
  intros Hs0 Hr t Ht. destruct (rtc_stamps _ _ Hr) as [_ Hk].
  destruct (Hk Hs0) as [Hd Hs]. rewrite Forall_forall in Hd, Hs.
  apply elem_of_app in Ht as [Ht|Ht]; [by apply Hd|by apply Hs].
Qed.
End Handlers.
