(* ===== verification/Views.v ===== *)
(** * What the pages compute from the hook's data

    - [src/app/admin/transactions/page.tsx]: [allItems], the transactions
      and transfers merged and sorted newest first, and the [stats] cards;
    - [src/app/admin/page.tsx]: the four counters of the dashboard;
    - [src/app/user/[id]/page.tsx]: the lists of one account's dashboard;
    - [src/components/transfer-card.tsx]: which buttons a transfer card
      offers; [src/components/transfers-list.tsx]: the rows of one account;
    - [src/components/dual-balance-card.tsx]: the pending amount;
    - [src/components/empty-state.tsx]: its props and the texts it shows.
    The pages sort with the comparator
    [new Date(b.timestamp).getTime() - new Date(a.timestamp).getTime()];
    a timestamp that does not parse gives [NaN], which the sort treats as
    [+0] (equal). [Array.prototype.sort] is stable (ECMAScript 2019), so
    when every timestamp parses the order is determined: [sort_desc], an
    insertion sort with that comparator, is proved equal to the insertion
    by time values [sort_by_time], which is sorted newest first, a
    permutation of its input, and stable. *)

From Stdlib Require Import Sorting.Sorted.
From S2P Require Import Prelude Data Date.

Local Open Scope Z_scope.

(** [{ ...t, itemType: "transaction" }] and [{ ...t, itemType: "transfer" }] *)
Inductive Item :=
  | ItemTransaction (t : Transaction.t)
  | ItemTransfer (t : Transfer.t).

Definition item_timestamp (i : Item) : string :=
  match i with
  | ItemTransaction t => Transaction.timestamp t
  | ItemTransfer t => Transfer.timestamp t
  end.

Definition item_status (i : Item) : Status :=
  match i with
  | ItemTransaction t => Transaction.status t
  | ItemTransfer t => Transfer.status t
  end.

Definition item_amount (i : Item) : Z :=
  match i with
  | ItemTransaction t => Transaction.amount t
  | ItemTransfer t => Transfer.amount t
  end.

(** [new Date(i.timestamp).getTime()], [None] for [NaN]. *)
Definition item_time (i : Item) : option Z := date_parse (item_timestamp i).

(** The comparator of the pages, [b]'s time minus [a]'s; a [NaN] result
    counts as [+0] (SortCompare of the specification). *)
Definition item_cmp (a b : Item) : Z :=
  match item_time b, item_time a with
  | Some tb, Some ta => tb - ta
  | _, _ => 0
  end.

(** Insert [x] into a list, before the first element [y] for which
    [before x y] holds. *)
Fixpoint insert_when (before : Item -> Item -> bool) (x : Item) (l : list Item) : list Item :=
  match l with
  | [] => [x]
  | y :: l' => if before x y then x :: y :: l' else y :: insert_when before x l'
  end.

(** A stable sort puts a later element [x] before an earlier [y] exactly
    when the comparator says [x] comes first. *)
Definition insert_desc : Item -> list Item -> list Item :=
  insert_when (fun x y => item_cmp x y <? 0).

(** [.sort((a, b) => new Date(b.timestamp).getTime() - new Date(a.timestamp).getTime())] *)
Definition sort_desc (l : list Item) : list Item :=
  foldl (fun acc x => insert_desc x acc) [] l.

(** The reference order: by time values, newest first, stable. *)
Definition item_key (i : Item) : Z := item_time i ||| 0.

#[global] Arguments item_key : simpl never.

Definition insert_by_time : Item -> list Item -> list Item :=
  insert_when (fun x y => item_key y <? item_key x).

Definition sort_by_time (l : list Item) : list Item :=
  foldl (fun acc x => insert_by_time x acc) [] l.

(** The timestamp of [i] parses. *)
Definition timed (i : Item) : Prop := is_Some (item_time i).

(** [allItems] of the admin transactions page. *)
Definition allItems (d : ShadowData) : list Item :=
  sort_desc (map ItemTransaction (transactions d) ++ map ItemTransfer (transfers d)).

Definition count_status (st : Status) (l : list Item) : nat :=
  length (filter (fun i => item_status i = st) l).

Definition volume_status (st : Status) (l : list Item) : Z :=
  sumZ item_amount (filter (fun i => item_status i = st) l).

(** The [stats] object of the admin transactions page. *)
Record Stats := mkStats {
  totalTransactions : nat;
  totalTransfers : nat;
  pendingCount : nat;
  postedCount : nat;
  reversedCount : nat;
  totalVolume : Z;
  pendingVolume : Z
}.

Definition stats (d : ShadowData) : Stats :=
  let items := allItems d in
  mkStats (length (transactions d)) (length (transfers d))
    (count_status pending items) (count_status posted items) (count_status reversed items)
    (volume_status posted items) (volume_status pending items).

(** The four counters of [AdminDashboard]: transactions only. *)
Definition dashboard_stats (d : ShadowData) : nat * nat * nat * nat :=
  let txs := map ItemTransaction (transactions d) in
  (length (transactions d), count_status pending txs, count_status posted txs,
   count_status reversed txs).

(** The lists of [UserDashboard] for [accountId]. *)
Definition userTransactions (d : ShadowData) (accountId : string) : list Transaction.t :=
  filter (fun t => Transaction.accountId t = accountId) (transactions d).

Definition postedIncomingTransfers (d : ShadowData) (accountId : string) : list Transfer.t :=
  filter (fun t => Transfer.to t = accountId /\ Transfer.status t = posted) (transfers d).

Definition allCredits (d : ShadowData) (accountId : string) : list Item :=
  sort_desc (map ItemTransaction (userTransactions d accountId) ++
             map ItemTransfer (postedIncomingTransfers d accountId)).

Definition pendingIncomingTransfers (d : ShadowData) (accountId : string) : list Transfer.t :=
  filter (fun t => Transfer.to t = accountId /\ Transfer.status t = pending) (transfers d).

Definition userOutgoingTransfers (d : ShadowData) (accountId : string) : list Transfer.t :=
  filter (fun t => Transfer.from t = accountId) (transfers d).

(** The buttons of a [TransferCard]. *)
Inductive CardAction := ActPost | ActReverse.

#[export] Instance CardAction_eq_dec : EqDecision CardAction.
Proof. solve_decision. Defined.

Definition transfer_card_actions (isAdmin : bool) (st : Status) : list CardAction :=
  if isAdmin && bool_decide (st <> reversed) then
    (if bool_decide (st = pending) then [ActPost] else []) ++ [ActReverse]
  else [].

(** [TransfersList]: the transfers sent or received by [accountId], and the
    sign shown before each amount. *)
Definition userTransfers (l : list Transfer.t) (accountId : string) : list Transfer.t :=
  filter (fun t => Transfer.from t = accountId \/ Transfer.to t = accountId) l.

Definition transfer_sign (accountId : string) (t : Transfer.t) : string :=
  if bool_decide (Transfer.from t = accountId) then "-" else "+".

(** [src/components/empty-state.tsx]: [EmptyStateProps], and the texts
    [EmptyState] renders under its animated inbox icon, the
    [<h3>{title}</h3>] then the [<p>{description}</p>]. *)
Record EmptyStateProps := mkEmptyState { title : string; description : string }.

Definition EmptyState (p : EmptyStateProps) : list string := [title p; description p].

(** [DualBalanceCard]: [pendingAmount] and whether the pending line shows. *)
Definition pendingAmount (b : Balance) : Z := total b - available b.

Definition shows_pending (b : Balance) : bool := 0 <? pendingAmount b.

(** ** The order of [allItems] *)

(** [a] comes before [b] in the displayed order: it is at least as recent. *)
Definition newer_first (a b : Item) : Prop := item_key b <= item_key a.

(** Filtering on one time value. *)
Definition at_time (k : Z) (i : Item) : Prop := item_key i = k.

#[export] Instance at_time_dec k : forall i, Decision (at_time k i).
Proof. intros i. unfold at_time. apply _. Defined.

Lemma insert_when_perm before x l : Permutation (insert_when before x l) (x :: l).
Proof.
  induction l as [|y l IH]; simpl; [done|].
  destruct (before x y); [done|]. rewrite IH. apply perm_swap.
Qed.

Lemma foldl_insert_when_perm before acc l :
  Permutation (foldl (fun acc x => insert_when before x acc) acc l) (acc ++ l).
Proof.
  revert acc. induction l as [|x l IH]; intros acc; simpl; [by rewrite app_nil_r|].
  rewrite IH, insert_when_perm. apply Permutation_middle.
Qed.

(** Two tests that agree on the elements met give the same insertion. *)
Lemma insert_when_ext (b1 b2 : Item -> Item -> bool) x l :
  (forall y, y ∈ l -> b1 x y = b2 x y) -> insert_when b1 x l = insert_when b2 x l.
Proof.
  induction l as [|y l IH]; intros Hb; simpl; [done|].
  rewrite Hb by set_solver. destruct (b2 x y); [done|]. f_equal. apply IH. set_solver.
Qed.

Lemma item_cmp_timed a b :
  timed a -> timed b -> (item_cmp a b <? 0) = (item_key b <? item_key a).
Proof.
  intros [ta Ha] [tb Hb]. unfold item_cmp, item_key. rewrite Ha, Hb. simpl.
  destruct (Z.ltb_spec (tb - ta) 0), (Z.ltb_spec tb ta); lia.
Qed.

Lemma foldl_insert_desc_by_time acc l :
  Forall timed acc -> Forall timed l ->
  foldl (fun acc x => insert_desc x acc) acc l = foldl (fun acc x => insert_by_time x acc) acc l.
Proof.
  revert acc. induction l as [|x l IH]; intros acc Hacc Hl; simpl; [done|].
  apply Forall_cons in Hl as [Hx Hl].
  assert (Heq : insert_desc x acc = insert_by_time x acc).
  { apply insert_when_ext. intros y Hy. apply item_cmp_timed; [done|].
    by eapply Forall_forall in Hacc. }
  rewrite Heq. apply IH; [|done].
  apply Forall_forall. intros y Hy. unfold insert_by_time in Hy.
  rewrite (insert_when_perm _ x acc), elem_of_cons in Hy.
  destruct Hy as [->|Hy]; [done|]. by eapply Forall_forall in Hacc.
Qed.

Lemma insert_by_time_hd x y l :
  newer_first y x -> HdRel newer_first y l -> HdRel newer_first y (insert_by_time x l).
Proof.
  intros Hyx Hy. unfold insert_by_time. destruct l as [|z l]; simpl; [by constructor|].
  destruct (item_key z <? item_key x); constructor; [done|]. by inversion Hy.
Qed.

Lemma insert_by_time_sorted x l : Sorted newer_first l -> Sorted newer_first (insert_by_time x l).
Proof.
  unfold insert_by_time. induction l as [|y l IH]; intros Hs; simpl; [by repeat constructor|].
  apply Sorted_inv in Hs as [Hl Hy].
  destruct (Z.ltb_spec (item_key y) (item_key x)).
  - constructor; [by constructor|]. constructor. unfold newer_first. lia.
  - constructor; [by apply IH|]. apply (insert_by_time_hd x y l); [unfold newer_first; lia|done].
Qed.

Lemma foldl_insert_by_time_sorted acc l :
  Sorted newer_first acc -> Sorted newer_first (foldl (fun acc x => insert_by_time x acc) acc l).
Proof.
  revert acc. induction l as [|x l IH]; intros acc Hs; simpl; [done|].
  apply IH, insert_by_time_sorted, Hs.
Qed.

(** Inserting into a sorted list puts [x] after the elements of its own
    time value. *)
Lemma insert_by_time_stable x l k :
  Sorted newer_first l ->
  filter (at_time k) (insert_by_time x l) = filter (at_time k) l ++ filter (at_time k) [x].
Proof.
  unfold insert_by_time. induction l as [|y l IH]; intros Hs; simpl; [done|].
  apply Sorted_StronglySorted in Hs; [|intros a b c; unfold newer_first; lia].
  apply StronglySorted_inv in Hs as [Hl Hall].
  destruct (Z.ltb_spec (item_key y) (item_key x)).
  - rewrite filter_cons. case_decide as Hx.
    + (* no element of [y :: l] has [x]'s time value *)
      rewrite !filter_cons_False by (unfold at_time in *; lia).
      rewrite (filter_nil_forall _ l).
      * rewrite filter_cons_True by done. done.
      * intros z Hz. rewrite Forall_forall in Hall. specialize (Hall z).
        unfold at_time, newer_first in *. specialize (Hall Hz). lia.
    + rewrite (filter_cons_False _ x []) by done. by rewrite filter_nil, app_nil_r.
  - rewrite !filter_cons. case_decide; rewrite IH by (by apply StronglySorted_Sorted); done.
Qed.

Lemma foldl_insert_by_time_stable acc l k :
  Sorted newer_first acc ->
  filter (at_time k) (foldl (fun acc x => insert_by_time x acc) acc l) =
  filter (at_time k) acc ++ filter (at_time k) l.
Proof.
  revert acc. induction l as [|x l IH]; intros acc Hs; simpl; [by rewrite filter_nil, app_nil_r|].
  rewrite IH by (by apply insert_by_time_sorted). rewrite insert_by_time_stable by done.
  rewrite <- app_assoc. f_equal. by rewrite <- filter_app.
Qed.

Lemma count_status_partition l :
  (count_status pending l + count_status posted l + count_status reversed l = length l)%nat.
Proof.
  unfold count_status. induction l as [|i l IH]; [done|]. rewrite !filter_cons.
  destruct (item_status i); repeat case_decide; simpl in *; try congruence; lia.
Qed.

Lemma count_status_perm st l1 l2 : Permutation l1 l2 -> count_status st l1 = count_status st l2.
Proof. intros Hp. unfold count_status. by rewrite Hp. Qed.

(** [allItems] lists the transactions and the transfers, each once. *)
Lemma allItems_perm d :
  Permutation (allItems d) (map ItemTransaction (transactions d) ++ map ItemTransfer (transfers d)).
Proof. unfold allItems, sort_desc, insert_desc. by rewrite foldl_insert_when_perm. Qed.

Lemma volume_status_perm st l1 l2 : Permutation l1 l2 -> volume_status st l1 = volume_status st l2.
Proof. intros Hp. unfold volume_status. by rewrite Hp. Qed.

(** C19. When every timestamp parses, the order of the admin list is
    determined: [allItems] sorts with the page's comparator exactly as
    the insertion by time values does, lists every transaction and
    transfer exactly once, newest first, and keeps the input order among
    items of the same time value (transactions before transfers, each in
    storage order), as a stable sort must. *)
Theorem allItems_order d :
  let input := map ItemTransaction (transactions d) ++ map ItemTransfer (transfers d) in
  Forall timed input ->
  allItems d = sort_by_time input /\
  Sorted newer_first (allItems d) /\ Permutation (allItems d) input /\
  forall k, filter (at_time k) (allItems d) = filter (at_time k) input.
Proof.
  intros input Ht.
  assert (Heq : allItems d = sort_by_time input).
  { unfold allItems, sort_desc, sort_by_time. fold input. by apply foldl_insert_desc_by_time. }
  rewrite Heq. unfold sort_by_time. split_and!; [done| | |].
  - apply foldl_insert_by_time_sorted. constructor.
  - unfold insert_by_time. by rewrite foldl_insert_when_perm.
  - intros k. rewrite foldl_insert_by_time_stable by constructor. done.
Qed.

(** C20. The status cards of the admin transactions page partition the
    items: pending, posted and reversed counts add up to the number of
    transactions and transfers, and the posted and pending volumes are the
    sums of the amounts over the unsorted lists. *)
Theorem stats_partition d :
  (pendingCount (stats d) + postedCount (stats d) + reversedCount (stats d) =
   totalTransactions (stats d) + totalTransfers (stats d))%nat /\
  totalVolume (stats d) =
    volume_status posted (map ItemTransaction (transactions d) ++ map ItemTransfer (transfers d)) /\
  pendingVolume (stats d) =
    volume_status pending (map ItemTransaction (transactions d) ++ map ItemTransfer (transfers d)).
Proof.
  pose proof (allItems_perm d) as Hp.
  unfold stats; simpl. split_and!.
  - rewrite count_status_partition, Hp, length_app, !length_map. lia.
  - by apply volume_status_perm.
  - by apply volume_status_perm.
Qed.

(** A transfer card offers [Post] only to an admin and only on a
    pending transfer, and [Reverse] only to an admin and never on a
    reversed one; a pending or posted transfer always offers [Reverse]. *)
Theorem transfer_card_actions_guard isAdmin st :
  (ActPost ∈ transfer_card_actions isAdmin st <-> isAdmin = true /\ st = pending) /\
  (ActReverse ∈ transfer_card_actions isAdmin st <-> isAdmin = true /\ st <> reversed).
Proof.
  unfold transfer_card_actions. destruct isAdmin, st; simpl; split; split;
    intros; repeat case_bool_decide; set_solver.
Qed.
