(* ===== verification/Dashboard.v ===== *)
(** * The user dashboard and its notification panel

    [src/app/user/[id]/page.tsx] renders, for the account of the URL, the
    balance, the [NotificationPanel] of [src/components/notification-panel.tsx]
    fed with the account's notifications, the pending deposits, and two
    tabs (credits, sent transfers); its lists are the filters of [Views].
    The page's own state is the refresh spinner and the active tab; the
    panel's is [isOpen] and the copy [displayNotifications] its effect
    keeps of the props. Markup and framer-motion animations are rendering
    only. *)

From S2P Require Import Prelude Data Notify Store Views.

Local Open Scope Z_scope.

Module NotificationPanel.
(** The panel's two [useState]s. *)
Record state := mk { isOpen : bool; displayNotifications : list string }.

(** The first render: [useState(false)] and [useState(notifications)]. *)
Definition init (notifications : list string) : state := mk false notifications.

(** What happens to a mounted panel: a click on the bell, a click on the
    close button, and a render with [notifications] as props, after which
    the effect [useEffect(() => setDisplayNotifications(notifications),
    [notifications])] has run. (When the props are the same array the
    effect does not run, and the copy already equals them.) *)
Inductive event := ClickBell | ClickClose | Render (notifications : list string).

Definition step (s : state) (ev : event) : state :=
  match ev with
  | ClickBell => mk (negb (isOpen s)) (displayNotifications s)
  | ClickClose => mk false (displayNotifications s)
  | Render ns => mk (isOpen s) ns
  end.

Definition run (s : state) (evs : list event) : state := foldl step s evs.

(** The red badge on the bell: the count, when there is at least one. *)
Definition badge (s : state) : option nat :=
  if bool_decide (0 < length (displayNotifications s))%nat
  then Some (length (displayNotifications s)) else None.

(** The drop-down: closed, "No notifications yet", or the messages in order. *)
Inductive body := Closed | NoNotifications | Listed (items : list string).

Definition view (s : state) : body :=
  if isOpen s then
    match displayNotifications s with [] => NoNotifications | l => Listed l end
  else Closed.

(** The props of the latest render, [ns0] at mount. *)
Fixpoint latest_props (ns0 : list string) (evs : list event) : list string :=
  match evs with
  | [] => ns0
  | Render ns :: evs' => latest_props ns evs'
  | _ :: evs' => latest_props ns0 evs'
  end.
End NotificationPanel.

(** [activeTab: "credits" | "transfers"] *)
Inductive Tab := credits | transfers_tab.

(** The page's [useState]s, the [setTimeout]s of [handleRefresh] still to
    fire, and the mounted panel. *)
Record Page := mkPage {
  isRefreshing : bool;
  timers : nat;
  activeTab : Tab;
  panel : NotificationPanel.state
}.

Definition page_init (d : ShadowData) (accountId : string) : Page :=
  mkPage false 0 credits (NotificationPanel.init (notes_of d accountId)).

Inductive PageEvent :=
  | ClickRefresh                 (* onClick={handleRefresh} *)
  | RefreshTimeout               (* a [setTimeout] callback fires *)
  | ClickTab (t : Tab)           (* onClick={() => setActiveTab(t)} *)
  | PanelEvent (ev : NotificationPanel.event).

(** [handleRefresh]: [setIsRefreshing(true)] and one more timer. *)
Definition handleRefresh (p : Page) : Page :=
  mkPage true (S (timers p)) (activeTab p) (panel p).

(** A timeout can fire only while one is scheduled. *)
Definition page_step (p : Page) (ev : PageEvent) : option Page :=
  match ev with
  | ClickRefresh => Some (handleRefresh p)
  | RefreshTimeout =>
      match timers p with
      | O => None
      | S n => Some (mkPage false n (activeTab p) (panel p))
      end
  | ClickTab t => Some (mkPage (isRefreshing p) (timers p) t (panel p))
  | PanelEvent ev => Some (mkPage (isRefreshing p) (timers p) (activeTab p)
                                  (NotificationPanel.step (panel p) ev))
  end.

Fixpoint page_run (p : Page) (evs : list PageEvent) : option Page :=
  match evs with
  | [] => Some p
  | ev :: evs' => match page_step p ev with Some p' => page_run p' evs' | None => None end
  end.

(** [₦{transfer.amount.toLocaleString()} from {transfer.from}] *)
Definition pending_deposit_line (t : Transfer.t) : string :=
  naira +:+ toLocaleString (Transfer.amount t) +:+ " from " +:+ Transfer.from t.

(** The "Pending Deposits" box: its lines, shown when there is one. *)
Definition pendingDeposits (d : ShadowData) (accountId : string) : list string :=
  map pending_deposit_line (pendingIncomingTransfers d accountId).

(** The content of the active tab. *)
Inductive TabView :=
  | NoCredits | CreditCards (items : list Item)
  | NoTransfers | TransferCards (items : list Transfer.t).

Definition tab_view (d : ShadowData) (accountId : string) (t : Tab) : TabView :=
  match t with
  | credits => match allCredits d accountId with [] => NoCredits | l => CreditCards l end
  | transfers_tab =>
      match userOutgoingTransfers d accountId with [] => NoTransfers | l => TransferCards l end
  end.

(** The heading over the active tab, and the [EmptyState] it shows in
    place of an empty list. *)
Definition tab_heading (t : TabView) : string :=
  match t with
  | NoCredits | CreditCards _ => "Recent Credits"
  | NoTransfers | TransferCards _ => "My Transfers"
  end.

Definition tab_empty (t : TabView) : option EmptyStateProps :=
  match t with
  | NoCredits => Some (mkEmptyState "No Credits" "Your credits will appear here")
  | NoTransfers => Some (mkEmptyState "No Transfers" "Your sent transfers will appear here")
  | _ => None
  end.

(** What the page shows: the balance card, the bell's badge and drop-down,
    the pending deposits, the active tab and the spinner. *)
Record Dashboard := mkDash {
  shown_balance : Balance;
  shown_badge : option nat;
  shown_panel : NotificationPanel.body;
  shown_deposits : list string;
  shown_tab : TabView;
  spinning : bool
}.

Definition render (d : ShadowData) (accountId : string) (p : Page) : Dashboard :=
  mkDash (balance_of d accountId) (NotificationPanel.badge (panel p))
    (NotificationPanel.view (panel p)) (pendingDeposits d accountId)
    (tab_view d accountId (activeTab p)) (isRefreshing p).

(** [Loading...] ([None]) until the hook has loaded. *)
Definition view (isLoaded : bool) (d : ShadowData) (accountId : string) (p : Page) : option Dashboard :=
  if isLoaded then Some (render d accountId p) else None.

(** The two tab buttons: label, and whether it is styled as active
    ([activeTab === "credits"], [activeTab === "transfers"]). *)
Definition tab_buttons (p : Page) : list (string * bool) :=
  [("Credits", match activeTab p with credits => true | _ => false end);
   ("Transfers", match activeTab p with transfers_tab => true | _ => false end)].

(** The Send Money button: [router.push(`/user/${accountId}/transfer`)]. *)
Definition send_money_href (accountId : string) : string :=
  "/user/" +:+ accountId +:+ "/transfer".

(** The spinner is on only while a timer is scheduled. *)
Definition page_ok (p : Page) : Prop := isRefreshing p = true -> (0 < timers p)%nat.

(** ** Lemmas *)

Lemma run_display s evs :
  NotificationPanel.displayNotifications (NotificationPanel.run s evs) =
    NotificationPanel.latest_props (NotificationPanel.displayNotifications s) evs.
Proof.
  unfold NotificationPanel.run. revert s.
  induction evs as [|[| |ns] evs IH]; intros s; simpl; [done|..]; by rewrite IH.
Qed.

Lemma page_step_ok p ev p' : page_ok p -> page_step p ev = Some p' -> page_ok p'.
Proof.
  unfold page_ok. destruct ev; simpl.
  - intros _ [= <-]. simpl. lia.
  - destruct (timers p); [done|]. by intros _ [= <-].
  - by intros Hp [= <-].
  - by intros Hp [= <-].
Qed.

Lemma page_run_ok p evs p' : page_ok p -> page_run p evs = Some p' -> page_ok p'.
Proof.
  revert p. induction evs as [|ev evs IH]; intros p Hp; simpl; [by intros [= <-]|].
  destruct (page_step p ev) as [p1|] eqn:Hs; [|done]. apply IH. by eapply page_step_ok.
Qed.

(** [n] timeouts fire when [n] are scheduled; the last one stops the spinner. *)
Lemma timeouts_run n p :
  timers p = n ->
  page_run p (repeat RefreshTimeout n) =
    Some (mkPage (if n is O then isRefreshing p else false) 0 (activeTab p) (panel p)).
Proof.
  revert p. induction n as [|n IH]; intros p Hn; simpl.
  - destruct p; simpl in *; by subst.
  - rewrite Hn. rewrite IH by done. by destruct n.
Qed.

Lemma notes_of_notify ts m tr ns acc msg :
  notes_of (mkData ts m tr (notify ns acc msg)) acc = (ns !! acc ||| []) ++ [msg].
Proof. unfold notes_of, notify, appended. simpl. by rewrite lookup_insert_eq. Qed.

Lemma notify2_lookup_snd ns a ma b mb : notify2 ns a ma b mb !! b = Some (appended ns b mb).
Proof. unfold notify2. by rewrite lookup_insert_eq. Qed.

Lemma sort_desc_perm l : Permutation (sort_desc l) l.
Proof. unfold sort_desc, insert_desc. by rewrite foldl_insert_when_perm. Qed.

(** C36. The notification panel shows the notifications of its latest
    render, whatever the clicks before: the badge counts them when there
    is at least one, and the drop-down, when open, lists them in order, or
    says there are none. The copy the panel keeps never lags behind the
    props once the effect has run. *)
Theorem panel_shows_latest ns0 evs :
  let s := NotificationPanel.run (NotificationPanel.init ns0) evs in
  let ns := NotificationPanel.latest_props ns0 evs in
  NotificationPanel.badge s = (if ns is [] then None else Some (length ns)) /\
  NotificationPanel.view s =
    if NotificationPanel.isOpen s then
      (if ns is [] then NotificationPanel.NoNotifications else NotificationPanel.Listed ns)
    else NotificationPanel.Closed.
Proof.
  intros s ns. pose proof (run_display (NotificationPanel.init ns0) evs) as Hd.
  fold s in Hd. simpl in Hd. fold ns in Hd.
  unfold NotificationPanel.badge, NotificationPanel.view. rewrite Hd. clearbody s ns.
  split; [|by destruct (NotificationPanel.isOpen s), ns].
  destruct ns; [done|]. rewrite bool_decide_eq_true_2; [done|simpl; lia].
Qed.

(** The refresh spinner of the dashboard always stops: in every state
    the page reaches from its first render, the spinner is on only while a
    [setTimeout] of [handleRefresh] is pending, and once the pending
    timeouts have fired it is off, with the tab and the panel unchanged. *)
Theorem spinner_stops d accountId evs p :
  page_run (page_init d accountId) evs = Some p ->
  page_ok p /\
  page_run p (repeat RefreshTimeout (timers p)) =
    Some (mkPage false 0 (activeTab p) (panel p)).
Proof.
  intros Hrun. assert (Hok : page_ok p) by (eapply page_run_ok; [|exact Hrun]; done).
  split; [done|]. rewrite (timeouts_run (timers p) p eq_refl).
  destruct (timers p) eqn:Ht; [|done]. destruct (isRefreshing p) eqn:Hr; [|done].
  specialize (Hok Hr). lia.
Qed.

Section Deposit.
Context {S : Type} `{LedgerServer S}.

(** The transfers after a fresh pending transfer was posted. *)
Lemma post_created_transfers (e : Env S) from to amount :
  fresh_transfer_id (data e) (now e) ->
  map_where (has_trf_id ("trf-" +:+ pretty (now e))) (Transfer.with_status posted)
    (transfers (data e) ++ [created_transfer (now e) (now e + elapsed e) from to amount]) =
  transfers (data e) ++ [Transfer.with_status posted (created_transfer (now e) (now e + elapsed e) from to amount)].
Proof.
  intros Hfresh. rewrite map_where_app, map_where_id.
  - simpl. unfold has_trf_id. simpl. by rewrite String.eqb_refl.
  - intros y Hy. apply String.eqb_neq, Hfresh, Hy.
Qed.

(** The filters of the dashboard over the transfers with one more at the end. *)
Lemma pendingIncoming_snoc ts m l x ns acc :
  pendingIncomingTransfers (mkData ts m (l ++ [x]) ns) acc =
    pendingIncomingTransfers (mkData ts m l ns) acc ++
    (if decide (Transfer.to x = acc /\ Transfer.status x = pending) then [x] else []).
Proof. unfold pendingIncomingTransfers. simpl. by rewrite filter_app, filter_cons, filter_nil. Qed.

Lemma postedIncoming_snoc ts m l x ns acc :
  postedIncomingTransfers (mkData ts m (l ++ [x]) ns) acc =
    postedIncomingTransfers (mkData ts m l ns) acc ++
    (if decide (Transfer.to x = acc /\ Transfer.status x = posted) then [x] else []).
Proof. unfold postedIncomingTransfers. simpl. by rewrite filter_app, filter_cons, filter_nil. Qed.

(** C35. What the receiver of a pending transfer sees on the dashboard, from
    the hook's handlers to the page: while the transfer is pending, the
    receiver's balance does not move and the "Pending Deposits" box gains
    the line [₦<amount> from <sender>]; once [postTransfer] has run, the
    line is gone, the posted transfer is among the receiver's credits,
    and the receiver's notifications are the old ones followed by the
    "being processed" and the "now available" messages, in that order. *)
Theorem deposit_lifecycle_view from to amount (e : Env S) :
  from <> to -> amount <= available (balance_of (data e) from) ->
  fresh_transfer_id (data e) (now e) ->
  let t := created_transfer (now e) (now e + elapsed e) from to amount in
  exists e1 e2,
    createPendingTransfer from to amount e = (inr (PendingOk t), e1) /\
    balance_of (data e1) to = balance_of (data e) to /\
    pendingDeposits (data e1) to = pendingDeposits (data e) to ++ [pending_deposit_line t] /\
    postTransfer (Transfer.id t) e1 = (inr tt, e2) /\
    pendingDeposits (data e2) to = pendingDeposits (data e) to /\
    Permutation (allCredits (data e2) to)
                (allCredits (data e) to ++ [ItemTransfer (Transfer.with_status posted t)]) /\
    notes_of (data e2) to =
      notes_of (data e) to ++ [msg_incoming_processing amount from; msg_incoming_available amount from].
Proof.
  intros Hne Hle Hfresh t. rewrite createPendingTransfer_ok by done.
  eexists _, _. split; [reflexivity|].
  rewrite (postTransfer_ok _ t) by (apply find_created, Hfresh).
  assert (Hid : Transfer.id t = "trf-" +:+ pretty (now e)) by done.
  cbn [snd saveLocalData st_modify data].
  split; [by rewrite balance_of_mkData_insert_eq|].
  split; [unfold pendingDeposits; rewrite pendingIncoming_snoc, decide_True by done; by rewrite map_app|].
  split; [reflexivity|]. cbn [snd saveLocalData st_modify data transfers notifications transactions].
  rewrite Hid. unfold t. rewrite post_created_transfers by done.
  split_and!.
  - unfold pendingDeposits. rewrite pendingIncoming_snoc, decide_False by (simpl; naive_solver).
    by rewrite app_nil_r.
  - unfold allCredits. rewrite !sort_desc_perm, postedIncoming_snoc, decide_True by done.
    unfold userTransactions. simpl. by rewrite map_app, app_assoc.
  - rewrite notes_of_notify, notify2_lookup_snd. unfold appended, notes_of. simpl.
    by rewrite <- app_assoc.
Qed.
End Deposit.

(** The active tab shows its [EmptyState] exactly when its list is empty,
    and its heading names the tab. *)
Lemma tab_empty_iff d accountId t :
  (is_Some (tab_empty (tab_view d accountId t)) <->
     match t with
     | credits => allCredits d accountId = []
     | transfers_tab => userOutgoingTransfers d accountId = []
     end) /\
  tab_heading (tab_view d accountId t) =
    match t with credits => "Recent Credits" | transfers_tab => "My Transfers" end.
Proof.
  destruct t; simpl; [destruct (allCredits d accountId) | destruct (userOutgoingTransfers d accountId)];
    simpl; split; try done; naive_solver.
Qed.
