(* ===== verification/Pages.v ===== *)
(** * The handlers of the pages

    - [src/app/user/[id]/transfer/page.tsx]: [availableAccounts] and
      [handleTransfer], which parses the typed amount with
      [Number.parseInt] and calls [createPendingTransfer];
    - [src/app/admin/transactions/page.tsx]: [handlePostTransaction],
      [handleReverseTransaction], [handlePostTransfer],
      [handleReverseTransfer], and the transfer card's buttons that call
      them ([src/components/transfer-card.tsx]).
    [parseInt] follows the ECMAScript algorithm with no radix: leading
    white space (ASCII here), an optional sign, a [0x] prefix for base 16,
    then the longest prefix of digits; no digit is [NaN] ([None]); [-0] is
    folded into [0], which the page rejects like [NaN]. The page's toasts
    are the values the handlers return. *)

From Stdlib Require Import Ascii.
From Stdlib Require String.
From S2P Require Import Prelude Data Server Api Store Views.

Local Open Scope Z_scope.

(** JavaScript white space, restricted to ASCII. *)
Definition is_ws (c : ascii) : bool :=
  match nat_of_ascii c with
  | 9 | 10 | 11 | 12 | 13 | 32 => true
  | _ => false
  end%nat.

Fixpoint skip_ws (cs : list ascii) : list ascii :=
  match cs with
  | c :: cs' => if is_ws c then skip_ws cs' else cs
  | [] => []
  end.

(** The value of a digit in bases up to 36. *)
Definition digit_value (c : ascii) : option Z :=
  let n := Z.of_nat (nat_of_ascii c) in
  if (48 <=? n) && (n <=? 57) then Some (n - 48)
  else if (97 <=? n) && (n <=? 122) then Some (n - 87)
  else if (65 <=? n) && (n <=? 90) then Some (n - 55)
  else None.

(** The longest prefix of digits of [radix]. *)
Fixpoint take_digits (radix : Z) (cs : list ascii) : list Z :=
  match cs with
  | c :: cs' =>
      match digit_value c with
      | Some v => if v <? radix then v :: take_digits radix cs' else []
      | None => []
      end
  | [] => []
  end.

Definition digits_value (radix : Z) (ds : list Z) : Z :=
  foldl (fun acc d => acc * radix + d) 0 ds.

(** [Number.parseInt(s)] *)
Definition parseInt (s : string) : option Z :=
  let cs := skip_ws (String.list_ascii_of_string s) in
  let '(sign, cs) :=
    match cs with
    | "-"%char :: r => (-1, r)
    | "+"%char :: r => (1, r)
    | _ => (1, cs)
    end in
  let '(radix, cs) :=
    match cs with
    | "0"%char :: x :: r => if (x =? "x")%char || (x =? "X")%char then (16, r) else (10, cs)
    | _ => (10, cs)
    end in
  match take_digits radix cs with
  | [] => None
  | ds => Some (sign * digits_value radix ds)
  end.

(** A toast shown by a handler. *)
Inductive Toast :=
  | ToastSuccess (msg : string)
  | ToastError (msg : string).

(** The state of the transfer form. *)
Record TransferForm := mkForm { recipient : string; amount : string; isLoading : bool }.

(** [Object.keys(data.balances).filter((acc) => acc !== accountId)]; the
    order of the keys is not modelled (a [gmap] has none). *)
Definition availableAccounts (d : ShadowData) (accountId : string) : list string :=
  filter (fun acc => acc <> accountId) (map fst (map_to_list (balances d))).

(** [result.error || "Transfer failed"] *)
Definition error_or_default (e : string) : string :=
  if String.eqb e "" then "Transfer failed" else e.

Section Handlers.
Context {S : Type} `{LedgerServer S}.

Local Abbreviation M := (ST (Env S) JsError).

(** [handleTransfer] of [TransferPage] for the account [accountId]. *)
Definition handleTransfer (accountId : string) (f : TransferForm) : M (Toast * TransferForm) :=
  if String.eqb (recipient f) "" then st_ret (ToastError "Please select a recipient", f)
  else
    match parseInt (amount f) with
    | Some n =>
        if (n =? 0) || (n <=? 0) then st_ret (ToastError "Please enter a valid amount", f)
        else
          do result <- createPendingTransfer accountId (recipient f) n;
          match result with
          | PendingOk _ =>
              st_ret (ToastSuccess "Transfer sent! Awaiting admin confirmation.", mkForm "" "" false)
          | PendingFailed e =>
              st_ret (ToastError (error_or_default e), mkForm (recipient f) (amount f) false)
          end
    | None => st_ret (ToastError "Please enter a valid amount", f)
    end.

(** [handlePostTransaction] and [handleReverseTransaction]: [await] the
    hook's handler, a toast for each outcome. *)
Definition handlePostTransaction (transactionId : string) : M Toast :=
  st_catch (do _ <- postTransaction transactionId; st_ret (ToastSuccess "Transaction posted successfully"))
           (fun _ => st_ret (ToastError "Failed to post transaction")).

Definition handleReverseTransaction (transactionId : string) : M Toast :=
  st_catch (do _ <- reverseTransaction transactionId; st_ret (ToastSuccess "Transaction reversed successfully"))
           (fun _ => st_ret (ToastError "Failed to reverse transaction")).

(** [handlePostTransfer] and [handleReverseTransfer]: the success toast is
    shown whatever the hook did. *)
Definition handlePostTransfer (transferId : string) : M Toast :=
  do _ <- postTransfer transferId; st_ret (ToastSuccess "Transfer posted successfully").

Definition handleReverseTransfer (transferId : string) : M Toast :=
  do _ <- reverseTransfer transferId; st_ret (ToastSuccess "Transfer reversed successfully").

(** A click on a button of the admin card of transfer [t]. *)
Definition run_card_action (t : Transfer.t) (act : CardAction) : M Toast :=
  match act with
  | ActPost => handlePostTransfer (Transfer.id t)
  | ActReverse => handleReverseTransfer (Transfer.id t)
  end.
End Handlers.

Example parseInt_plain : parseInt "400" = Some 400.
Proof. reflexivity. Qed.
Example parseInt_prefix : parseInt "  12abc" = Some 12.
Proof. reflexivity. Qed.
Example parseInt_hex : parseInt "0x1A" = Some 26.
Proof. reflexivity. Qed.
Example parseInt_negative : parseInt "-5" = Some (-5).
Proof. reflexivity. Qed.
Example parseInt_nan : parseInt "abc" = None.
Proof. reflexivity. Qed.
Example parseInt_fraction : parseInt "12.75" = Some 12.
Proof. reflexivity. Qed.

(** Transfer ids are unique. *)
Definition trf_ids_unique (l : list Transfer.t) : Prop := NoDup (map Transfer.id l).

(** ** Lemmas *)

Lemma js_find_trf_unique l t :
  trf_ids_unique l -> t ∈ l -> js_find (has_trf_id (Transfer.id t)) l = Some t.
Proof.
  intros Hnd Ht. destruct (js_find _ l) as [x|] eqn:Hf.
  - destruct (js_find_Some _ _ _ Hf) as [Hx Hxid]. unfold has_trf_id in Hxid.
    apply String.eqb_eq in Hxid. f_equal.
    apply list_elem_of_lookup in Hx as [i Hi], Ht as [j Hj].
    assert (i = j) as ->.
    { eapply NoDup_lookup; [exact Hnd| |]; rewrite list_lookup_fmap;
        [rewrite Hi|rewrite Hj]; simpl; [rewrite Hxid|]; reflexivity. }
    congruence.
  - exfalso. pose proof (js_find_None _ _ Hf t Ht) as Hn. unfold has_trf_id in Hn.
    by rewrite String.eqb_refl in Hn.
Qed.

Lemma availableAccounts_ne d accountId acc :
  acc ∈ availableAccounts d accountId -> acc <> accountId.
Proof. unfold availableAccounts. by intros [? _]%list_elem_of_filter. Qed.

Section PageFacts.
Context {S : Type} `{LedgerServer S}.

(** C21. The transfer page only ever calls [createPendingTransfer] with a
    positive amount (the [parseInt] of what was typed) and, when the
    recipient was chosen from [availableAccounts], with a recipient other
    than the sender; any other outcome leaves the state as it was. *)
Theorem handleTransfer_sends_valid accountId f (e : Env S) r e' :
  recipient f ∈ availableAccounts (data e) accountId ->
  handleTransfer accountId f e = (r, e') ->
  e' = e \/
  exists n t, parseInt (amount f) = Some n /\ 0 < n /\ recipient f <> accountId /\
    createPendingTransfer accountId (recipient f) n e = (inr (PendingOk t), e').
Proof.
  intros Hrec. pose proof (availableAccounts_ne _ _ _ Hrec) as Hne.
  unfold handleTransfer. destruct (String.eqb (recipient f) "") ; [intros [= _ <-]; by left|].
  destruct (parseInt (amount f)) as [n|] eqn:Hp; [|intros [= _ <-]; by left].
  destruct (Z.eqb_spec n 0), (Z.leb_spec n 0); simpl; try (intros [= _ <-]; by left).
  unfold st_bind. destruct (createPendingTransfer accountId (recipient f) n e) as [[err|[t|msg]] e1] eqn:Hc.
  - intros [= _ <-]. exfalso. revert Hc. unfold createPendingTransfer.
    by destruct (pendingTransfer _ _ _ _ _) as [? []].
  - intros [= _ <-]. right. exists n, t. split_and!; [done|lia|done|done].
  - intros [= _ <-]. left. revert Hc. unfold createPendingTransfer, pendingTransfer.
    by destruct (_ <? _); intros [= _ <-].
Qed.

(** C24. Each button of an admin transfer card refines one step of the
    lifecycle of the specification: with unique transfer ids, clicking it
    moves the clicked transfer from its status to a status [status_step]
    allows and changes no other transfer. *)
Theorem card_action_refines t act (e : Env S) r e' :
  trf_ids_unique (transfers (data e)) -> t ∈ transfers (data e) ->
  act ∈ transfer_card_actions true (Transfer.status t) ->
  run_card_action t act e = (r, e') ->
  exists st', status_step (Transfer.status t) st' /\
    transfers (data e') =
      map_where (has_trf_id (Transfer.id t)) (Transfer.with_status st') (transfers (data e)).
Proof.
  intros Hu Ht Hact. pose proof (js_find_trf_unique _ _ Hu Ht) as Hf.
  destruct act; unfold run_card_action, handlePostTransfer, handleReverseTransfer, st_bind.
  - rewrite (postTransfer_ok _ t) by done. intros [= _ <-]. exists posted.
    split; [|done]. destruct (Transfer.status t); vm_compute in Hact;
      first [constructor | exfalso; set_solver].
  - rewrite (reverseTransfer_ok _ t) by done. intros [= _ <-]. exists reversed.
    split; [|done]. destruct (Transfer.status t); vm_compute in Hact;
      first [constructor | exfalso; set_solver].
Qed.

(** C25. The admin page reports a transfer as posted even when the hook
    did nothing because the id is unknown. *)
Theorem handlePostTransfer_unknown_reports_success id (e : Env S) :
  js_find (has_trf_id id) (transfers (data e)) = None ->
  handlePostTransfer id e = (inr (ToastSuccess "Transfer posted successfully"), e).
Proof.
  intros Hf. unfold handlePostTransfer, st_bind, postTransfer, save_opt, postTransferData.
  by rewrite Hf.
Qed.
End PageFacts.
