(* ===== verification/TransferPage.v ===== *)
(** * The transfer page: what it shows and what a submission does

    [src/app/user/[id]/transfer/page.tsx] shows the sender's available
    balance (and, when [total > available], the amount pending
    confirmation), a recipient [<select>] over [availableAccounts] and an
    amount [<input type="number" max={currentBalance.available}>]. Its
    Send button is [disabled={isLoading || !recipient || !amount}], and a
    disabled default button blocks the submission of the form (HTML
    implicit submission). Before the [submit] event the browser validates
    the amount field ([Html]): a number above [max] blocks it. The input
    has no [min], so the step base is the input's [value] attribute, which
    React keeps equal to the value: no step mismatch arises. Then
    [handleTransfer] ([Pages]) reads the same text with [parseInt]. The
    navigation back to the dashboard after 1.5 s ([setTimeout] with
    [router.push]) changes no state of the model. *)

From Stdlib Require Import Ascii QArith.
From S2P Require Import Prelude Date Html Data Server Api Notify Store Views Pages.

Local Open Scope Z_scope.

(** [max={currentBalance.available}] *)
Definition transfer_max (d : ShadowData) (accountId : string) : Q :=
  inject_Z (available (balance_of d accountId)).

(** Constraint validation of the amount field: the empty value passes; a
    number passes when it is at most [max]. *)
Definition transfer_form_accepts (d : ShadowData) (accountId : string) (v : string) : bool :=
  match valid_float v with
  | None => true
  | Some q => Qle_bool q (transfer_max d accountId)
  end.

(** [disabled={isLoading || !recipient || !amount}] *)
Definition send_disabled (f : TransferForm) : bool :=
  isLoading f || String.eqb (recipient f) "" || String.eqb (amount f) "".

(** What a press of Send (or of Enter in the form) ends with. *)
Inductive SendOutcome :=
  | NotSubmitted                          (* the button is disabled *)
  | BlockedByBrowser                      (* constraint validation failed *)
  | Submitted (toast : Toast) (form : TransferForm).

Section Page.
Context {S : Type} `{LedgerServer S}.

Local Abbreviation M := (ST (Env S) JsError).

(** The form's submission: the disabled button, the browser's validation
    against the balance shown at the last render, then [handleTransfer]. *)
Definition submitTransfer (accountId : string) (f : TransferForm) : M SendOutcome :=
  if send_disabled f then st_ret NotSubmitted
  else fun e =>
    if transfer_form_accepts (data e) accountId (amount f) then
      (do r <- handleTransfer accountId f; st_ret (Submitted (fst r) (snd r))) e
    else (inr BlockedByBrowser, e).
End Page.

(** The Send button's text: [{isLoading ? "Processing..." : <>Send ...</>}]. *)
Definition send_label (f : TransferForm) : string :=
  if isLoading f then "Processing..." else "Send".

(** Where the page goes 1.5 s after a transfer was sent:
    [router.push(`/user/${accountId}`)]. *)
Definition success_redirect (accountId : string) : string := "/user/" +:+ accountId.

(** The balance box: [₦{available.toLocaleString()}], and the line
    [💡 ₦{(total - available).toLocaleString()} pending confirmation] when
    [total > available]. *)
Definition available_line (d : ShadowData) (accountId : string) : string :=
  naira +:+ toLocaleString (available (balance_of d accountId)).

Definition pending_line (d : ShadowData) (accountId : string) : option string :=
  let b := balance_of d accountId in
  if available b <? total b then
    Some ("💡 " +:+ naira +:+ toLocaleString (total b - available b) +:+ " pending confirmation")
  else None.

(** The options of the recipient [<select>]: value and label. *)
Definition recipient_options (d : ShadowData) (accountId : string) : list (string * string) :=
  ("", "Select recipient...") :: map (fun acc => (acc, acc)) (availableAccounts d accountId).

(** The text of a plain decimal numeral, most significant digit first. *)
Definition decimal_text (ds : list Z) : string := String.string_of_list_ascii (map digit ds).

(** A numeral, [e], and a numeral: a number in exponent notation, which a
    number input accepts (["1e3"] is [1000]). *)
Definition exp_text (ds ks : list Z) : string :=
  String.string_of_list_ascii (map digit ds ++ "e"%char :: map digit ks).

(** Its digits are decimal digits, at least one. *)
Definition numeral (ds : list Z) : Prop := ds <> [] /\ Forall (fun d => 0 <= d < 10) ds.

(** The page component [TransferPage] as it renders. *)
Module TransferPage.

(** What the loaded page shows, from top to bottom: the navbar of the
    user's account, the heading, the balance box, the form (the selected
    recipient among the options, the amount field and its [max], the Send
    button's text and [disabled]) and the Back button, which only calls
    [router.back()]. The footer is static. *)
Record view := mkView {
  navbar_role : string;
  navbar_account : string;
  heading : string * string;
  balance_text : string;
  pending_text : option string;
  options : list (string * string);
  selected : string;
  amount_value : string;
  amount_max : Q;
  send_text : string;
  send_is_disabled : bool;
  back_label : string
}.

Definition shown (d : ShadowData) (accountId : string) (f : TransferForm) : view :=
  mkView "user" accountId ("Send Money", "Transfer funds to another account")
    (available_line d accountId) (pending_line d accountId)
    (recipient_options d accountId) (recipient f) (amount f) (transfer_max d accountId)
    (send_label f) (send_disabled f) "Back".

(** [if (!isLoaded) return <div>Loading...</div>]; then the page of
    [currentBalance = data.balances[accountId] || { total: 0, available: 0 }]. *)
Inductive page := Loading | Shown (v : view).

Definition render (isLoaded : bool) (d : ShadowData) (accountId : string) (f : TransferForm) : page :=
  if isLoaded then Shown (shown d accountId f) else Loading.

End TransferPage.

(** ** Lemmas *)

Lemma digit_cases d :
  0 <= d < 10 ->
  d = 0 \/ d = 1 \/ d = 2 \/ d = 3 \/ d = 4 \/ d = 5 \/ d = 6 \/ d = 7 \/ d = 8 \/ d = 9.
Proof. lia. Qed.

Lemma digit_value_digit d : 0 <= d < 10 -> digit_value (digit d) = Some d.
Proof. intros Hd. pose proof (digit_cases d Hd) as Hc. destruct_or! Hc; by subst. Qed.

Lemma read_run_digits_app ds cs acc k :
  Forall (fun d => 0 <= d < 10) ds ->
  read_run (map digit ds ++ cs) acc k = read_run cs (foldl (fun a d => a * 10 + d) acc ds) (k + length ds)%nat.
Proof.
  revert acc k. induction ds as [|d ds IH]; intros acc k Hds; simpl; [by rewrite Nat.add_0_r|].
  apply Forall_cons in Hds as [Hd Hds]. rewrite dec_digit_digit, IH by done.
  f_equal. lia.
Qed.

Lemma take_digits_app ds cs :
  Forall (fun d => 0 <= d < 10) ds -> take_digits 10 (map digit ds ++ cs) = ds ++ take_digits 10 cs.
Proof.
  induction ds as [|d ds IH]; intros Hds; simpl; [done|].
  apply Forall_cons in Hds as [Hd Hds]. rewrite digit_value_digit by done.
  rewrite (proj2 (Z.ltb_lt d 10)) by lia. by rewrite IH.
Qed.

(** The head digit of a numeral, and for [0] the next one, decide the
    matches on the first characters; this splits on them. *)
Ltac digit_split d Hd :=
  let Hc := fresh "Hc" in pose proof (digit_cases d Hd) as Hc; destruct_or! Hc; subst d.

(** [parseInt] reads a numeral up to the first character that is no
    decimal digit, and that is no [x] or [X] (which after a [0] would
    select base 16). *)
Lemma parseInt_numeral_app ds cs :
  numeral ds -> take_digits 10 cs = [] ->
  (forall x r, cs = x :: r -> ((x =? "x") || (x =? "X"))%char = false) ->
  parseInt (String.string_of_list_ascii (map digit ds ++ cs)) = Some (digits_value 10 ds).
Proof.
  intros [Hne Hall] Hcs Hx. unfold parseInt.
  rewrite String.list_ascii_of_string_of_list_ascii.
  destruct ds as [|d ds]; [done|]. apply Forall_cons in Hall as [Hd Hds].
  digit_split d Hd;
    [destruct ds as [|d' ds];
       [destruct cs as [|x cs]; [|simpl; rewrite (Hx x cs eq_refl);
          change (digit 0 :: x :: cs) with (map digit [0] ++ x :: cs);
          rewrite take_digits_app, Hcs by (repeat constructor; lia)]
       |apply Forall_cons in Hds as [Hd' Hds]; digit_split d' Hd']|..];
    simpl; rewrite ?take_digits_app, ?Hcs, ?app_nil_r by done; simpl; f_equal; rewrite Z.mul_1_l;
    repeat f_equal; reflexivity.
Qed.

Lemma parseInt_numeral ds : numeral ds -> parseInt (decimal_text ds) = Some (digits_value 10 ds).
Proof.
  intros Hds. unfold decimal_text. rewrite <- (app_nil_r (map digit ds)).
  by apply parseInt_numeral_app.
Qed.

(** The sign a number of the HTML standard may start with is absent before
    a numeral. *)
Lemma numeral_no_sign {A} ds cs (neg pos : list ascii -> A) (dflt : A) :
  numeral ds ->
  match map digit ds ++ cs with "-"%char :: r => neg r | "+"%char :: r => pos r | _ => dflt end = dflt.
Proof.
  intros [Hne Hall]. destruct ds as [|d ds]; [done|].
  apply Forall_cons in Hall as [Hd _]. by digit_split d Hd.
Qed.

Lemma numeral_no_minus {A} ds cs (neg : list ascii -> A) (dflt : A) :
  numeral ds -> match map digit ds ++ cs with "-"%char :: r => neg r | _ => dflt end = dflt.
Proof.
  intros [Hne Hall]. destruct ds as [|d ds]; [done|].
  apply Forall_cons in Hall as [Hd _]. by digit_split d Hd.
Qed.

Lemma read_run_digits ds acc k :
  Forall (fun d => 0 <= d < 10) ds ->
  read_run (map digit ds) acc k = (foldl (fun a d => a * 10 + d) acc ds, (k + length ds)%nat, []).
Proof. intros Hds. by rewrite <- (app_nil_r (map digit ds)), read_run_digits_app. Qed.

(** The number a numeral followed by [cs] denotes, when [cs] is empty or
    an exponent part: the numeral's value scaled by the exponent. *)
Lemma valid_float_numeral_app ds cs :
  numeral ds -> cs = [] \/ (exists r, cs = "e"%char :: r) ->
  valid_float (String.string_of_list_ascii (map digit ds ++ cs)) =
    (ex ← read_exponent cs; Some (inject_Z (digits_value 10 ds) * pow10 ex)%Q).
Proof.
  intros Hn Hcs. pose proof Hn as [Hne Hall]. unfold valid_float.
  rewrite String.list_ascii_of_string_of_list_ascii, numeral_no_minus, read_run_digits_app by done.
  destruct ds as [|d ds]; [done|].
  destruct Hcs as [->|[r ->]]; cbn -[read_exponent pow10 foldl Z.pow];
    [|rewrite (eq_refl : dec_digit "e"%char = None); cbn -[read_exponent pow10 foldl Z.pow];
      destruct (read_exponent ("e"%char :: r)); [|done]];
    unfold digits_value; cbn -[pow10]; by rewrite ?Z.mul_1_r, ?Z.add_0_r, ?Z.sub_0_r.
Qed.

Lemma valid_float_numeral ds :
  numeral ds -> valid_float (decimal_text ds) = Some (inject_Z (digits_value 10 ds)).
Proof.
  intros Hn. unfold decimal_text. rewrite <- (app_nil_r (map digit ds)).
  rewrite valid_float_numeral_app by auto.
  cbn. unfold inject_Z, Qmult. simpl. by rewrite Z.mul_1_r.
Qed.

Lemma foldl_digits_nonneg ds acc :
  0 <= acc -> Forall (fun d => 0 <= d < 10) ds -> 0 <= foldl (fun a d => a * 10 + d) acc ds.
Proof.
  revert acc. induction ds as [|d ds IH]; intros acc Hacc Hds; simpl; [done|].
  apply Forall_cons in Hds as [Hd Hds]. apply IH; [lia|done].
Qed.

Lemma digits_value_nonneg ds : numeral ds -> 0 <= digits_value 10 ds.
Proof. intros [_ Hall]. by apply foldl_digits_nonneg. Qed.

Lemma read_exponent_numeral ks :
  numeral ks -> read_exponent ("e"%char :: map digit ks) = Some (digits_value 10 ks).
Proof.
  intros Hn. pose proof Hn as [Hne Hall]. unfold read_exponent.
  rewrite <- (app_nil_r (map digit ks)), numeral_no_sign, read_run_digits_app by done.
  destruct ks as [|k ks]; [done|]. simpl. by rewrite Z.mul_1_l.
Qed.

Lemma valid_float_exp_text ds ks :
  numeral ds -> numeral ks ->
  valid_float (exp_text ds ks) = Some (inject_Z (digits_value 10 ds * 10 ^ digits_value 10 ks)).
Proof.
  intros Hd Hk. unfold exp_text. rewrite valid_float_numeral_app by eauto.
  rewrite read_exponent_numeral by done. simpl.
  by rewrite pow10_nonneg, <- inject_Z_mult by (apply digits_value_nonneg, Hk).
Qed.

Lemma parseInt_exp_text ds ks :
  numeral ds -> parseInt (exp_text ds ks) = Some (digits_value 10 ds).
Proof. intros Hd. apply parseInt_numeral_app; [done|done|by intros x r [= <- _]]. Qed.

Lemma decimal_text_nonempty ds : ds <> [] -> decimal_text ds <> "".
Proof. by destruct ds. Qed.

Section Facts.
Context {S : Type} `{LedgerServer S}.

(** An enabled form whose amount the browser reads as [v] and [parseInt]
    as [n], with [0 < n <= v]: the browser compares [v] with the available
    balance, and the page then sends [n]. *)
Lemma submitTransfer_number accountId f (e : Env S) v n :
  send_disabled f = false ->
  valid_float (amount f) = Some (inject_Z v) -> parseInt (amount f) = Some n ->
  0 < n -> n <= v ->
  submitTransfer accountId f e =
    if v <=? available (balance_of (data e) accountId) then
      (inr (Submitted (ToastSuccess "Transfer sent! Awaiting admin confirmation.") (mkForm "" "" false)),
       snd (createPendingTransfer accountId (recipient f) n e))
    else (inr BlockedByBrowser, e).
Proof.
  intros Hdis Hv Hp Hn Hnv. unfold submitTransfer, transfer_form_accepts, transfer_max.
  rewrite Hdis, Hv, Qle_bool_inject_Z.
  destruct (Z.leb_spec v (available (balance_of (data e) accountId))) as [Hle|]; [|done].
  unfold send_disabled in Hdis. apply orb_false_iff in Hdis as [Hdis _].
  apply orb_false_iff in Hdis as [_ Hrec].
  unfold handleTransfer, st_bind. rewrite Hrec, Hp.
  rewrite (proj2 (Z.eqb_neq n 0)), (proj2 (Z.leb_gt n 0)) by lia.
  cbn [orb]. pose proof (createPendingTransfer_ok accountId (recipient f) n e ltac:(lia)) as Hc.
  destruct (createPendingTransfer accountId (recipient f) n e). injection Hc as -> ->. reflexivity.
Qed.

(** C22. The transfer page checks one amount and sends another. With the
    form enabled and a positive numeral [n] typed, the browser blocks the
    submission when [n] exceeds the available balance and otherwise the
    page calls [createPendingTransfer] with [n]. Typed in exponent
    notation, ["<n>e<k>"], the browser checks the number [n * 10^k] it
    denotes against the balance, while [parseInt] stops at the [e] and the
    page transfers [n]: ["1e3"] with 500 available is blocked, and with
    1000 available sends 1. *)
Theorem transfer_page_amount accountId f (e : Env S) ds ks :
  numeral ds -> numeral ks -> send_disabled f = false -> 0 < digits_value 10 ds ->
  (amount f = decimal_text ds ->
   submitTransfer accountId f e =
     if digits_value 10 ds <=? available (balance_of (data e) accountId) then
       (inr (Submitted (ToastSuccess "Transfer sent! Awaiting admin confirmation.") (mkForm "" "" false)),
        snd (createPendingTransfer accountId (recipient f) (digits_value 10 ds) e))
     else (inr BlockedByBrowser, e)) /\
  (amount f = exp_text ds ks ->
   submitTransfer accountId f e =
     if digits_value 10 ds * 10 ^ digits_value 10 ks <=? available (balance_of (data e) accountId) then
       (inr (Submitted (ToastSuccess "Transfer sent! Awaiting admin confirmation.") (mkForm "" "" false)),
        snd (createPendingTransfer accountId (recipient f) (digits_value 10 ds) e))
     else (inr BlockedByBrowser, e)).
Proof.
  intros Hd Hk Hdis Hn. split; intros Ha; apply submitTransfer_number; rewrite ?Ha; try done.
  - by apply valid_float_numeral.
  - by apply parseInt_numeral.
  - by apply valid_float_exp_text.
  - by apply parseInt_exp_text.
  - pose proof (Z.pow_pos_nonneg 10 (digits_value 10 ks) ltac:(lia) (digits_value_nonneg ks Hk)). nia.
Qed.
End Facts.

(** C23. The recipients the loaded transfer page offers (the options with
    a non-empty value) are exactly the accounts with a balance other than
    the user's own: the page never lets a user pick themself, the self
    transfer the hook would accept. *)
Theorem shown_recipients d accountId f acc :
  acc <> "" ->
  acc ∈ map fst (TransferPage.options (TransferPage.shown d accountId f)) <-> is_Some (balances d !! acc) /\ acc <> accountId.
Proof.
  intros Hne. unfold TransferPage.shown, recipient_options, availableAccounts. simpl.
  rewrite elem_of_cons, map_map, (map_ext _ (fun x => x)), map_id by done.
  rewrite list_elem_of_filter, list_elem_of_fmap.
  split.
  - intros [->|[? [[k v] [-> Hin%elem_of_map_to_list]]]]; [done|]. simpl. naive_solver.
  - intros [[v Hv] Hacc]. right. split; [done|]. exists (acc, v). split; [done|].
    by apply elem_of_map_to_list.
Qed.
