(* ===== verification/Create.v ===== *)
(** * The admin page that creates credits

    [src/app/admin/create/page.tsx] holds [accountId], [amount] and
    [isSubmitting]; its form has the amount field
    [<input type="number" min="1" step="100">] and runs [handleSubmit] on
    submit. Two pieces of the platform sit between the user and the
    handler, modelled from the HTML standard (they are not code of the
    repository):
    - value sanitization: the [value] of a number input is the empty
      string or a valid floating-point number ([Html.valid_float]);
    - constraint validation: before the [submit] event the browser checks
      the field; a value below [min] or whose difference from the step
      base [min] is not a multiple of [step] blocks the submission
      ([form_accepts]).
    [Number(amount)] on such a value is the number it denotes; the
    browser rounds it to a double, which is not modelled (values are
    exact rationals). [createTransaction] takes the integer amounts of the
    model; a call with an amount that is not an integer leaves the model
    and is reported as [Fractional]. *)

From Stdlib Require Import Ascii QArith Lqa.
From S2P Require Import Prelude Date Html Data Server Api Notify Store Pages.

Local Open Scope Z_scope.

(** [Number(amount)] on the value of the field: [""] is [0]; a value that
    is no number is [NaN] ([None]). *)
Definition Number_value (v : string) : option Q :=
  if String.eqb v "" then Some 0%Q else valid_float v.

(** Constraint validation of [min="1" step="100"]: the empty value has no
    number and passes; a number passes when it is at least [min] and its
    difference from the step base [min] is a multiple of [step]. *)
Definition form_accepts (v : string) : bool :=
  match valid_float v with
  | None => true
  | Some q => Qle_bool 1 q && integral ((q - 1) / 100)%Q
  end.

Module Form.
(** The page's [useState]s. *)
Record t := mk {
  accountId : string;
  amount : string;
  isSubmitting : bool
}.
End Form.

(** The first render: [useState("acc-demo-1")], [useState("")],
    [useState(false)]. *)
Definition init : Form.t := Form.mk "acc-demo-1" "" false.

(** The [<option>]s of the account [<select>]. *)
Definition account_options : list string := ["acc-demo-1"; "acc-demo-2"].

(** [{isSubmitting ? "Creating..." : "Create Transaction"}] *)
Definition button_label (f : Form.t) : string :=
  if Form.isSubmitting f then "Creating..." else "Create Transaction".

(** The page component [CreateTransaction] as it renders. *)
Module CreateTransaction.

(** What the loaded page shows: the admin navbar, the heading, the
    account [<select>] with its options, the amount field with its [min]
    and [step], and the submit button's text and [disabled]. The footer
    is static. *)
Record view := mkView {
  navbar_role : string;
  heading : string * string;
  selected_account : string;
  accounts : list string;
  amount_value : string;
  amount_min : string;
  amount_step : string;
  button_text : string;
  button_disabled : bool
}.

Definition shown (f : Form.t) : view :=
  mkView "admin" ("Create Transaction", "Create a new credit transaction for a user account")
    (Form.accountId f) account_options (Form.amount f) "1" "100"
    (button_label f) (Form.isSubmitting f).

(** [if (!isLoaded) return <div>Loading...</div>] *)
Inductive page := Loading | Shown (v : view).

Definition render (isLoaded : bool) (f : Form.t) : page :=
  if isLoaded then Shown (shown f) else Loading.

End CreateTransaction.

(** What a submission of the form ends with. *)
Inductive Outcome :=
  | ButtonDisabled                        (* [disabled={isSubmitting}] *)
  | Blocked                               (* constraint validation failed *)
  | Handled (toast : Toast) (form : Form.t)
  | Fractional (amount : option Q).       (* a call outside the integer model *)

Section Page.
Context {S : Type} `{LedgerServer S}.

Local Abbreviation M := (ST (Env S) JsError).

(** [handleSubmit]: the guard, the call in a [try], the toasts, [amount]
    cleared on success and [isSubmitting] back to [false]. *)
Definition handleSubmit (f : Form.t) : M Outcome :=
  if String.eqb (Form.amount f) "" then
    st_ret (Handled (ToastError "Please enter a valid amount") f)
  else
    match Number_value (Form.amount f) with
    | Some q =>
        if Qle_bool q 0%Q then st_ret (Handled (ToastError "Please enter a valid amount") f)
        else if integral q then
          st_catch
            (do _ <- createTransaction (Form.accountId f) (Qnum q / Zpos (Qden q));
             st_ret (Handled (ToastSuccess ("Transaction created for " +:+ Form.accountId f))
                             (Form.mk (Form.accountId f) "" false)))
            (fun _ => st_ret (Handled (ToastError "Failed to create transaction")
                                      (Form.mk (Form.accountId f) (Form.amount f) false)))
        else st_ret (Fractional (Some q))
    | None => st_ret (Fractional None)
    end.

(** Submitting the form: a disabled submit button blocks it (HTML
    implicit submission), then the browser's validation, then the handler. *)
Definition submit (f : Form.t) : M Outcome :=
  if Form.isSubmitting f then st_ret ButtonDisabled
  else if form_accepts (Form.amount f) then handleSubmit f else st_ret Blocked.
End Page.

(** ** Lemmas *)

(** The numbers [min="1" step="100"] lets through: [1], [101], [201], ... *)
Lemma step_valid q :
  (Qle_bool 1 q && integral ((q - 1) / 100))%Q = true <->
  exists n, (q == inject_Z n)%Q /\ 1 <= n /\ n mod 100 = 1.
Proof.
  rewrite andb_true_iff, Qle_bool_iff, integral_spec. split.
  - intros [Hle [k Hk]]. exists (100 * k + 1).
    assert (Hq : (q == inject_Z (100 * k + 1))%Q).
    { rewrite inject_Z_plus, inject_Z_mult, <- Hk. field. }
    split; [done|]. rewrite Hq in Hle. change 1%Q with (inject_Z 1) in Hle. rewrite <- Zle_Qle in Hle.
    split; [lia|]. rewrite Z.add_comm, Z.mul_comm, Z.mod_add by lia. done.
  - intros (n & Hq & Hn & Hm). split.
    + rewrite Hq. change 1%Q with (inject_Z 1). by rewrite <- Zle_Qle.
    + exists (n / 100). rewrite Hq.
      assert (Hd : n = 100 * (n / 100) + 1) by (pose proof (Z.div_mod n 100); lia).
      rewrite Hd at 1. rewrite inject_Z_plus, inject_Z_mult. field.
Qed.

Lemma valid_float_nonempty v q : valid_float v = Some q -> v <> "".
Proof. by intros Hv ->. Qed.

Section Facts.
Context {S : Type} `{LedgerServer S}.

(** The form as the page first shows it: submitting it with the empty
    amount passes the browser and meets the handler's guard. *)
Lemma submit_init (e : Env S) :
  submit init e = (inr (Handled (ToastError "Please enter a valid amount") init), e).
Proof. reflexivity. Qed.

(** C37. The create form submits exactly the amounts [1], [101], [201],
    ...: the browser's validation of [min="1" step="100"] counts the
    steps from [min], so it lets a number through when it is an integer
    [n >= 1] with [n mod 100 = 1], and blocks every other one (5000
    among them). A number it lets through reaches [createTransaction] as
    that integer; the page then shows the success toast and clears the
    field, or shows the failure toast and keeps it. *)
Theorem create_form_submits (f : Form.t) (e : Env S) q :
  valid_float (Form.amount f) = Some q -> Form.isSubmitting f = false ->
  (form_accepts (Form.amount f) = true <-> exists n, (q == inject_Z n)%Q /\ 1 <= n /\ n mod 100 = 1) /\
  (form_accepts (Form.amount f) = true ->
   exists n, (q == inject_Z n)%Q /\
     submit f e =
       match createTransaction (Form.accountId f) n e with
       | (inr _, e') => (inr (Handled (ToastSuccess ("Transaction created for " +:+ Form.accountId f))
                                      (Form.mk (Form.accountId f) "" false)), e')
       | (inl _, e') => (inr (Handled (ToastError "Failed to create transaction")
                                      (Form.mk (Form.accountId f) (Form.amount f) false)), e')
       end).
Proof.
  intros Hv Hs. unfold form_accepts. rewrite Hv. split; [apply step_valid|].
  intros Hacc. destruct (proj1 (step_valid q) Hacc) as (n & Hq & Hn & _).
  exists n. split; [done|]. unfold submit, form_accepts. rewrite Hs, Hv, Hacc.
  unfold handleSubmit, Number_value.
  rewrite (proj2 (String.eqb_neq _ _) (valid_float_nonempty _ _ Hv)), Hv.
  assert (Hpos : Qle_bool q 0 = false).
  { apply not_true_iff_false. rewrite Qle_bool_iff, Hq. intros Hle.
    change 0%Q with (inject_Z 0) in Hle. rewrite <- Zle_Qle in Hle. lia. }
  assert (Hint : integral q = true) by (apply integral_spec; by exists n).
  rewrite Hpos, Hint, (integral_quot q n Hq).
  unfold st_catch, st_bind, st_ret. by destruct (createTransaction (Form.accountId f) n e) as [[] ?].
Qed.
End Facts.
