(* ===== verification/Animation.v ===== *)
(** * The counting animation of the balance cards

    [src/components/balance-card.tsx] and [dual-balance-card.tsx] animate
    each shown amount: every 16 ms [start += increment], with
    [increment = end / (duration / 16)] and [duration = 1000]; when
    [start >= end] the card shows [end] and clears the interval, otherwise
    it shows [Math.floor(start)]. The model computes in exact rationals
    ([Q]); the browser uses binary floating point, whose rounding is not
    modelled. [ticks fuel] runs at most [fuel] ticks and reports whether
    the interval was cleared; the theorems show that 63 ticks always
    suffice, that the last value shown is the amount itself, and that for
    a non-negative amount every value shown lies between 0 and it. *)

From S2P Require Import Prelude.
From Stdlib Require Import QArith Qround Lqa.

Local Open Scope Q_scope.

(** [end / (duration / 16)] with [duration = 1000]. *)
Definition increment (end_ : Z) : Q := inject_Z end_ / (1000 # 16).

(** The interval callback, run for at most [fuel] ticks: the values shown
    and whether [clearInterval] was reached. *)
Fixpoint ticks (fuel : nat) (start : Q) (end_ : Z) (inc : Q) : list Z * bool :=
  match fuel with
  | O => ([], false)
  | S f =>
      let start' := start + inc in
      if Qle_bool (inject_Z end_) start' then ([end_], true)
      else let '(vs, finished) := ticks f start' end_ inc in (Qfloor start' :: vs, finished)
  end.

(** The effect of one card for the amount [end_], from [start = 0]. *)
Definition counter_run (fuel : nat) (end_ : Z) : list Z * bool :=
  ticks fuel 0 end_ (increment end_).

Example counter_run_small :
  counter_run 63 5 =
    ([0; 0; 0; 0; 0; 0; 0; 0; 0; 0; 0; 0; 1; 1; 1; 1; 1; 1; 1; 1; 1; 1; 1; 1;
      2; 2; 2; 2; 2; 2; 2; 2; 2; 2; 2; 2; 2; 3; 3; 3; 3; 3; 3; 3; 3; 3; 3; 3; 3;
      4; 4; 4; 4; 4; 4; 4; 4; 4; 4; 4; 4; 4; 5]%Z, true).
Proof. vm_compute. reflexivity. Qed.

Example counter_run_negative : counter_run 63 (-3) = ([-3]%Z, true).
Proof. vm_compute. reflexivity. Qed.

(** ** Lemmas *)

Lemma inject_Z_of_nat_S n : inject_Z (Z.of_nat (S n)) == inject_Z (Z.of_nat n) + 1.
Proof. rewrite Nat2Z.inj_succ, <- Z.add_1_r, inject_Z_plus. reflexivity. Qed.

(** If the amount is reached within [S fuel] increments of [start], the
    interval is cleared and the amount is the last value shown. *)
Lemma ticks_finish fuel q e inc :
  inject_Z e <= q + inject_Z (Z.of_nat (S fuel)) * inc ->
  exists vs, ticks (S fuel) q e inc = (vs ++ [e], true).
Proof.
  revert q. induction fuel as [|fuel IH]; intros q Hq; simpl.
  - assert (Hle : inject_Z e <= q + inc) by (change (inject_Z (Z.of_nat 1)) with 1 in Hq; lra).
    apply Qle_bool_iff in Hle. rewrite Hle. by exists [].
  - destruct (Qle_bool (inject_Z e) (q + inc)) eqn:Hb; [by exists []|].
    destruct (IH (q + inc)) as [vs Hvs].
    { rewrite inject_Z_of_nat_S in Hq. lra. }
    simpl in Hvs. rewrite Hvs. by exists (Qfloor (q + inc) :: vs).
Qed.

(** Every value shown lies between 0 and a non-negative amount. *)
Lemma ticks_bounds fuel q e inc :
  0 <= q -> 0 <= inc -> (0 <= e)%Z ->
  forall v, v ∈ fst (ticks fuel q e inc) -> (0 <= v <= e)%Z.
Proof.
  revert q. induction fuel as [|fuel IH]; intros q Hq Hinc He v; simpl; [set_solver|].
  destruct (Qle_bool (inject_Z e) (q + inc)) eqn:Hb.
  - intros ->%list_elem_of_singleton. lia.
  - destruct (ticks fuel (q + inc) e inc) as [vs fin] eqn:Ht. cbn [fst].
    intros [->|Hv]%elem_of_cons.
    + assert (Hlt : q + inc < inject_Z e).
      { apply Qnot_le_lt. intros Hle. apply Qle_bool_iff in Hle. congruence. }
      pose proof (Qfloor_le (q + inc)) as Hfl.
      assert (Hpos : 0 <= q + inc) by lra.
      pose proof (Qfloor_resp_le 0 (q + inc) Hpos) as H0. change (Qfloor 0) with 0%Z in H0.
      split; [exact H0|]. apply Z.lt_le_incl. rewrite Zlt_Qlt.
      eapply Qle_lt_trans; [exact Hfl|exact Hlt].
    + eapply (IH (q + inc)); [lra|done|done|]. by rewrite Ht.
Qed.

(** The counting animation always stops: within 63 ticks of 16 ms the
    interval is cleared, and the last value the card shows is the amount
    itself, whatever its sign. *)
Theorem counter_terminates e :
  exists vs, counter_run 63 e = (vs ++ [e], true).
Proof.
  unfold counter_run, increment, Qdiv. change (/ (1000 # 16)) with (16 # 1000).
  destruct (Z.le_gt_cases e 0) as [He|He].
  - (* a non-positive amount: the first tick already reaches it *)
    rewrite Zle_Qle in He. change (inject_Z 0) with 0 in He.
    assert (Hb : Qle_bool (inject_Z e) (0 + inject_Z e * (16 # 1000)) = true).
    { apply Qle_bool_iff. lra. }
    exists []. cbn [ticks]. by rewrite Hb.
  - rewrite Zlt_Qlt in He. change (inject_Z 0) with 0 in He.
    apply ticks_finish. change (inject_Z (Z.of_nat 63)) with (63 # 1). lra.
Qed.

(** For a non-negative amount, every value a balance card shows while
    counting lies between 0 and the amount, whatever the number of ticks. *)
Theorem counter_bounds fuel e v :
  (0 <= e)%Z -> v ∈ fst (counter_run fuel e) -> (0 <= v <= e)%Z.
Proof.
  intros He. apply ticks_bounds; [lra| |done].
  unfold increment, Qdiv. change (/ (1000 # 16)) with (16 # 1000).
  rewrite Zle_Qle in He. change (inject_Z 0) with 0 in He. lra.
Qed.
