(* ===== verification/Cards.v ===== *)
(** * The dual balance card, the transfers list, the sidebar and the navbar

    [src/components/dual-balance-card.tsx] is the card the user dashboard
    renders with [totalBalance] and [availableBalance]. It holds two
    [useState]s, [displayTotal] and [displayAvailable], and two effects:
    the one of [totalBalance] starts an interval that every 16 ms adds
    [incrementTotal = endTotal / (1000 / 16)] to [startTotal] and shows
    [Math.floor(startTotal)], or [endTotal] and clears the interval once
    [startTotal >= endTotal]; the one of [availableBalance] does the same
    for the available amount. React runs an effect again only when its
    dependency changes, after clearing the old interval: the shown value
    then counts up again from [0] while the other one stays. Module
    [DualBalanceCard] models the props, the two states and the two
    intervals; [Tick] is 16 ms (both intervals fire), [SetProps] a render
    with new props. The pending line uses the props directly.

    [BalanceCard] ([src/components/balance-card.tsx]) is the one-counter
    card no page renders; it shares the callback of [DualBalanceCard]. Its
    source holds the characters [â‚¦] where the naira sign was meant (the
    UTF-8 bytes of [₦] read as Windows-1252), and prints them.

    [TransfersList] ([src/components/transfers-list.tsx]), [Sidebar]
    ([src/components/sidebar.tsx]) and [Navbar]
    ([src/components/navbar.tsx]) compute what they show from their props
    and the path. The dates of a transfer row go through
    [toLocaleDateString] and [toLocaleTimeString], whose output depends on
    the browser's locale: a row keeps the stored timestamp instead. *)

From Stdlib Require Import QArith Qround.
From S2P Require Import Prelude Data Notify Views Animation.

Local Open Scope Z_scope.

Module DualBalanceCard.

(** The interval of one effect: its [start] and whether it still runs. *)
Record timer := mkTimer { start : Q; running : bool }.

(** A run of the effect: [let start = 0] and a new [setInterval]. *)
Definition fresh : timer := mkTimer 0 true.

(** The props, the two [useState]s and the two intervals. *)
Record state := mk {
  totalBalance : Z;
  availableBalance : Z;
  displayTotal : Z;
  displayAvailable : Z;
  timerTotal : timer;
  timerAvailable : timer
}.

(** The first render: both displays at [0], both effects started. *)
Definition mount (T A : Z) : state := mk T A 0 0 fresh fresh.

(** The interval callback for the amount [end_]: the timer and the shown
    value after it; a cleared interval does not fire. *)
Definition callback (end_ : Z) (tm : timer) (display : Z) : timer * Z :=
  if running tm then
    let start' := (start tm + increment end_)%Q in
    if Qle_bool (inject_Z end_) start' then (mkTimer start' false, end_)
    else (mkTimer start' true, Qfloor start')
  else (tm, display).

Inductive event :=
  | Tick                  (* 16 ms: each running interval fires *)
  | SetProps (T A : Z).   (* a render with the props [T] and [A] *)

(** A render reruns the effect whose dependency changed ([Object.is] on
    numbers), with a fresh interval; the display keeps its value. *)
Definition step (s : state) (ev : event) : state :=
  match ev with
  | Tick =>
      let '(tmT, dT) := callback (totalBalance s) (timerTotal s) (displayTotal s) in
      let '(tmA, dA) := callback (availableBalance s) (timerAvailable s) (displayAvailable s) in
      mk (totalBalance s) (availableBalance s) dT dA tmT tmA
  | SetProps T A =>
      mk T A (displayTotal s) (displayAvailable s)
        (if T =? totalBalance s then timerTotal s else fresh)
        (if A =? availableBalance s then timerAvailable s else fresh)
  end.

Definition run (s : state) (evs : list event) : state := foldl step s evs.

(** What the card shows. *)
Record view := mkView {
  total_text : string;
  available_text : string;
  pending_text : option string;
  account_text : string
}.

(** [₦{displayTotal.toLocaleString()}], [₦{displayAvailable.toLocaleString()}],
    the line [₦{pendingAmount.toLocaleString()} pending confirmation] when
    [pendingAmount > 0], and the account id. *)
Definition render (accountId : string) (s : state) : view :=
  let b := mkBalance (totalBalance s) (availableBalance s) in
  mkView (naira +:+ toLocaleString (displayTotal s))
         (naira +:+ toLocaleString (displayAvailable s))
         (if shows_pending b
          then Some (naira +:+ toLocaleString (pendingAmount b) +:+ " pending confirmation")
          else None)
         accountId.

(** ** The closed form of a counter *)

(** One counter's callback, on the pair it updates. *)
Definition tick1 (end_ : Z) (p : timer * Z) : timer * Z := callback end_ p.1 p.2.

(** After [n] ticks of a fresh interval for [e]: whether it is cleared... *)
Definition stopped (e : Z) (n : nat) : bool :=
  (1 <=? Z.of_nat n) && ((e <=? 0) || (1000 * e <=? 16 * Z.of_nat n * e)).

(** ... and the value shown, [d0] being the value shown before. *)
Definition counting (e : Z) (n : nat) (d0 : Z) : Z :=
  if stopped e n then e
  else if (n =? 0)%nat then d0
  else 16 * Z.of_nat n * e / 1000.

(** A counter is some run of the ticks of a fresh interval for its
    amount, started when the card showed [d0]. *)
Definition counter_ok (e : Z) (tm : timer) (d : Z) : Prop :=
  exists n d0, (tm, d) = Nat.iter n (tick1 e) (fresh, d0).

Definition card_ok (s : state) : Prop :=
  counter_ok (totalBalance s) (timerTotal s) (displayTotal s) /\
  counter_ok (availableBalance s) (timerAvailable s) (displayAvailable s).

End DualBalanceCard.

Module BalanceCard.

(** [balance], [displayBalance] and the interval of its effect. *)
Record state := mk { balance : Z; displayBalance : Z; timer : DualBalanceCard.timer }.

Definition mount (b : Z) : state := mk b 0 DualBalanceCard.fresh.

Inductive event := Tick | SetBalance (b : Z).

(** The interval callback, and a render that reruns the effect of
    [[balance]] when the prop changed. *)
Definition step (s : state) (ev : event) : state :=
  match ev with
  | Tick =>
      let '(tm, d) := DualBalanceCard.callback (balance s) (timer s) (displayBalance s) in
      mk (balance s) d tm
  | SetBalance b =>
      mk b (displayBalance s) (if b =? balance s then timer s else DualBalanceCard.fresh)
  end.

Definition run (s : state) (evs : list event) : state := foldl step s evs.

(** The bytes before the amount in the source: the UTF-8 bytes of [₦]
    read as Windows-1252 and saved again, three characters. *)
Definition amount_prefix : string := "â‚¦".

(** The amount line and the account line. *)
Definition render (accountId : string) (s : state) : string * string :=
  (amount_prefix +:+ toLocaleString (displayBalance s), accountId).

End BalanceCard.

Module TransfersList.

(** A row of the list: its [key], [isSent], the title, the signed amount
    and the timestamp its date and time are formatted from. *)
Record row := mkRow {
  key : string;
  isSent : bool;
  title : string;
  amount_text : string;
  stamp : string
}.

(** The empty box ["No transfers yet"] or the rows. *)
Inductive view := NoTransfersYet | Rows (rows : list row).

(** One row: [isSent = transfer.from === accountId], the title
    [Sent to {to}] or [Received from {from}] and [{isSent ? "-" : "+"}₦{amount}]. *)
Definition row_of (accountId : string) (t : Transfer.t) : row :=
  let isSent := bool_decide (Transfer.from t = accountId) in
  mkRow (Transfer.id t) isSent
    (if isSent then "Sent to " +:+ Transfer.to t else "Received from " +:+ Transfer.from t)
    (transfer_sign accountId t +:+ naira +:+ toLocaleString (Transfer.amount t))
    (Transfer.timestamp t).

Definition render (transfers : list Transfer.t) (accountId : string) : view :=
  match userTransfers transfers accountId with
  | [] => NoTransfersYet
  | l => Rows (map (row_of accountId) l)
  end.

End TransfersList.

Module Sidebar.

(** [{ href, label, icon }]; the icon is rendering only. *)
Record link := mkLink { href : string; label : string }.

Definition adminLinks : list link :=
  [mkLink "/admin" "Dashboard"; mkLink "/admin/create" "Create Transaction";
   mkLink "/admin/transactions" "All Transactions"].

(** The two links of "Quick Access". *)
Definition quickAccess : list link :=
  [mkLink "/user/acc-demo-1" "View User 1"; mkLink "/user/acc-demo-2" "View User 2"].

(** Each admin link with [isActive = pathname === link.href]. *)
Definition render (pathname : string) : list (link * bool) :=
  map (fun l => (l, String.eqb pathname (href l))) adminLinks.

End Sidebar.

Module Navbar.

Inductive role := admin | user.

(** [userRole === "admin" ? "Admin Dashboard" : `User: ${accountId}`]; a
    missing [accountId] prints as [undefined]. *)
Definition badge (userRole : role) (accountId : option string) : string :=
  match userRole with
  | admin => "Admin Dashboard"
  | user => "User: " +:+ (accountId ||| "undefined")
  end.

End Navbar.

(** ** Lemmas *)

Module DualBalanceCardFacts.
Import DualBalanceCard.


Lemma increment_eq e : (increment e == (16 * e) # 1000)%Q.
Proof. unfold increment, Qdiv, Qeq. simpl. lia. Qed.

Lemma Qle_bool_compat x y z : (y == z)%Q -> Qle_bool x y = Qle_bool x z.
Proof. intros H. apply Bool.eq_true_iff_eq. by rewrite !Qle_bool_iff, H. Qed.

Lemma Qle_bool_frac x a d : Qle_bool (inject_Z x) (a # d) = (Zpos d * x <=? a).
Proof. unfold Qle_bool. simpl. by rewrite Z.mul_1_r, Z.mul_comm. Qed.

Lemma stopped_succ e n : stopped e n = true -> stopped e (S n) = true.
Proof.
  unfold stopped. rewrite !andb_true_iff, !orb_true_iff, !Z.leb_le. nia.
Qed.

Lemma stopped_next e n :
  stopped e n = false -> stopped e (S n) = (1000 * e <=? 16 * Z.of_nat (S n) * e).
Proof.
  unfold stopped. rewrite andb_false_iff, orb_false_iff, !Z.leb_gt. intros Hn.
  rewrite (proj2 (Z.leb_le 1 (Z.of_nat (S n)))) by lia. simpl.
  destruct (Z.leb_spec e 0); [|done]. symmetry. apply Z.leb_le. destruct Hn; nia.
Qed.

Lemma stopped_late e n : stopped e (63 + n) = true.
Proof.
  unfold stopped. rewrite andb_true_iff, orb_true_iff, !Z.leb_le. nia.
Qed.

(** The shown value and the timer after [n] ticks of a fresh interval. *)
Lemma tick1_iter e n d0 :
  (Nat.iter n (tick1 e) (fresh, d0)).2 = counting e n d0 /\
  running (Nat.iter n (tick1 e) (fresh, d0)).1 = negb (stopped e n) /\
  (running (Nat.iter n (tick1 e) (fresh, d0)).1 = true ->
   (start (Nat.iter n (tick1 e) (fresh, d0)).1 == (16 * Z.of_nat n * e) # 1000)%Q).
Proof.
  induction n as [|n IH]; [split_and!; [done|done|intros _; unfold Qeq; simpl; lia]|].
  rewrite Nat.iter_succ. destruct (Nat.iter n (tick1 e) (fresh, d0)) as [tm d].
  simpl in IH. destruct IH as (-> & Hr & Hs).
  unfold tick1, callback, counting. cbn [fst snd]. destruct (running tm) eqn:Htm.
  - assert (Hn : stopped e n = false) by (by destruct (stopped e n)).
    assert (Hs' : (start tm + increment e == (16 * Z.of_nat (S n) * e) # 1000)%Q).
    { rewrite (Hs eq_refl), increment_eq. unfold Qeq, Qplus. simpl. nia. }
    rewrite (Qle_bool_compat _ _ _ Hs'), (stopped_next e n Hn).
    rewrite Qle_bool_frac. destruct (1000 * e <=? 16 * Z.of_nat (S n) * e); [done|].
    split_and!; [|done|done]. cbn [fst snd]. by rewrite (Qfloor_comp _ _ Hs').
  - assert (Hn : stopped e n = true) by (by destruct (stopped e n)).
    rewrite (stopped_succ e n Hn), Hn. cbn [fst snd]. rewrite Htm. by split_and!.
Qed.

Lemma pair_split {X Y} (a : X) (b : Y) p : (a, b) = p -> a = p.1 /\ b = p.2.
Proof. by intros <-. Qed.

(** [k] ticks run each counter [k] times, for its own amount. *)
Lemma run_ticks s k :
  totalBalance (run s (repeat Tick k)) = totalBalance s /\
  availableBalance (run s (repeat Tick k)) = availableBalance s /\
  (timerTotal (run s (repeat Tick k)), displayTotal (run s (repeat Tick k))) =
    Nat.iter k (tick1 (totalBalance s)) (timerTotal s, displayTotal s) /\
  (timerAvailable (run s (repeat Tick k)), displayAvailable (run s (repeat Tick k))) =
    Nat.iter k (tick1 (availableBalance s)) (timerAvailable s, displayAvailable s).
Proof.
  revert s. induction k as [|k IH]; intros s; [done|].
  change (run s (repeat Tick (S k))) with (run (step s Tick) (repeat Tick k)).
  destruct (IH (step s Tick)) as (-> & -> & -> & ->). rewrite !Nat.iter_succ_r.
  unfold step, tick1. cbn [fst snd totalBalance availableBalance timerTotal timerAvailable displayTotal displayAvailable].
  by destruct (callback (totalBalance s) (timerTotal s) (displayTotal s)),
              (callback (availableBalance s) (timerAvailable s) (displayAvailable s)).
Qed.

Lemma counter_ok_tick e tm d : counter_ok e tm d -> counter_ok e (callback e tm d).1 (callback e tm d).2.
Proof.
  intros (n & d0 & Hp). exists (S n), d0. rewrite Nat.iter_succ, <- Hp.
  unfold tick1. cbn [fst snd]. by destruct (callback e tm d).
Qed.

Lemma counter_ok_props e e' tm d :
  counter_ok e tm d -> counter_ok e' (if e' =? e then tm else fresh) d.
Proof.
  intros Hok. destruct (Z.eqb_spec e' e) as [->|_]; [done|]. by exists 0%nat, d.
Qed.

Lemma step_ok s ev : card_ok s -> card_ok (step s ev).
Proof.
  intros [HT HA]. destruct ev as [|T A]; simpl.
  - pose proof (counter_ok_tick _ _ _ HT) as HT'. pose proof (counter_ok_tick _ _ _ HA) as HA'.
    destruct (callback (totalBalance s) _ _), (callback (availableBalance s) _ _). by split.
  - split; by apply counter_ok_props.
Qed.

Lemma run_ok s evs : card_ok s -> card_ok (run s evs).
Proof.
  revert s. induction evs as [|ev evs IH]; intros s Hs; [done|].
  apply (IH (step s ev)), step_ok, Hs.
Qed.

Lemma mount_ok T A : card_ok (mount T A).
Proof. split; by exists 0%nat, 0. Qed.

(** 63 ticks bring a counter, wherever it is, to its amount. *)
Lemma counter_settles e tm d :
  counter_ok e tm d ->
  (Nat.iter 63 (tick1 e) (tm, d)).2 = e /\ running (Nat.iter 63 (tick1 e) (tm, d)).1 = false.
Proof.
  intros (n & d0 & ->). rewrite <- Nat.iter_add.
  destruct (tick1_iter e (63 + n) d0) as (-> & -> & _).
  unfold counting. by rewrite stopped_late.
Qed.

(** Started together from [0], the available counter never shows more
    than the total counter when [0 <= A <= T]. *)
Lemma counting_mono T A k : 0 <= A <= T -> counting A k 0 <= counting T k 0.
Proof.
  intros HAT. unfold counting, stopped.
  destruct (Nat.eqb_spec k 0) as [->|Hk]; [done|].
  rewrite (proj2 (Z.leb_le 1 (Z.of_nat k))) by lia. simpl.
  assert (Hkz : 1 <= Z.of_nat k) by lia.
  assert (HT0 : 0 <= 16 * Z.of_nat k * T / 1000) by (apply Z.div_pos; nia).
  assert (Hmono : 16 * Z.of_nat k * A / 1000 <= 16 * Z.of_nat k * T / 1000) by (apply Z.div_le_mono; nia).
  assert (Hlt : 16 * Z.of_nat k * A < 1000 * A -> 16 * Z.of_nat k * A / 1000 < A)
    by (intros; apply Z.div_lt_upper_bound; lia).
  destruct (Z.leb_spec A 0), (Z.leb_spec T 0), (Z.leb_spec (1000 * A) (16 * Z.of_nat k * A)),
           (Z.leb_spec (1000 * T) (16 * Z.of_nat k * T)); simpl; nia.
Qed.

(** C27. The dual balance card always comes to rest on its props: after
    any renders and ticks, 63 more ticks of 16 ms clear both intervals,
    and the card then shows [₦] and the [toLocaleString] of the current
    total and available amounts. *)
Theorem card_settles T A evs accountId :
  render accountId (run (run (mount T A) evs) (repeat Tick 63)) =
    mkView (naira +:+ toLocaleString (totalBalance (run (mount T A) evs)))
           (naira +:+ toLocaleString (availableBalance (run (mount T A) evs)))
           (pending_text (render accountId (run (mount T A) evs))) accountId /\
  running (timerTotal (run (run (mount T A) evs) (repeat Tick 63))) = false /\
  running (timerAvailable (run (run (mount T A) evs) (repeat Tick 63))) = false.
Proof.
  pose proof (run_ok (mount T A) evs (mount_ok T A)) as [HT HA].
  generalize dependent (run (mount T A) evs). intros s HT HA.
  destruct (run_ticks s 63) as (H1 & H2 & (ET & DT)%pair_split & (EA & DA)%pair_split).
  destruct (counter_settles _ _ _ HT) as [ST RT]. destruct (counter_settles _ _ _ HA) as [SA RA].
  unfold render. rewrite H1, H2, DT, DA, ST, SA, ET, EA. by split_and!.
Qed.

(** C28. From a fresh mount with [0 <= availableBalance <= totalBalance],
    the two counters run in step and the card never shows more available
    than total while they count. (After a deposit only the total's
    effect runs again, and the card does show the available amount above
    the total: see [deposit_recount].) *)
Theorem fresh_card_order T A k :
  0 <= A <= T ->
  displayAvailable (run (mount T A) (repeat Tick k)) <= displayTotal (run (mount T A) (repeat Tick k)).
Proof.
  intros HAT. destruct (run_ticks (mount T A) k) as (_ & _ & (_ & ->)%pair_split & (_ & ->)%pair_split).
  destruct (tick1_iter T k 0) as [HT _]. destruct (tick1_iter A k 0) as [HA _].
  unfold mount. cbn [totalBalance availableBalance timerTotal timerAvailable displayTotal displayAvailable].
  rewrite HT, HA. by apply counting_mono.
Qed.

(** A deposit of 500 on a settled card of 1000: the total counts again
    from 0 while the available amount stays, so the next frame shows a
    total of 24 under an available balance of 1000. *)
Example deposit_recount :
  let s := run (mount 1000 1000) (repeat Tick 63 ++ [SetProps 1500 1000; Tick]) in
  displayTotal s = 24 /\ displayAvailable s = 1000 /\ totalBalance s = 1500 /\ availableBalance s = 1000.
Proof. vm_compute. by split_and!. Qed.

End DualBalanceCardFacts.

Module BalanceCardFacts.
Import BalanceCard.

Lemma balance_run_ticks s k :
  balance (run s (repeat Tick k)) = balance s /\
  (timer (run s (repeat Tick k)), displayBalance (run s (repeat Tick k))) =
    Nat.iter k (DualBalanceCard.tick1 (balance s)) (timer s, displayBalance s).
Proof.
  revert s. induction k as [|k IH]; intros s; [done|].
  change (run s (repeat Tick (S k))) with (run (step s Tick) (repeat Tick k)).
  destruct (IH (step s Tick)) as (-> & ->). rewrite Nat.iter_succ_r.
  unfold step, DualBalanceCard.tick1. cbn [fst snd balance timer displayBalance].
  by destruct (DualBalanceCard.callback (balance s) (timer s) (displayBalance s)).
Qed.

Lemma balance_run_ok s evs :
  DualBalanceCard.counter_ok (balance s) (timer s) (displayBalance s) ->
  DualBalanceCard.counter_ok (balance (run s evs)) (timer (run s evs)) (displayBalance (run s evs)).
Proof.
  revert s. induction evs as [|[|b] evs IH]; intros s Hs; [done| |]; apply IH; simpl.
  - pose proof (DualBalanceCardFacts.counter_ok_tick _ _ _ Hs) as Ht.
    by destruct (DualBalanceCard.callback _ _ _).
  - by apply DualBalanceCardFacts.counter_ok_props.
Qed.

(** After any renders and ticks, 63 more ticks stop the interval, and the
    card shows its balance, after the three characters [â‚¦] where the
    other pages print the naira sign. *)
Lemma balance_card_settles b evs accountId :
  render accountId (run (run (mount b) evs) (repeat Tick 63)) =
    ("â‚¦" +:+ toLocaleString (balance (run (mount b) evs)), accountId) /\
  DualBalanceCard.running (timer (run (run (mount b) evs) (repeat Tick 63))) = false /\
  amount_prefix <> naira.
Proof.
  assert (Hok : DualBalanceCard.counter_ok (balance (run (mount b) evs)) (timer (run (mount b) evs))
                  (displayBalance (run (mount b) evs))).
  { apply balance_run_ok. by exists 0%nat, 0. }
  generalize dependent (run (mount b) evs). intros s Hok.
  destruct (balance_run_ticks s 63) as (_ & (ET & DT)%DualBalanceCardFacts.pair_split).
  destruct (DualBalanceCardFacts.counter_settles _ _ _ Hok) as [SD RD].
  unfold render. rewrite DT, SD, ET. by split_and!.
Qed.

End BalanceCardFacts.

Module TransfersListFacts.
Import TransfersList.

(** The rows are the account's transfers in their stored order, one row
    per transfer, and the empty box shows exactly when there is none. *)
Lemma render_spec transfers accountId :
  (render transfers accountId = NoTransfersYet <->
   Forall (fun t => ~ (Transfer.from t = accountId \/ Transfer.to t = accountId)) transfers) /\
  (forall rows, render transfers accountId = Rows rows ->
   rows = map (row_of accountId) (userTransfers transfers accountId)).
Proof.
  unfold render. split.
  - destruct (userTransfers transfers accountId) as [|t l] eqn:Hu;
      unfold userTransfers in Hu; rewrite <- filter_nil_iff, Hu; done.
  - destruct (userTransfers transfers accountId); by intros ? [= <-].
Qed.

(** React's [key]s of the rows are distinct exactly when the ids of the
    account's transfers are. *)
Lemma keys_unique transfers accountId rows :
  render transfers accountId = Rows rows ->
  NoDup (map key rows) <-> NoDup (map Transfer.id (userTransfers transfers accountId)).
Proof.
  intros Hr. rewrite (proj2 (render_spec transfers accountId) rows Hr), map_map. done.
Qed.

(** A transfer from the account to itself shows as money sent. *)
Lemma self_transfer_row accountId t :
  Transfer.from t = accountId -> Transfer.to t = accountId ->
  isSent (row_of accountId t) = true /\
  title (row_of accountId t) = "Sent to " +:+ accountId /\
  amount_text (row_of accountId t) = "-" +:+ naira +:+ toLocaleString (Transfer.amount t).
Proof.
  intros Hf Ht. unfold row_of, transfer_sign. rewrite (bool_decide_eq_true_2 _ Hf). by rewrite Ht.
Qed.

End TransfersListFacts.

Module SidebarFacts.
Import Sidebar.

(** The sidebar highlights one link when the path is one of its three
    routes and none otherwise (a nested path such as [/admin/create/x]
    highlights nothing). *)
Lemma render_active pathname :
  length (filter (fun p : link * bool => p.2 = true) (render pathname)) =
    (if bool_decide (pathname ∈ map href adminLinks) then 1 else 0)%nat.
Proof.
  unfold render, adminLinks. simpl.
  destruct (String.eqb_spec pathname "/admin") as [->|H1];
  [|destruct (String.eqb_spec pathname "/admin/create") as [->|H2];
  [|destruct (String.eqb_spec pathname "/admin/transactions") as [->|H3]]]; simpl; try done.
  rewrite bool_decide_eq_false_2; [done|]. set_solver.
Qed.

End SidebarFacts.
