(* ===== verification/AdminPages.v ===== *)
(** * The admin pages as they render

    - [src/app/admin/page.tsx] ([AdminDashboard]): four cards whose
      values count [data.transactions] only, and two quick links;
    - [src/app/admin/transactions/page.tsx] ([TransactionsPage]): four
      cards computed from [allItems] and [stats] ([Views]), then the empty
      state or one card per item of [allItems], keyed by [item.id]: a
      [TransactionCard] for a transaction, a [TransferCard] for a transfer,
      each with [onPost] and [onReverse] bound to the item's id (the
      handlers are in [Pages]);
    - [src/components/transfer-card.tsx] ([TransferCard]): the route, the
      status badge of [statusConfig], the amount, the type and the buttons.
    Both pages show [Loading...] until the hook has loaded. React renders
    a number child as its decimal string ([pretty]). Icons, colours of the
    stat cards and framer-motion props are rendering only; the colours of
    [statusConfig] are kept because the card picks them by status.
    [transaction-card.tsx] is imported but not among the sources: a
    transaction's card is recorded with the transaction it is given. *)

From S2P Require Import Prelude Data Notify Views.

Local Open Scope Z_scope.

Module TransferCard.

(** An entry of [statusConfig]; the icon is rendering only. *)
Record statusConfig := mkConfig { color : string; textColor : string; label : string }.

(** [statusConfig[transfer.status]] *)
Definition config (st : Status) : statusConfig :=
  match st with
  | pending => mkConfig "bg-amber-100" "text-amber-900" "Pending"
  | posted => mkConfig "bg-blue-100" "text-blue-900" "Posted"
  | reversed => mkConfig "bg-red-100" "text-red-900" "Reversed"
  end.

(** What the card shows: [{from} → {to}], the timestamp its date is
    formatted from, the badge, [₦{amount}], [Type: {type}], the pulse of
    a pending card and its buttons. *)
Record view := mkView {
  route : string;
  stamp : string;
  badge : statusConfig;
  amount_text : string;
  type_text : string;
  pulse : bool;
  buttons : list CardAction
}.

Definition render (isAdmin : bool) (t : Transfer.t) : view :=
  mkView (Transfer.from t +:+ " → " +:+ Transfer.to t) (Transfer.timestamp t)
    (config (Transfer.status t)) (naira +:+ toLocaleString (Transfer.amount t))
    "Type: TRANSFER" (bool_decide (Transfer.status t = pending))
    (transfer_card_actions isAdmin (Transfer.status t)).

End TransferCard.

(** A card of a stat grid: its label, its value and the line under it. *)
Record StatCard := mkStat { stat_label : string; stat_value : string; stat_caption : string }.

Module AdminDashboard.

(** The [stats] array: label and [value]; [{stat.value}] renders it. *)
Definition cards (d : ShadowData) : list StatCard :=
  let '(total, p, q, r) := dashboard_stats d in
  [mkStat "Total Transactions" (pretty total) "";
   mkStat "Pending" (pretty p) "";
   mkStat "Posted" (pretty q) "";
   mkStat "Reversed" (pretty r) ""].

(** The two quick actions: link and button text. *)
Definition quick_actions : list (string * string) :=
  [("/admin/create", "Create New Transaction"); ("/admin/transactions", "View All Transactions")].

(** [Loading...] ([None]) until the hook has loaded, then the cards. *)
Definition render (isLoaded : bool) (d : ShadowData) : option (list StatCard) :=
  if isLoaded then Some (cards d) else None.

End AdminDashboard.

Module AdminTransactions.

(** The four cards above the list. *)
Definition cards (d : ShadowData) : list StatCard :=
  let s := stats d in
  [mkStat "Total Items" (pretty (length (allItems d)))
     (pretty (totalTransactions s) +:+ " transactions, " +:+ pretty (totalTransfers s) +:+ " transfers");
   mkStat "Pending" (pretty (pendingCount s)) (naira +:+ toLocaleString (pendingVolume s));
   mkStat "Posted" (pretty (postedCount s)) (naira +:+ toLocaleString (totalVolume s));
   mkStat "Reversed" (pretty (reversedCount s)) "Cancelled items"].

(** The card of one item: [TransactionCard] or [TransferCard]. *)
Inductive ItemCard :=
  | TransactionCardFor (t : Transaction.t)
  | TransferCardFor (v : TransferCard.view).

(** [key={item.id}] and the card. *)
Definition item_card (i : Item) : string * ItemCard :=
  match i with
  | ItemTransaction t => (Transaction.id t, TransactionCardFor t)
  | ItemTransfer t => (Transfer.id t, TransferCardFor (TransferCard.render true t))
  end.

(** Below the cards: the [EmptyState], or the grid of [allItems]. *)
Inductive body :=
  | Empty (p : EmptyStateProps)
  | Grid (items : list (string * ItemCard)).

Inductive page :=
  | Loading
  | Shown (stat_cards : list StatCard) (b : body).

Definition render (isLoaded : bool) (d : ShadowData) : page :=
  if isLoaded then
    Shown (cards d)
      (match allItems d with
       | [] => Empty (mkEmptyState "No Transactions" "Create a transaction to get started")
       | l => Grid (map item_card l)
       end)
  else Loading.

End AdminTransactions.

(** ** Lemmas *)

Lemma count_status_app st l1 l2 :
  count_status st (l1 ++ l2) = (count_status st l1 + count_status st l2)%nat.
Proof. unfold count_status. by rewrite filter_app, length_app. Qed.

Lemma count_status_transactions st l :
  count_status st (map ItemTransaction l) = length (filter (fun t => Transaction.status t = st) l).
Proof.
  unfold count_status. induction l as [|t l IH]; [done|]. simpl.
  rewrite !filter_cons. simpl. by repeat case_decide; simpl; rewrite ?IH.
Qed.

Lemma count_status_transfers st l :
  count_status st (map ItemTransfer l) = length (filter (fun t => Transfer.status t = st) l).
Proof.
  unfold count_status. induction l as [|t l IH]; [done|]. simpl.
  rewrite !filter_cons. simpl. by repeat case_decide; simpl; rewrite ?IH.
Qed.

(** The counter of a status on the transactions page is that of the
    transactions plus that of the transfers. *)
Lemma count_status_allItems st d :
  count_status st (allItems d) =
    (length (filter (fun t => Transaction.status t = st) (transactions d)) +
     length (filter (fun t => Transfer.status t = st) (transfers d)))%nat.
Proof.
  by rewrite (count_status_perm _ _ _ (allItems_perm d)), count_status_app,
    count_status_transactions, count_status_transfers.
Qed.

Lemma pretty_nat_inj (n m : nat) : pretty n = pretty m -> n = m.
Proof. intros H. apply Nat2N.inj. by apply (inj pretty). Qed.

(** The grid has one card per transaction and per transfer, keyed by its
    id, and its keys are distinct exactly when the ids are. *)
Lemma grid_keys d items :
  AdminTransactions.render true d = AdminTransactions.Shown (AdminTransactions.cards d) (AdminTransactions.Grid items) ->
  Permutation (map fst items) (map Transaction.id (transactions d) ++ map Transfer.id (transfers d)) /\
  (NoDup (map fst items) <-> NoDup (map Transaction.id (transactions d) ++ map Transfer.id (transfers d))).
Proof.
  intros Hr. assert (Hi : items = map AdminTransactions.item_card (allItems d)).
  { unfold AdminTransactions.render in Hr. destruct (allItems d); congruence. }
  subst items.
  assert (Hp : Permutation (map fst (map AdminTransactions.item_card (allItems d)))
                 (map Transaction.id (transactions d) ++ map Transfer.id (transfers d))).
  { rewrite (allItems_perm d), !map_app, !map_map. done. }
  split; [done|]. by rewrite Hp.
Qed.

(** C26. The two admin pages disagree on what is pending. The dashboard's
    Pending card counts the pending transactions only; the one of the
    transactions page counts them with the pending transfers. The two
    cards show the same number exactly when no transfer is pending, so a
    transfer awaiting an admin's Post is invisible on the dashboard. *)
Theorem admin_pending_counts d :
  map stat_value (AdminDashboard.cards d) !! 1%nat =
    Some (pretty (length (filter (fun t => Transaction.status t = pending) (transactions d)))) /\
  map stat_value (AdminTransactions.cards d) !! 1%nat =
    Some (pretty (length (filter (fun t => Transaction.status t = pending) (transactions d)) +
                  length (filter (fun t => Transfer.status t = pending) (transfers d)))%nat) /\
  (map stat_value (AdminDashboard.cards d) !! 1%nat = map stat_value (AdminTransactions.cards d) !! 1%nat <->
   Forall (fun t => Transfer.status t <> pending) (transfers d)).
Proof.
  assert (Hd : map stat_value (AdminDashboard.cards d) !! 1%nat =
    Some (pretty (length (filter (fun t => Transaction.status t = pending) (transactions d))))).
  { unfold AdminDashboard.cards, dashboard_stats. simpl. by rewrite count_status_transactions. }
  assert (Ht : map stat_value (AdminTransactions.cards d) !! 1%nat =
    Some (pretty (length (filter (fun t => Transaction.status t = pending) (transactions d)) +
                  length (filter (fun t => Transfer.status t = pending) (transfers d)))%nat)).
  { unfold AdminTransactions.cards, stats. simpl. by rewrite count_status_allItems. }
  split_and!; [done|done|]. rewrite Hd, Ht, <- filter_nil_iff, <- length_zero_iff_nil.
  assert (Hadd : forall a b : nat, a = (a + b)%nat <-> b = 0%nat) by lia.
  split; [intros [= Hp%pretty_nat_inj]; exact (proj1 (Hadd _ _) Hp)|].
  intros Hm. do 2 f_equal. exact (proj2 (Hadd _ _) Hm).
Qed.
