(* ===== verification/Scenarios.v ===== *)
(** * Concrete runs of the hook against the modelled backend

    The scenarios of section 8 of the specification, evaluated with
    [vm_compute] on [Backend], and the concrete instances (witnesses) of
    the theorems with hypotheses, among them the two transfers created in
    the same millisecond that share an id ([env_twins]). *)

From S2P Require Import Prelude Date Data Ledger Server Api ApiTests Notify Store System Stamps Views Dashboard Pages TransferPage Html Create Animation Cards AdminPages.
From Stdlib Require Import Sorted QArith.
Import Backend BackendFacts.

Local Open Scope Z_scope.

Abbreviation E := (Env Backend.state).

(** Run a handler and keep the state it leaves. *)
Definition exec {A} (m : ST E JsError A) (e : E) : E := snd (m e).

(** The stamp the backend's clock writes at 0 ms. *)
Definition epoch : string := "1970-01-01T00:00:00.000Z".

(** A fresh mount: empty server and storage, network up, clock at 1000. *)
Definition env0 : E := mkEnv (mkRemote Backend.init true) (mkLS None None) 1000 0 INITIAL_DATA false.

(** [acc-1] credited with 1000, not yet posted. *)
Definition env_credit : E := exec (createTransaction "acc-1" 1000) (exec loadData env0).

(** The credit [txn-1] posted. *)
Definition env_funded : E := exec (postTransaction "txn-1") env_credit.

(** A pending transfer of 400 from [acc-1] to [acc-2] at time 2000. *)
Definition env_pending : E := exec (createPendingTransfer "acc-1" "acc-2" 400) (set_now 2000 env_funded).

(** Two pending transfers from [acc-1], to [acc-2] and [acc-3], created in
    the same millisecond. *)
Definition env_twins : E :=
  exec (createPendingTransfer "acc-1" "acc-3" 200)
    (exec (createPendingTransfer "acc-1" "acc-2" 100) (set_now 2000 env_funded)).

Definition env_loaded : E := exec loadData env0.

(** The credit of [acc-1] reversed after it was posted. *)
Definition env_credit_reversed : E := exec (reverseTransaction "txn-1") env_funded.

(** The pending transfer of [env_pending], as stored. *)
Definition trf_2000 : Transfer.t :=
  Transfer.mk "trf-2000" "acc-1" "acc-2" 400 Transfer.TRANSFER pending
    "1970-01-01T00:00:02.000Z".

(** The two transfers of [env_twins], as stored. *)
Definition trf_twin_a : Transfer.t :=
  Transfer.mk "trf-2000" "acc-1" "acc-2" 100 Transfer.TRANSFER pending "1970-01-01T00:00:02.000Z".
Definition trf_twin_b : Transfer.t :=
  Transfer.mk "trf-2000" "acc-1" "acc-3" 200 Transfer.TRANSFER pending "1970-01-01T00:00:02.000Z".

(** The backend after a credit, and after the credit is reversed and then
    a post of it is attempted. *)
Definition srv_credit : Backend.state := snd (create_credit Backend.init "acc-1" 1000).
Definition srv_reversed : Backend.state := snd (transition reversed srv_credit "txn-1").
Definition srv_after : Backend.state := snd (transition posted srv_reversed "txn-1").

(** ** The scenarios of the specification *)

Example scenario_credit_pending :
  balance_of (data env_credit) "acc-1" = mkBalance 1000 0.
Proof. vm_compute. reflexivity. Qed.

Example scenario_credit_posted :
  balance_of (data env_funded) "acc-1" = mkBalance 1000 1000.
Proof. vm_compute. reflexivity. Qed.

Example scenario_transfer_pending :
  balance_of (data env_pending) "acc-1" = mkBalance 600 600 /\
  balance_of (data env_pending) "acc-2" = mkBalance 0 0.
Proof. vm_compute. split; reflexivity. Qed.

Example scenario_transfer_posted :
  let e := exec (postTransfer "trf-2000") env_pending in
  balance_of (data e) "acc-1" = mkBalance 600 600 /\
  balance_of (data e) "acc-2" = mkBalance 400 400.
Proof. vm_compute. split; reflexivity. Qed.

Example scenario_transfer_reversed :
  let e := exec (reverseTransfer "trf-2000") env_pending in
  balance_of (data e) "acc-1" = mkBalance 1000 1000 /\
  balance_of (data e) "acc-2" = mkBalance 0 0.
Proof. vm_compute. split; reflexivity. Qed.

Example scenario_insufficient :
  createPendingTransfer "acc-1" "acc-2" 10000 env_pending =
    (inr (PendingFailed "Insufficient available balance"), env_pending).
Proof. vm_compute. reflexivity. Qed.

Lemma env0_inv : inv env0.
Proof. split; [intros t Ht; by apply elem_of_nil in Ht|apply empty_balances_ok]. Qed.

Lemma env_funded_reachable : rtc step env0 env_funded.
Proof.
  eapply rtc_l; [eapply (step_loadData _ _ _ (surjective_pairing _))|].
  eapply rtc_l; [eapply (step_createTransaction "acc-1" 1000 _ _ _ (surjective_pairing _))|].
  eapply rtc_l; [eapply (step_postTransaction "txn-1" _ _ _ (surjective_pairing _))|].
  apply rtc_refl.
Qed.

Lemma inv_reachable_witness :
  inv env0 /\ rtc step env0 env_funded /\
  available (mkBalance 1000 1000) <= total (mkBalance 1000 1000).
Proof.
  split; [exact env0_inv|]. split; [exact env_funded_reachable|].
  apply (inv_reachable env0 env_funded env0_inv env_funded_reachable "acc-1").
  vm_compute. reflexivity.
Defined.

Lemma createPendingTransfer_holds_witness :
  "acc-1" <> "acc-2" /\ 400 <= available (balance_of (data (set_now 2000 env_funded)) "acc-1") /\
  balance_of (data env_pending) "acc-1" = debit (balance_of (data (set_now 2000 env_funded)) "acc-1") 400.
Proof.
  assert (Hne : "acc-1" <> "acc-2") by done.
  assert (Hle : 400 <= available (balance_of (data (set_now 2000 env_funded)) "acc-1")) by (vm_compute; discriminate).
  split; [done|]. split; [done|].
  destruct (createPendingTransfer_holds "acc-1" "acc-2" 400 (set_now 2000 env_funded) Hne Hle)
    as (t & e' & Hc & Hfrom & _).
  change env_pending with (snd (createPendingTransfer "acc-1" "acc-2" 400 (set_now 2000 env_funded))).
  rewrite Hc. exact Hfrom.
Defined.

Lemma createTransaction_pending_witness :
  online (remote env_loaded) = true /\ 0 < 1000 /\
  balance_of (data env_credit) "acc-1" =
    mkBalance (total (server_balance env_loaded "acc-1") + 1000)
              (available (server_balance env_loaded "acc-1")).
Proof.
  assert (Hon : online (remote env_loaded) = true) by reflexivity.
  split; [done|]. split; [lia|].
  destruct (createTransaction_pending "acc-1" 1000 env_loaded Hon ltac:(lia))
    as (tx & e' & Hc & _ & Hb & _).
  change env_credit with (snd (createTransaction "acc-1" 1000 env_loaded)). rewrite Hc. exact Hb.
Defined.

Lemma postTransaction_available_witness :
  online (remote env_credit) = true /\
  ids_unique (get_transactions (server (remote env_credit))) /\
  balance_of (data env_funded) "acc-1" =
    mkBalance (total (server_balance env_credit "acc-1"))
              (available (server_balance env_credit "acc-1") + 1000).
Proof.
  assert (Hon : online (remote env_credit) = true) by (vm_compute; reflexivity).
  assert (Hu : ids_unique (get_transactions (server (remote env_credit)))).
  { vm_compute. repeat constructor; set_solver. }
  split; [done|]. split; [done|].
  destruct (postTransaction_available "txn-1"
              (Transaction.mk "txn-1" "acc-1" 1000 pending epoch)
              (Transaction.mk "txn-1" "acc-1" 1000 pending epoch) env_credit Hon Hu
              ltac:(vm_compute; reflexivity) eq_refl ltac:(vm_compute; reflexivity))
    as (e' & Hp & Hb & _).
  change env_funded with (snd (postTransaction "txn-1" env_credit)). rewrite Hp. exact Hb.
Defined.

Lemma reverseTransaction_removes_witness :
  online (remote env_funded) = true /\
  ids_unique (get_transactions (server (remote env_funded))) /\
  balance_of (data env_credit_reversed) "acc-1" =
    mkBalance (total (server_balance env_funded "acc-1") - 1000)
              (available (server_balance env_funded "acc-1") - 1000).
Proof.
  assert (Hon : online (remote env_funded) = true) by (vm_compute; reflexivity).
  assert (Hu : ids_unique (get_transactions (server (remote env_funded)))).
  { vm_compute. repeat constructor; set_solver. }
  split; [done|]. split; [done|].
  destruct (reverseTransaction_removes "txn-1"
              (Transaction.mk "txn-1" "acc-1" 1000 posted epoch)
              (Transaction.mk "txn-1" "acc-1" 1000 posted epoch) env_funded Hon Hu
              ltac:(vm_compute; reflexivity) ltac:(discriminate) ltac:(vm_compute; reflexivity))
    as (e' & Hp & Hb & _).
  change env_credit_reversed with (snd (reverseTransaction "txn-1" env_funded)). rewrite Hp. exact Hb.
Defined.

Lemma env_pending_find : js_find (has_trf_id "trf-2000") (transfers (data env_pending)) = Some trf_2000.
Proof. vm_compute. reflexivity. Qed.

Lemma postTransfer_credits_witness :
  js_find (has_trf_id "trf-2000") (transfers (data env_pending)) = Some trf_2000 /\
  balance_of (data (exec (postTransfer "trf-2000") env_pending)) "acc-2" =
    credit (balance_of (data env_pending) "acc-2") 400.
Proof.
  split; [exact env_pending_find|].
  destruct (postTransfer_credits "trf-2000" trf_2000 env_pending env_pending_find) as (e' & Hp & Hb & _).
  unfold exec. rewrite Hp. exact Hb.
Defined.

Lemma reverseTransfer_refunds_witness :
  js_find (has_trf_id "trf-2000") (transfers (data env_pending)) = Some trf_2000 /\
  balance_of (data (exec (reverseTransfer "trf-2000") env_pending)) "acc-1" =
    credit (balance_of (data env_pending) "acc-1") 400.
Proof.
  split; [exact env_pending_find|].
  destruct (reverseTransfer_refunds "trf-2000" trf_2000 env_pending env_pending_find) as (e' & Hp & Hb & _).
  unfold exec. rewrite Hp. exact Hb.
Defined.

Lemma createPendingTransfer_insufficient_witness :
  available (balance_of (data env_pending) "acc-1") < 10000 /\
  createPendingTransfer "acc-1" "acc-2" 10000 env_pending =
    (inr (PendingFailed "Insufficient available balance"), env_pending).
Proof.
  assert (Hlt : available (balance_of (data env_pending) "acc-1") < 10000) by (vm_compute; reflexivity).
  split; [done|]. exact (createPendingTransfer_insufficient "acc-1" "acc-2" 10000 env_pending Hlt).
Defined.

Lemma env_funded_fresh :
  fresh_transfer_id (data (set_now 2000 env_funded)) (now (set_now 2000 env_funded)).
Proof. intros x Hx. vm_compute in Hx. by apply elem_of_nil in Hx. Qed.

Lemma pending_then_post_moves_witness :
  "acc-1" <> "acc-2" /\ 400 <= available (balance_of (data (set_now 2000 env_funded)) "acc-1") /\
  fresh_transfer_id (data (set_now 2000 env_funded)) (now (set_now 2000 env_funded)) /\
  exists t e1 e2,
    createPendingTransfer "acc-1" "acc-2" 400 (set_now 2000 env_funded) = (inr (PendingOk t), e1) /\
    postTransfer (Transfer.id t) e1 = (inr tt, e2) /\
    balance_of (data e2) "acc-1" = debit (balance_of (data (set_now 2000 env_funded)) "acc-1") 400 /\
    balance_of (data e2) "acc-2" = credit (balance_of (data (set_now 2000 env_funded)) "acc-2") 400.
Proof.
  assert (Hle : 400 <= available (balance_of (data (set_now 2000 env_funded)) "acc-1")) by (vm_compute; discriminate).
  split; [done|]. split; [done|]. split; [exact env_funded_fresh|].
  exact (pending_then_post_moves "acc-1" "acc-2" 400 (set_now 2000 env_funded) ltac:(done) Hle env_funded_fresh).
Defined.

Lemma pending_then_reverse_restores_witness :
  "acc-1" <> "acc-2" /\ 400 <= available (balance_of (data (set_now 2000 env_funded)) "acc-1") /\
  fresh_transfer_id (data (set_now 2000 env_funded)) (now (set_now 2000 env_funded)) /\
  exists t e1 e2,
    createPendingTransfer "acc-1" "acc-2" 400 (set_now 2000 env_funded) = (inr (PendingOk t), e1) /\
    reverseTransfer (Transfer.id t) e1 = (inr tt, e2) /\
    balance_of (data e2) "acc-1" = balance_of (data (set_now 2000 env_funded)) "acc-1" /\
    balance_of (data e2) "acc-2" = balance_of (data (set_now 2000 env_funded)) "acc-2".
Proof.
  assert (Hle : 400 <= available (balance_of (data (set_now 2000 env_funded)) "acc-1")) by (vm_compute; discriminate).
  split; [done|]. split; [done|]. split; [exact env_funded_fresh|].
  exact (pending_then_reverse_restores "acc-1" "acc-2" 400 (set_now 2000 env_funded) ltac:(done) Hle env_funded_fresh).
Defined.

Lemma loadData_derived_witness :
  online (remote env_pending) = true /\
  exists e', loadData env_pending = (inr tt, e') /\ isLoaded e' = true /\
    (forall acc, balance_of (data e') acc = server_balance env_pending acc) /\
    transfers (data e') = ls_transfers (storage env_pending) ||| [] /\
    remote e' = remote env_pending /\ storage e' = storage env_pending.
Proof.
  assert (Hon : online (remote env_pending) = true) by (vm_compute; reflexivity).
  split; [done|]. exact (loadData_derived env_pending Hon).
Defined.

Lemma getAllBalances_lookup_witness :
  online (remote env_funded) = true /\
  exists m, getAllBalances (remote env_funded) = (inr m, remote env_funded) /\
    forall acc, m !! acc =
      if decide (acc ∈ map Transaction.accountId (get_transactions (server (remote env_funded))))
      then Some (calculateBalanceFromLedger (get_ledger (server (remote env_funded)) acc)) else None.
Proof.
  assert (Hon : online (remote env_funded) = true) by (vm_compute; reflexivity).
  split; [done|]. exact (getAllBalances_lookup (remote env_funded) Hon).
Defined.

Lemma srv_credit_reachable : rtc op Backend.init srv_credit.
Proof. apply rtc_once. eapply (op_credit _ "acc-1" 1000 _ _ (surjective_pairing _)). Qed.

Lemma srv_reversed_reachable : rtc op Backend.init srv_reversed.
Proof.
  eapply rtc_r; [exact srv_credit_reachable|].
  eapply (op_reverse _ "txn-1" _ _ (surjective_pairing _)).
Qed.

Lemma srv_after_reachable : rtc op srv_reversed srv_after.
Proof. apply rtc_once. eapply (op_post _ "txn-1" _ _ (surjective_pairing _)). Qed.

Lemma backend_lifecycle_witness :
  rtc op Backend.init srv_reversed /\ rtc op srv_reversed srv_after /\
  wf srv_after /\ txs_evolve (txs srv_reversed) (txs srv_after).
Proof.
  split; [exact srv_reversed_reachable|]. split; [exact srv_after_reachable|].
  exact (backend_lifecycle srv_reversed srv_after srv_reversed_reachable srv_after_reachable).
Defined.

Lemma backend_reversed_final_witness :
  txs srv_reversed !! 0%nat = Some (Transaction.mk "txn-1" "acc-1" 1000 reversed epoch) /\
  txs srv_after !! 0%nat = Some (Transaction.mk "txn-1" "acc-1" 1000 reversed epoch).
Proof.
  assert (H0 : txs srv_reversed !! 0%nat = Some (Transaction.mk "txn-1" "acc-1" 1000 reversed epoch))
    by (vm_compute; reflexivity).
  split; [done|].
  exact (backend_reversed_final srv_reversed srv_after 0 _ srv_reversed_reachable
           srv_after_reachable H0 eq_refl).
Defined.

Lemma reverseTransfer_twice_witness :
  js_find (has_trf_id "trf-2000") (transfers (data env_pending)) = Some trf_2000 /\
  exists e1 e2, reverseTransfer "trf-2000" env_pending = (inr tt, e1) /\
    reverseTransfer "trf-2000" e1 = (inr tt, e2) /\
    js_find (has_trf_id "trf-2000") (transfers (data e1)) = Some (Transfer.with_status reversed trf_2000) /\
    balance_of (data e2) "acc-1" = credit (credit (balance_of (data env_pending) "acc-1") 400) 400.
Proof.
  split; [exact env_pending_find|].
  exact (reverseTransfer_twice_refunds_twice "trf-2000" trf_2000 env_pending env_pending_find).
Defined.

Lemma postTransfer_after_reverse_witness :
  js_find (has_trf_id "trf-2000") (transfers (data env_pending)) = Some trf_2000 /\
  exists e1 e2, reverseTransfer "trf-2000" env_pending = (inr tt, e1) /\
    postTransfer "trf-2000" e1 = (inr tt, e2) /\
    js_find (has_trf_id "trf-2000") (transfers (data e2)) = Some (Transfer.with_status posted trf_2000) /\
    balance_of (data e2) "acc-1" = credit (balance_of (data env_pending) "acc-1") 400 /\
    balance_of (data e2) "acc-2" = credit (balance_of (data env_pending) "acc-2") 400.
Proof.
  split; [exact env_pending_find|].
  exact (postTransfer_after_reverse "trf-2000" trf_2000 env_pending env_pending_find ltac:(done)).
Defined.

Lemma self_transfer_witness :
  400 <= available (balance_of (data (set_now 2000 env_funded)) "acc-1") /\
  exists t e1 e2,
    createPendingTransfer "acc-1" "acc-1" 400 (set_now 2000 env_funded) = (inr (PendingOk t), e1) /\
    Transfer.status t = pending /\
    balance_of (data e1) "acc-1" = balance_of (data (set_now 2000 env_funded)) "acc-1" /\
    reverseTransfer (Transfer.id t) e1 = (inr tt, e2) /\
    balance_of (data e2) "acc-1" = credit (balance_of (data (set_now 2000 env_funded)) "acc-1") 400.
Proof.
  assert (Hle : 400 <= available (balance_of (data (set_now 2000 env_funded)) "acc-1")) by (vm_compute; discriminate).
  split; [done|].
  exact (self_transfer_then_reverse_mints "acc-1" 400 (set_now 2000 env_funded) Hle env_funded_fresh).
Defined.

Lemma createTransaction_invalid_witness :
  online (remote env_funded) = true /\
  createTransaction "acc-1" 0 env_funded =
    (inl (HttpError "Failed to create credit" InvalidAmount), env_funded).
Proof.
  assert (Hon : online (remote env_funded) = true) by (vm_compute; reflexivity).
  split; [done|]. exact (createTransaction_invalid "acc-1" 0 env_funded Hon ltac:(lia)).
Defined.

(** ** Witnesses for the pages, the animation and the offline reload *)

Lemma env_pending_transfers : transfers (data env_pending) = [trf_2000].
Proof. vm_compute. reflexivity. Qed.

Definition form_100 : TransferForm := mkForm "acc-2" "100" false.

Lemma handleTransfer_sends_valid_witness :
  recipient form_100 ∈ availableAccounts (data env_pending) "acc-1" /\
  (exec (handleTransfer "acc-1" form_100) env_pending = env_pending \/
   exists n t, parseInt (amount form_100) = Some n /\ 0 < n /\ recipient form_100 <> "acc-1" /\
     createPendingTransfer "acc-1" (recipient form_100) n env_pending =
       (inr (PendingOk t), exec (handleTransfer "acc-1" form_100) env_pending)).
Proof.
  assert (Hrec : recipient form_100 ∈ availableAccounts (data env_pending) "acc-1")
    by (apply (bool_decide_unpack _); vm_compute; exact I).
  split; [exact Hrec|].
  eapply handleTransfer_sends_valid; [exact Hrec|]. unfold exec. apply surjective_pairing.
Defined.

Lemma card_action_refines_witness :
  trf_ids_unique (transfers (data env_pending)) /\ trf_2000 ∈ transfers (data env_pending) /\
  ActPost ∈ transfer_card_actions true (Transfer.status trf_2000) /\
  exists st', status_step (Transfer.status trf_2000) st' /\
    transfers (data (exec (run_card_action trf_2000 ActPost) env_pending)) =
      map_where (has_trf_id (Transfer.id trf_2000)) (Transfer.with_status st')
        (transfers (data env_pending)).
Proof.
  assert (Hu : trf_ids_unique (transfers (data env_pending)))
    by (unfold trf_ids_unique; apply (bool_decide_unpack _); vm_compute; exact I).
  assert (Ht : trf_2000 ∈ transfers (data env_pending))
    by (rewrite env_pending_transfers; constructor).
  assert (Ha : ActPost ∈ transfer_card_actions true (Transfer.status trf_2000))
    by (apply (bool_decide_unpack _); vm_compute; exact I).
  split_and!; [exact Hu|exact Ht|exact Ha|].
  eapply card_action_refines; [exact Hu|exact Ht|exact Ha|]. unfold exec. apply surjective_pairing.
Defined.

Lemma handlePostTransfer_unknown_witness :
  js_find (has_trf_id "trf-9") (transfers (data env_pending)) = None /\
  handlePostTransfer "trf-9" env_pending =
    (inr (ToastSuccess "Transfer posted successfully"), env_pending).
Proof.
  assert (Hf : js_find (has_trf_id "trf-9") (transfers (data env_pending)) = None)
    by (vm_compute; reflexivity).
  split; [exact Hf|]. exact (handlePostTransfer_unknown_reports_success "trf-9" env_pending Hf).
Defined.

(** The storage before the offline reload holds the pending transfer. *)
Definition env_offline : E := set_online false env_pending.

Lemma offline_wipe_witness :
  online (remote env_offline) = false /\ 0 < 50 /\
  ls_transfers (storage env_offline) = Some [trf_2000] /\
  exists tx e', createTransaction "acc-3" 50
      (set_remote (mkRemote (server (remote env_offline)) true) (snd (loadData env_offline))) =
      (inr tx, e') /\ ls_transfers (storage e') = Some [] /\ transfers (data e') = [].
Proof.
  split_and!; [reflexivity|lia|vm_compute; reflexivity|].
  exact (createTransaction_after_offline_load_wipes "acc-3" 50 env_offline eq_refl ltac:(lia)).
Defined.

(** The workflow of [api-tests.ts] against the backend after one credit. *)
Definition remote_credit : Remote Backend.state := mkRemote srv_credit true.

Lemma testCompleteWorkflow_posts_witness :
  online remote_credit = true /\
  (forall tx s', nip_credit (server remote_credit) "acc-demo-1" 5000 = (inr tx, s') ->
     forall y, y ∈ get_transactions (server remote_credit) -> Transaction.id y <> Transaction.id tx) /\
  exists tx r', testCompleteWorkflow remote_credit =
      (inr (Some (true, Some (get_ledger (server r') "acc-demo-1",
         balance_add (calculateBalanceFromLedger (get_ledger (server remote_credit) "acc-demo-1"))
                     (mkBalance 5000 5000)))), r') /\
    Transaction.accountId tx = "acc-demo-1" /\ Transaction.amount tx = 5000 /\
    get_transactions (server r') =
      get_transactions (server remote_credit) ++ [Transaction.with_status posted tx].
Proof.
  assert (Hf : forall tx s', nip_credit (server remote_credit) "acc-demo-1" 5000 = (inr tx, s') ->
     forall y, y ∈ get_transactions (server remote_credit) -> Transaction.id y <> Transaction.id tx).
  { intros tx s' Hc y Hy. vm_compute in Hc. injection Hc as <- _.
    vm_compute in Hy. apply list_elem_of_singleton in Hy. subst y. discriminate. }
  split; [reflexivity|]. split; [exact Hf|].
  exact (testCompleteWorkflow_posts remote_credit eq_refl Hf).
Defined.

(** The credit [txn-1] as the server stores it once reversed. *)
Definition txn1_reversed : Transaction.t := Transaction.mk "txn-1" "acc-1" 1000 reversed epoch.

Lemma settle_already_reversed_witness :
  online (remote env_credit_reversed) = true /\
  js_find (has_id "txn-1") (get_transactions (server (remote env_credit_reversed))) = Some txn1_reversed /\
  Transaction.status txn1_reversed = reversed /\
  reverseTransaction "txn-1" env_credit_reversed =
    (inl (HttpError "Failed to reverse transaction" AlreadyReversed), env_credit_reversed) /\
  postTransaction "txn-1" env_credit_reversed =
    (inl (HttpError "Failed to post transaction" AlreadyReversed), env_credit_reversed).
Proof.
  assert (Hon : online (remote env_credit_reversed) = true) by (vm_compute; reflexivity).
  assert (Hf : js_find (has_id "txn-1") (get_transactions (server (remote env_credit_reversed))) =
               Some txn1_reversed) by (vm_compute; reflexivity).
  split; [exact Hon|]. split; [exact Hf|]. split; [reflexivity|].
  exact (settle_already_reversed "txn-1" txn1_reversed env_credit_reversed Hon Hf eq_refl).
Defined.

Lemma settle_not_found_witness :
  online (remote env_credit) = true /\
  js_find (has_id "txn-9") (get_transactions (server (remote env_credit))) = None /\
  postTransaction "txn-9" env_credit =
    (inl (HttpError "Failed to post transaction" NotFound), env_credit) /\
  reverseTransaction "txn-9" env_credit =
    (inl (HttpError "Failed to reverse transaction" NotFound), env_credit).
Proof.
  assert (Hon : online (remote env_credit) = true) by (vm_compute; reflexivity).
  assert (Hf : js_find (has_id "txn-9") (get_transactions (server (remote env_credit))) = None)
    by (vm_compute; reflexivity).
  split; [exact Hon|]. split; [exact Hf|].
  exact (proj1 (settle_not_found "txn-9" env_credit) Hon Hf).
Defined.

Lemma allItems_order_witness :
  let input := map ItemTransaction (transactions (data env_pending)) ++
               map ItemTransfer (transfers (data env_pending)) in
  Forall timed input /\ Sorted newer_first (allItems (data env_pending)) /\
  Permutation (allItems (data env_pending)) input.
Proof.
  intros input. assert (Ht : Forall timed input) by (apply (bool_decide_unpack _); vm_compute; exact I).
  destruct (allItems_order (data env_pending) Ht) as (_ & Hs & Hp & _). by split_and!.
Defined.

Lemma env_pending_reachable : rtc step env0 env_pending.
Proof.
  eapply rtc_trans; [exact env_funded_reachable|].
  eapply rtc_l; [apply (step_tick env_funded 2000); vm_compute; intros Hc; discriminate Hc|].
  eapply rtc_l; [eapply (step_createPendingTransfer "acc-1" "acc-2" 400 _ _ _ (surjective_pairing _))|].
  apply rtc_refl.
Qed.

(** The run to [env_pending], each step taken with the clock in range. *)
Lemma env_pending_in_range : rtc step_in_range env0 env_pending.
Proof.
  assert (Hc : forall x : E, clock_ok x <-> 0 <= elapsed x /\ four_digit_days ((now x + elapsed x) / msPerDay))
    by done.
  eapply rtc_l; [split; [apply Hc; vm_compute; repeat split; intros Hf; discriminate Hf|]|].
  { eapply (step_loadData _ _ _ (surjective_pairing _)). }
  eapply rtc_l; [split; [apply Hc; vm_compute; repeat split; intros Hf; discriminate Hf|]|].
  { eapply (step_createTransaction "acc-1" 1000 _ _ _ (surjective_pairing _)). }
  eapply rtc_l; [split; [apply Hc; vm_compute; repeat split; intros Hf; discriminate Hf|]|].
  { eapply (step_postTransaction "txn-1" _ _ _ (surjective_pairing _)). }
  eapply rtc_l; [split; [apply Hc; vm_compute; repeat split; intros Hf; discriminate Hf|]|].
  { apply (step_tick env_funded 2000). vm_compute. intros Hf. discriminate Hf. }
  eapply rtc_l; [split; [apply Hc; vm_compute; repeat split; intros Hf; discriminate Hf|]|].
  { eapply (step_createPendingTransfer "acc-1" "acc-2" 400 _ _ _ (surjective_pairing _)). }
  apply rtc_refl.
Qed.

Lemma stamps_reachable_witness :
  stamps_ok env0 /\ rtc step_in_range env0 env_pending /\
  exists n m, n <= now env_pending /\ n <= m /\ Transfer.id trf_2000 = "trf-" +:+ pretty n /\
              date_parse (Transfer.timestamp trf_2000) = Some m.
Proof.
  assert (Hs : stamps_ok env0) by (split; constructor).
  split_and!; [exact Hs|exact env_pending_in_range|].
  apply (stamps_reachable env0 env_pending Hs env_pending_in_range trf_2000).
  apply elem_of_app. left. rewrite env_pending_transfers. constructor.
Defined.

Definition txn1_posted : Transaction.t := Transaction.mk "txn-1" "acc-1" 1000 posted epoch.

Lemma credit_settles_witness :
  online (remote env_offline) = false /\
  js_find (has_id "txn-1") (get_transactions (server (remote env_offline))) = Some txn1_posted /\
  exists e', reverseTransaction "txn-1" (set_online true env_offline) = (inr tt, e') /\
    rtc step env_offline e' /\
    js_find (has_id "txn-1") (get_transactions (server (remote e'))) =
      Some (Transaction.with_status reversed txn1_posted).
Proof.
  assert (Hf : js_find (has_id "txn-1") (get_transactions (server (remote env_offline))) =
               Some txn1_posted) by (vm_compute; reflexivity).
  split; [reflexivity|]. split; [exact Hf|].
  exact (proj2 (credit_settles env_offline "txn-1" txn1_posted Hf ltac:(discriminate))).
Defined.

Lemma deposit_lifecycle_view_witness :
  "acc-1" <> "acc-2" /\ 400 <= available (balance_of (data (set_now 2000 env_funded)) "acc-1") /\
  fresh_transfer_id (data (set_now 2000 env_funded)) (now (set_now 2000 env_funded)) /\
  pending_deposit_line (created_transfer (now (set_now 2000 env_funded)) (now (set_now 2000 env_funded) + elapsed (set_now 2000 env_funded)) "acc-1" "acc-2" 400) =
    "₦400 from acc-1" /\
  exists e1 : E, pendingDeposits (data e1) "acc-2" =
    pendingDeposits (data (set_now 2000 env_funded)) "acc-2" ++ ["₦400 from acc-1"].
Proof.
  assert (Hle : 400 <= available (balance_of (data (set_now 2000 env_funded)) "acc-1"))
    by (vm_compute; discriminate).
  assert (Hl : pending_deposit_line (created_transfer (now (set_now 2000 env_funded)) (now (set_now 2000 env_funded) + elapsed (set_now 2000 env_funded)) "acc-1" "acc-2" 400) =
               "₦400 from acc-1") by (vm_compute; reflexivity).
  split; [done|]. split; [exact Hle|]. split; [exact env_funded_fresh|]. split; [exact Hl|].
  destruct (deposit_lifecycle_view "acc-1" "acc-2" 400 (set_now 2000 env_funded) ltac:(done) Hle
              env_funded_fresh) as (e1 & e2 & _ & _ & Hd & _).
  exists e1. rewrite Hd, Hl. reflexivity.
Defined.

Lemma create_form_submits_witness :
  valid_float "5001" = Some (5001 # 1)%Q /\
  Form.isSubmitting (Form.mk "acc-demo-1" "5001" false) = false /\
  submit (Form.mk "acc-demo-1" "5000" false) env0 = (inr Blocked, env0) /\
  exists n, ((5001 # 1) == inject_Z n)%Q /\ 1 <= n /\ n mod 100 = 1.
Proof.
  assert (Hv : valid_float "5001" = Some (5001 # 1)%Q) by (vm_compute; reflexivity).
  assert (Hs : Form.isSubmitting (Form.mk "acc-demo-1" "5001" false) = false) by reflexivity.
  split; [exact Hv|]. split; [exact Hs|]. split; [vm_compute; reflexivity|].
  destruct (create_form_submits (Form.mk "acc-demo-1" "5001" false) env0 (5001 # 1)%Q Hv Hs)
    as [Hiff _].
  apply Hiff. vm_compute. reflexivity.
Defined.

Lemma transfer_page_amount_witness :
  numeral [1] /\ numeral [3] /\ send_disabled (mkForm "acc-2" "1e3" false) = false /\
  0 < digits_value 10 [1] /\
  submitTransfer "acc-1" (mkForm "acc-2" "1e3" false) env_funded =
    (inr (Submitted (ToastSuccess "Transfer sent! Awaiting admin confirmation.") (mkForm "" "" false)),
     snd (createPendingTransfer "acc-1" "acc-2" 1 env_funded)).
Proof.
  assert (Hd : numeral [1]) by (split; [done|repeat constructor; lia]).
  assert (Hk : numeral [3]) by (split; [done|repeat constructor; lia]).
  assert (Hdis : send_disabled (mkForm "acc-2" "1e3" false) = false) by reflexivity.
  assert (Hn : 0 < digits_value 10 [1]) by (vm_compute; reflexivity).
  split_and!; [exact Hd|exact Hk|exact Hdis|exact Hn|].
  destruct (transfer_page_amount "acc-1" (mkForm "acc-2" "1e3" false) env_funded [1] [3] Hd Hk Hdis Hn)
    as [_ Hexp].
  rewrite (Hexp eq_refl).
  assert (Hc : (digits_value 10 [1] * 10 ^ digits_value 10 [3]
                <=? available (balance_of (data env_funded) "acc-1")) = true) by (vm_compute; reflexivity).
  by rewrite Hc.
Defined.

Lemma fresh_card_order_witness :
  0 <= 400 <= 1000 /\
  DualBalanceCard.displayAvailable (DualBalanceCard.run (DualBalanceCard.mount 1000 400)
                                      (repeat DualBalanceCard.Tick 30)) <=
  DualBalanceCard.displayTotal (DualBalanceCard.run (DualBalanceCard.mount 1000 400)
                                  (repeat DualBalanceCard.Tick 30)).
Proof.
  assert (H : 0 <= 400 <= 1000) by lia.
  split; [exact H|]. exact (DualBalanceCardFacts.fresh_card_order 1000 400 30 H).
Defined.

(** The two transfers of one millisecond of [env_twins]
    give the sender's transfers list two rows with the same React [key]. *)
Lemma twins_rows_share_key :
  exists rows, TransfersList.render (transfers (data env_twins)) "acc-1" = TransfersList.Rows rows /\
    ~ NoDup (map TransfersList.key rows).
Proof.
  eexists. split; [vm_compute; reflexivity|].
  apply (bool_decide_eq_false_1 _). vm_compute. reflexivity.
Qed.

(** With the transfer of 400 pending and the credit posted, the admin
    dashboard's Pending card shows 0 and the transactions page's shows 1. *)
Lemma pending_transfer_hidden_on_dashboard :
  map stat_value (AdminDashboard.cards (data env_pending)) !! 1%nat = Some "0" /\
  map stat_value (AdminTransactions.cards (data env_pending)) !! 1%nat = Some "1".
Proof. split; vm_compute; reflexivity. Qed.

Lemma same_ms_transfers_share_id_witness :
  fresh_transfer_id (data (set_now 2000 env_funded)) (now (set_now 2000 env_funded)) /\
  createPendingTransfer "acc-1" "acc-2" 100 (set_now 2000 env_funded) =
    (inr (PendingOk trf_twin_a), exec (createPendingTransfer "acc-1" "acc-2" 100) (set_now 2000 env_funded)) /\
  createPendingTransfer "acc-1" "acc-3" 200
      (exec (createPendingTransfer "acc-1" "acc-2" 100) (set_now 2000 env_funded)) =
    (inr (PendingOk trf_twin_b), env_twins) /\
  (Transfer.id trf_twin_a = Transfer.id trf_twin_b /\
   let d3 := data (snd (postTransfer (Transfer.id trf_twin_a) env_twins)) in
   transfers d3 = transfers (data (set_now 2000 env_funded)) ++
     [Transfer.with_status posted trf_twin_a; Transfer.with_status posted trf_twin_b] /\
   balances d3 = <["acc-2" := credit (balance_of (data env_twins) "acc-2") 100]> (balances (data env_twins))).
Proof.
  assert (Hf : fresh_transfer_id (data (set_now 2000 env_funded)) (now (set_now 2000 env_funded))).
  { intros x Hx. assert (Hn : transfers (data (set_now 2000 env_funded)) = []) by (vm_compute; reflexivity).
    rewrite Hn in Hx. by apply elem_of_nil in Hx. }
  assert (H1 : createPendingTransfer "acc-1" "acc-2" 100 (set_now 2000 env_funded) =
    (inr (PendingOk trf_twin_a), exec (createPendingTransfer "acc-1" "acc-2" 100) (set_now 2000 env_funded)))
    by (vm_compute; reflexivity).
  assert (H2 : createPendingTransfer "acc-1" "acc-3" 200
      (exec (createPendingTransfer "acc-1" "acc-2" 100) (set_now 2000 env_funded)) =
    (inr (PendingOk trf_twin_b), env_twins)) by (vm_compute; reflexivity).
  split; [exact Hf|]. split; [exact H1|]. split; [exact H2|].
  exact (same_ms_transfers_share_id "acc-1" "acc-2" 100 "acc-1" "acc-3" 200 _ _ _ _ _ Hf H1 H2).
Defined.

Lemma shown_recipients_witness :
  "acc-1" <> "" /\
  ("acc-1" ∈ map fst (TransferPage.options (TransferPage.shown (data env_funded) "acc-2" (mkForm "" "" false))) <->
   is_Some (balances (data env_funded) !! "acc-1") /\ "acc-1" <> "acc-2").
Proof.
  assert (Hne : "acc-1" <> "") by discriminate.
  split; [exact Hne|]. exact (shown_recipients (data env_funded) "acc-2" (mkForm "" "" false) "acc-1" Hne).
Defined.

